(** * EventSchedulerSystem: the event store of [app.py]

    A shallow embedding of the Flask application [app.py]: the validator
    [validate_event_data], the persistence functions [load_events] and
    [save_events], and the four handlers [create_event], [list_events],
    [update_event] and [delete_event], together with the parts of the
    Python standard library they rely on ([str.strip],
    [datetime.fromisoformat], [datetime.isoformat], datetime comparison,
    the stable [sorted]).

    Python objects are values of the type [value]; a [dict] is an
    association list in insertion order.  The module-level list [events]
    and the file [events.json] form the [store] that the handlers thread
    through an exception-and-state monad. *)

From Stdlib Require Import ZArith List String Ascii Bool Lia DecimalString.
From Stdlib Require Import Sorting.Sorted Sorting.Permutation.
Import ListNotations.
Open Scope string_scope.
Open Scope Z_scope.

(** ** Python strings *)

(** A Python [str] is modelled as a [string] whose characters are the code
    points 0 to 255. *)

Definition code (c : ascii) : Z := Z.of_nat (nat_of_ascii c).

(** [str.isspace] on the code points below 256. *)
Definition is_space (c : ascii) : bool :=
  let n := code c in
  ((9 <=? n) && (n <=? 13)) || ((28 <=? n) && (n <=? 32))
  || (n =? 133) || (n =? 160).

Fixpoint lstrip (s : string) : string :=
  match s with
  | String c s' => if is_space c then lstrip s' else s
  | EmptyString => EmptyString
  end.

Fixpoint rstrip (s : string) : string :=
  match s with
  | EmptyString => EmptyString
  | String c s' =>
      match rstrip s' with
      | EmptyString => if is_space c then EmptyString else String c EmptyString
      | r => String c r
      end
  end.

(** [s.strip()] *)
Definition strip (s : string) : string := rstrip (lstrip s).

(** [sep.join(l)] *)
Fixpoint join (sep : string) (l : list string) : string :=
  match l with
  | [] => ""
  | [x] => x
  | x :: r => x ++ sep ++ join sep r
  end.

(** [needle in hay] on strings. *)
Fixpoint contains (needle hay : string) : bool :=
  prefix needle hay ||
  match hay with
  | EmptyString => false
  | String _ hay' => contains needle hay'
  end.

(** ** Decimal fields *)

Definition is_digit (c : ascii) : bool := (48 <=? code c) && (code c <=? 57).

Definition digit_val (c : ascii) : Z := code c - 48.

Definition digit_char (d : Z) : ascii := ascii_of_nat (Z.to_nat (48 + d)).

(** Reads exactly [n] decimal digits. *)
Fixpoint parse_digits (n : nat) (s : string) (acc : Z) : option (Z * string) :=
  match n with
  | O => Some (acc, s)
  | S n' =>
      match s with
      | String c s' =>
          if is_digit c then parse_digits n' s' (acc * 10 + digit_val c)
          else None
      | EmptyString => None
      end
  end.

(** ["%0nd" % k] for [0 <= k < 10^n], most significant digit first. *)
Fixpoint zero_pad (n : nat) (k : Z) : string :=
  match n with
  | O => ""
  | S n' =>
      String (digit_char (k / 10 ^ Z.of_nat n'))
             (zero_pad n' (k mod 10 ^ Z.of_nat n'))
  end.

(** ** datetime *)

(** A [datetime.datetime]; [tzinfo] is the UTC offset of a fixed-offset
    [timezone] in microseconds, [None] for a naive datetime. *)
Record datetime : Type := mkDatetime {
  year : Z; month : Z; day : Z;
  hour : Z; minute : Z; second : Z; microsecond : Z;
  tzinfo : option Z
}.

Definition is_leap (y : Z) : bool :=
  (y mod 4 =? 0) && (negb (y mod 100 =? 0) || (y mod 400 =? 0)).

Definition days_in_month (y m : Z) : Z :=
  if m =? 2 then (if is_leap y then 29 else 28)
  else if (m =? 4) || (m =? 6) || (m =? 9) || (m =? 11) then 30
  else 31.

Definition days_before_year (y : Z) : Z :=
  let y' := y - 1 in y' * 365 + y' / 4 - y' / 100 + y' / 400.

Fixpoint days_before_month_aux (y : Z) (m : nat) : Z :=
  match m with
  | O => 0
  | S m' => days_before_month_aux y m' + days_in_month y (Z.of_nat m)
  end.

(** Number of days of year [y] before the first day of month [m]. *)
Definition days_before_month (y m : Z) : Z :=
  days_before_month_aux y (Z.to_nat (m - 1)).

(** [date.toordinal()] *)
Definition ymd2ord (y m d : Z) : Z :=
  days_before_year y + days_before_month y m + d.

Definition us_per_day : Z := 86400 * 1000000.

(** The checks of the [datetime] and [timezone] constructors. *)
Definition valid_date (y m d : Z) : bool :=
  (1 <=? y) && (y <=? 9999) && (1 <=? m) && (m <=? 12)
  && (1 <=? d) && (d <=? days_in_month y m).

Definition valid_time (h mi s us : Z) : bool :=
  (0 <=? h) && (h <=? 23) && (0 <=? mi) && (mi <=? 59)
  && (0 <=? s) && (s <=? 59) && (0 <=? us) && (us <=? 999999).

Definition valid_offset (tz : option Z) : bool :=
  match tz with
  | None => true
  | Some off => (- us_per_day <? off) && (off <? us_per_day)
  end.

Definition valid_datetime (d : datetime) : bool :=
  valid_date (year d) (month d) (day d)
  && valid_time (hour d) (minute d) (second d) (microsecond d)
  && valid_offset (tzinfo d).

(** *** [datetime.fromisoformat]

    The parser follows the format the standard library documents for
    [datetime.fromisoformat] (Python 3.7 to 3.10), the inverse of
    [isoformat]:
    [YYYY-MM-DD[*HH[:MM[:SS[.fff[fff]]]][+HH:MM[:SS[.ffffff]]]]]
    where [*] is any single character.  [None] stands for [ValueError].
    Python 3.11 and later accept further forms as well (a [Z] suffix, the
    basic format, offsets written [+HHMM]); these are not modelled. *)

Definition expect (c : ascii) (s : string) : option string :=
  match s with
  | String c' s' => if Ascii.eqb c c' then Some s' else None
  | EmptyString => None
  end.

Definition parse_isoformat_date (s : string) : option (Z * Z * Z * string) :=
  match parse_digits 4 s 0 with
  | Some (y, s1) =>
    match expect "-" s1 with
    | Some s2 =>
      match parse_digits 2 s2 0 with
      | Some (m, s3) =>
        match expect "-" s3 with
        | Some s4 =>
          match parse_digits 2 s4 0 with
          | Some (d, s5) => Some (y, m, d, s5)
          | None => None
          end
        | None => None
        end
      | None => None
      end
    | None => None
    end
  | None => None
  end.

(** [.fff[fff]]: six digits, or three digits scaled to microseconds. *)
Definition parse_fraction (s : string) : option (Z * string) :=
  match parse_digits 6 s 0 with
  | Some r => Some r
  | None =>
      match parse_digits 3 s 0 with
      | Some (ms, s') => Some (ms * 1000, s')
      | None => None
      end
  end.

(** [HH[:MM[:SS[.fff[fff]]]]], returning what follows it. *)
Definition parse_hh_mm_ss_ff (s : string) : option (Z * Z * Z * Z * string) :=
  match parse_digits 2 s 0 with
  | None => None
  | Some (h, String ":" s1) =>
      match parse_digits 2 s1 0 with
      | None => None
      | Some (mi, String ":" s2) =>
          match parse_digits 2 s2 0 with
          | None => None
          | Some (sec, String "." s3) =>
              match parse_fraction s3 with
              | None => None
              | Some (us, s4) => Some (h, mi, sec, us, s4)
              end
          | Some (sec, s3) => Some (h, mi, sec, 0, s3)
          end
      | Some (mi, s2) => Some (h, mi, 0, 0, s2)
      end
  | Some (h, s1) => Some (h, 0, 0, 0, s1)
  end.

(** The offset [HH:MM[:SS[.ffffff]]] after the sign has been read; the
    offset string must end there. *)
Definition parse_tz (s : string) : option (Z * Z * Z * Z) :=
  match parse_digits 2 s 0 with
  | Some (h, String ":" s1) =>
      match parse_digits 2 s1 0 with
      | Some (mi, EmptyString) => Some (h, mi, 0, 0)
      | Some (mi, String ":" s2) =>
          match parse_digits 2 s2 0 with
          | Some (sec, EmptyString) => Some (h, mi, sec, 0)
          | Some (sec, String "." s3) =>
              match parse_digits 6 s3 0 with
              | Some (us, EmptyString) => Some (h, mi, sec, us)
              | _ => None
              end
          | _ => None
          end
      | _ => None
      end
  | _ => None
  end.

Definition offset_us (sign h mi sec us : Z) : Z :=
  sign * (((h * 3600 + mi * 60 + sec) * 1000000) + us).

Definition parse_isoformat_time (s : string)
  : option (Z * Z * Z * Z * option Z) :=
  match parse_hh_mm_ss_ff s with
  | None => None
  | Some (h, mi, sec, us, EmptyString) => Some (h, mi, sec, us, None)
  | Some (h, mi, sec, us, String c rest) =>
      let sign :=
        if Ascii.eqb c "+" then Some 1
        else if Ascii.eqb c "-" then Some (-1)
        else None in
      match sign, parse_tz rest with
      | Some sg, Some (th, tmi, tsec, tus) =>
          Some (h, mi, sec, us, Some (offset_us sg th tmi tsec tus))
      | _, _ => None
      end
  end.

(** The constructor call [cls(year, month, day, hour, ...)]. *)
Definition new_datetime (y m d h mi s us : Z) (tz : option Z)
  : option datetime :=
  let dt := mkDatetime y m d h mi s us tz in
  if valid_datetime dt then Some dt else None.

Definition fromisoformat (s : string) : option datetime :=
  match parse_isoformat_date s with
  | None => None
  | Some (y, m, d, EmptyString) => new_datetime y m d 0 0 0 0 None
  | Some (y, m, d, String _sep tstr) =>
      match parse_isoformat_time tstr with
      | None => None
      | Some (h, mi, sec, us, tz) => new_datetime y m d h mi sec us tz
      end
  end.

(** *** [datetime.isoformat] *)

(** [_format_offset]: sign, [HH:MM], then [:SS] and [.ffffff] when they
    are not zero. *)
Definition format_offset (tz : option Z) : string :=
  match tz with
  | None => ""
  | Some off =>
      let sign := if off <? 0 then "-" else "+" in
      let a := Z.abs off in
      let us := a mod 1000000 in
      let secs := a / 1000000 in
      let hh := secs / 3600 in
      let mm := (secs mod 3600) / 60 in
      let ss := secs mod 60 in
      sign ++ zero_pad 2 hh ++ ":" ++ zero_pad 2 mm ++
      (if (ss =? 0) && (us =? 0) then ""
       else ":" ++ zero_pad 2 ss ++
            (if us =? 0 then "" else "." ++ zero_pad 6 us))
  end.

Definition isoformat_sep (sep : string) (d : datetime) : string :=
  zero_pad 4 (year d) ++ "-" ++ zero_pad 2 (month d) ++ "-" ++
  zero_pad 2 (day d) ++ sep ++
  zero_pad 2 (hour d) ++ ":" ++ zero_pad 2 (minute d) ++ ":" ++
  zero_pad 2 (second d) ++
  (if microsecond d =? 0 then "" else "." ++ zero_pad 6 (microsecond d)) ++
  format_offset (tzinfo d).

(** [d.isoformat()] *)
Definition isoformat (d : datetime) : string := isoformat_sep "T" d.

(** *** Comparison of datetimes

    [datetime._cmp]: two naive datetimes, or two aware ones with the same
    offset, are compared field by field; two aware datetimes with different
    offsets are compared after subtracting their offsets; a naive and an
    aware datetime cannot be ordered ([TypeError]). *)

Definition lex (c1 c2 : comparison) : comparison :=
  match c1 with Eq => c2 | _ => c1 end.

Definition cmp_fields (a b : datetime) : comparison :=
  lex (year a ?= year b)
  (lex (month a ?= month b)
  (lex (day a ?= day b)
  (lex (hour a ?= hour b)
  (lex (minute a ?= minute b)
  (lex (second a ?= second b)
       (microsecond a ?= microsecond b)))))).

(** Microseconds since the start of day 0 of the proleptic calendar. *)
Definition base_micros (d : datetime) : Z :=
  (ymd2ord (year d) (month d) (day d) * 86400
   + hour d * 3600 + minute d * 60 + second d) * 1000000 + microsecond d.

Definition utc_micros (d : datetime) : Z :=
  base_micros d - match tzinfo d with Some off => off | None => 0 end.

Definition datetime_cmp (a b : datetime) : option comparison :=
  match tzinfo a, tzinfo b with
  | None, None => Some (cmp_fields a b)
  | Some oa, Some ob =>
      if oa =? ob then Some (cmp_fields a b)
      else Some (utc_micros a ?= utc_micros b)
  | _, _ => None
  end.

(** ** Python objects *)

(** The objects the program handles: what [json.load] and
    [request.get_json] produce, plus [datetime].  JSON numbers are modelled
    as integers; floating-point numbers are outside the model. *)
#[warnings="-register-all"]
Inductive value : Type :=
| VNone
| VBool (b : bool)
| VInt (n : Z)
| VStr (s : string)
| VDatetime (d : datetime)
| VList (l : list value)
| VDict (d : list (string * value)).

(** A Python [dict] with string keys, in insertion order. *)
Definition dict : Type := list (string * value).

(** [d.get(k)], with [None] of Rocq for a missing key. *)
Fixpoint dict_get (d : dict) (k : string) : option value :=
  match d with
  | [] => None
  | (k', v) :: r => if String.eqb k' k then Some v else dict_get r k
  end.

(** [k in d] *)
Definition dict_mem (d : dict) (k : string) : bool :=
  match dict_get d k with Some _ => true | None => false end.

(** [d[k] = v]: an existing key keeps its place, a new one is appended. *)
Fixpoint dict_set (d : dict) (k : string) (v : value) : dict :=
  match d with
  | [] => [(k, v)]
  | (k', v') :: r =>
      if String.eqb k' k then (k', v) :: r else (k', v') :: dict_set r k v
  end.

(** Truth value of an object, as tested by [if not data]. *)
Definition truthy (v : value) : bool :=
  match v with
  | VNone => false
  | VBool b => b
  | VInt n => negb (n =? 0)
  | VStr s => negb (String.eqb s "")
  | VDatetime _ => true
  | VList l => match l with [] => false | _ => true end
  | VDict d => match d with [] => false | _ => true end
  end.

(** What [json.dump] accepts: everything but a [datetime]. *)
Fixpoint json_serializable (v : value) : bool :=
  match v with
  | VDatetime _ => false
  | VList l => forallb json_serializable l
  | VDict d => forallb (fun kv => json_serializable (snd kv)) d
  | _ => true
  end.

(** ** Exceptions and results *)

Inductive exn : Type :=
| BadRequest (description : string)
| NotFound (description : string)
| InternalServerError (description : string)
| TypeError
| KeyError
| AttributeError.

Inductive res (A : Type) : Type :=
| Ok (a : A)
| Raise (e : exn).
Arguments Ok {A} a.
Arguments Raise {A} e.

Definition res_bind {A B} (r : res A) (f : A -> res B) : res B :=
  match r with Ok a => f a | Raise e => Raise e end.

(** [d[k]] *)
Definition subscript (d : dict) (k : string) : res value :=
  match dict_get d k with Some v => Ok v | None => Raise KeyError end.

(** Ordering of two objects, the basis of [<] and [>=].  Integers (and
    booleans, which are integers), strings and datetimes are ordered among
    themselves; [None], dicts and objects of different kinds are not.
    Ordering two lists is not modelled and reported as [TypeError]: a list
    can only stand in a time field of a hand-edited events file. *)
Definition int_of_bool (b : bool) : Z := if b then 1 else 0.

Definition value_cmp (a b : value) : res comparison :=
  match a, b with
  | VDatetime x, VDatetime y =>
      match datetime_cmp x y with Some c => Ok c | None => Raise TypeError end
  | VStr x, VStr y => Ok (String.compare x y)
  | VInt x, VInt y => Ok (x ?= y)
  | VInt x, VBool y => Ok (x ?= int_of_bool y)
  | VBool x, VInt y => Ok (int_of_bool x ?= y)
  | VBool x, VBool y => Ok (int_of_bool x ?= int_of_bool y)
  | _, _ => Raise TypeError
  end.

(** [a < b] *)
Definition value_lt (a b : value) : res bool :=
  res_bind (value_cmp a b)
           (fun c => Ok match c with Lt => true | _ => false end).

(** [a >= b] *)
Definition value_ge (a b : value) : res bool :=
  res_bind (value_cmp a b)
           (fun c => Ok match c with Lt => false | _ => true end).

(** [v.isoformat()] *)
Definition value_isoformat (v : value) : res value :=
  match v with
  | VDatetime d => Ok (VStr (isoformat d))
  | _ => Raise AttributeError
  end.

(** [sorted(l, key=...)] on a list of (key, item) pairs.  [sorted] is
    stable and only uses [<]; it is modelled as a stable insertion sort,
    which fails as soon as two keys cannot be ordered. *)
Fixpoint insert_sorted {A} (x : value * A) (l : list (value * A))
  : res (list (value * A)) :=
  match l with
  | [] => Ok [x]
  | y :: ys =>
      res_bind (value_lt (fst y) (fst x)) (fun b =>
        if b then res_bind (insert_sorted x ys) (fun r => Ok (y :: r))
        else Ok (x :: y :: ys))
  end.

Fixpoint sort_keyed {A} (l : list (value * A)) : res (list (value * A)) :=
  match l with
  | [] => Ok []
  | x :: r => res_bind (sort_keyed r) (insert_sorted x)
  end.

(** Evaluates [f] on every element, left to right, stopping at the first
    exception. *)
Fixpoint mapM {A B} (f : A -> res B) (l : list A) : res (list B) :=
  match l with
  | [] => Ok []
  | x :: r =>
      res_bind (f x) (fun y => res_bind (mapM f r) (fun ys => Ok (y :: ys)))
  end.

Definition sorted (key : dict -> res value) (l : list dict)
  : res (list dict) :=
  res_bind (mapM (fun e => res_bind (key e) (fun k => Ok (k, e))) l)
    (fun keyed => res_bind (sort_keyed keyed) (fun s => Ok (map snd s))).

(** ** The store: the global [events] list and the file [events.json] *)

(** The content of [events.json] as [json.load] sees it.  [json.dump] and
    [json.load] are taken at the level of the decoded document: a file
    written by [json.dump v] is [FJson v]. *)
Inductive file_state : Type :=
| FAbsent                (* the file does not exist *)
| FEmpty                 (* the file has size 0 *)
| FMalformed             (* the content is not a JSON document *)
| FJson (v : value).     (* the content is the JSON text of [v] *)

(** How the file system answers the next write: it succeeds, or it raises
    [IOError] and leaves the file in the given state. *)
Inductive disk : Type :=
| DiskOk
| DiskFails (leftover : file_state).

Record store : Type := mkStore {
  events : list dict;
  events_file : file_state
}.

(** Computations that read and write the store and may raise. *)
Definition M (A : Type) : Type := store -> res A * store.

Definition ret {A} (a : A) : M A := fun st => (Ok a, st).

Definition raise {A} (e : exn) : M A := fun st => (Raise e, st).

Definition bind {A B} (m : M A) (f : A -> M B) : M B :=
  fun st =>
    match m st with
    | (Ok a, st') => f a st'
    | (Raise e, st') => (Raise e, st')
    end.

Definition lift {A} (r : res A) : M A := fun st => (r, st).

Definition get_events : M (list dict) := fun st => (Ok (events st), st).

Definition set_events (evs : list dict) : M unit :=
  fun st => (Ok tt, mkStore evs (events_file st)).

Definition set_file (f : file_state) : M unit :=
  fun st => (Ok tt, mkStore (events st) f).

Notation "x <- m ;; k" := (bind m (fun x => k))
  (at level 61, m at next level, right associativity).
Notation "m ;;; k" := (bind m (fun _ => k))
  (at level 61, right associativity).

(** ** Persistence *)

(** One iteration of the loop of [load_events].  [KeyError] escapes the
    inner [try]; [ValueError] and [TypeError] of [fromisoformat] are caught
    there and leave the record as it is at that point. *)
Definition parse_time_value (v : value) : option datetime :=
  match v with
  | VStr s => fromisoformat s
  | _ => None
  end.

Definition load_event (uuid : string) (event : dict) : res dict :=
  let event :=
    if dict_mem event "id" then event else dict_set event "id" (VStr uuid) in
  res_bind (subscript event "start_time") (fun st =>
    match parse_time_value st with
    | None => Ok event
    | Some d1 =>
        let event := dict_set event "start_time" (VDatetime d1) in
        res_bind (subscript event "end_time") (fun en =>
          match parse_time_value en with
          | None => Ok event
          | Some d2 => Ok (dict_set event "end_time" (VDatetime d2))
          end)
    end).

(** The loop over [events_data]; [uuid4 n] is the [n]-th identifier that
    [uuid.uuid4()] generates.  An element that is not a dict raises
    ([TypeError] or [AttributeError]) out of the inner [try]. *)
Fixpoint load_items (uuid4 : nat -> string) (n : nat) (items : list value)
  : res (list value) :=
  match items with
  | [] => Ok []
  | VDict event :: rest =>
      res_bind (load_event (uuid4 n) event) (fun event' =>
        let n' := if dict_mem event "id" then n else S n in
        res_bind (load_items uuid4 n' rest) (fun rest' =>
          Ok (VDict event' :: rest')))
  | _ :: _ => Raise TypeError
  end.

(** [load_events()].  A document that is not a list is iterated all the
    same: an empty dict or string has no element and is returned as it is,
    every other document raises in the loop; every exception ends in the
    empty list. *)
Definition load_events (uuid4 : nat -> string) (f : file_state) : value :=
  match f with
  | FAbsent | FEmpty => VList []
  | FMalformed => VList []
  | FJson (VList items) =>
      match load_items uuid4 0 items with
      | Ok l => VList l
      | Raise _ => VList []
      end
  | FJson (VDict []) => VDict []
  | FJson (VStr EmptyString) => VStr EmptyString
  | FJson _ => VList []
  end.

(** The copy of an event that [save_events] serializes. *)
Definition isoformat_field (k : string) (event : dict) : dict :=
  match dict_get event k with
  | Some (VDatetime d) => dict_set event k (VStr (isoformat d))
  | _ => event
  end.

Definition serializable_event (event : dict) : dict :=
  isoformat_field "end_time" (isoformat_field "start_time" event).

(** [save_events(events)].  When the write fails the file is left as the
    file system chooses; when [json.dump] meets an object it cannot encode
    the file has been opened for writing and holds a truncated document. *)
Definition save_events (io : disk) (evs : list dict) : M unit :=
  let serializable_events := map serializable_event evs in
  match io with
  | DiskFails leftover =>
      set_file leftover ;;;
      raise (InternalServerError
               "Failed to save events due to file system error.")
  | DiskOk =>
      if forallb (fun e => json_serializable (VDict e)) serializable_events
      then set_file (FJson (VList (map VDict serializable_events)))
      else
        set_file FMalformed ;;;
        raise (InternalServerError
                 "Failed to save events due to data serialization error.")
  end.

(** ** Validation *)

Definition required_fields : list string :=
  ["title"; "description"; "start_time"; "end_time"].

Definition missing_errors (data : dict) : list string :=
  flat_map (fun field =>
              if dict_mem data field then []
              else ["Missing required field: '" ++ field ++ "'"])
           required_fields.

Definition title_errors (data : dict) : list string :=
  match dict_get data "title" with
  | None => []
  | Some (VStr s) =>
      if String.eqb (strip s) "" then ["Title must be a non-empty string."]
      else []
  | Some _ => ["Title must be a non-empty string."]
  end.

Definition description_errors (data : dict) : list string :=
  match dict_get data "description" with
  | None => []
  | Some (VStr _) => []
  | Some _ => ["Description must be a string."]
  end.

Definition invalid_format_error (field : string) : string :=
  "Invalid " ++ field ++ " format. Use ISO 8601 (YYYY-MM-DDTHH:MM:SS).".

(** The block that validates and parses one time field; [field] is
    [start_time] or [end_time].  A key that is missing and a key whose
    value is [None] are both [data.get(field) is None]. *)
Definition validate_time (data : dict) (field : string)
  : list string * option datetime :=
  match dict_get data field with
  | None | Some VNone => ([], None)
  | Some (VStr s) =>
      match fromisoformat s with
      | Some d => ([], Some d)
      | None => ([invalid_format_error field], None)
      end
  | Some _ => ([field ++ " must be a string."], None)
  end.

(** [validate_event_data(data, is_update)] returns
    [(len(errors) == 0, errors, parsed_start_time, parsed_end_time)]. *)
Definition validate_event_data (data : dict) (is_update : bool)
  : bool * list string * option datetime * option datetime :=
  let errors := if is_update then [] else missing_errors data in
  let errors := (errors ++ title_errors data)%list in
  let errors := (errors ++ description_errors data)%list in
  let '(start_errors, parsed_start_time) := validate_time data "start_time" in
  let errors := (errors ++ start_errors)%list in
  let '(end_errors, parsed_end_time) := validate_time data "end_time" in
  let errors := (errors ++ end_errors)%list in
  (match errors with [] => true | _ => false end,
   errors, parsed_start_time, parsed_end_time).

(** [get_event_by_id] *)
Fixpoint get_event_by_id (evs : list dict) (event_id : string)
  : res (option dict) :=
  match evs with
  | [] => Ok None
  | event :: rest =>
      res_bind (subscript event "id") (fun i =>
        match i with
        | VStr s =>
            if String.eqb s event_id then Ok (Some event)
            else get_event_by_id rest event_id
        | _ => get_event_by_id rest event_id
        end)
  end.

(** ** Responses *)

Record response : Type := mkResponse {
  status : Z;
  body : value
}.

Definition error_body (category message : string) : value :=
  VDict [("error", VStr category); ("message", VStr message)].

(** What the [except BadRequest] and [except NotFound] clauses return. *)
Definition bad_request (description : string) : response :=
  mkResponse 400 (error_body "Bad Request" description).

Definition not_found (description : string) : response :=
  mkResponse 404 (error_body "Not Found" description).

(** The error handler registered for 500: every handler re-raises an
    unexpected exception as [InternalServerError], which ends here. *)
Definition internal_server_error : response :=
  mkResponse 500
    (error_body "Internal Server Error"
                "An unexpected error occurred on the server.").

(** [home()] *)
Definition home : response :=
  mkResponse 200
    (VDict [("message",
             VStr ("Welcome to the Event Scheduler API! "
                   ++ "Use /events to manage events."))]).

(** The [message] entry of a response body. *)
Definition message_of (r : response) : option value :=
  match body r with
  | VDict d => dict_get d "message"
  | _ => None
  end.

(** [{v}] in an f-string.  The elements of a list or dict are elided. *)
Definition format_value (v : value) : string :=
  match v with
  | VNone => "None"
  | VBool true => "True"
  | VBool false => "False"
  | VInt n => DecimalString.NilZero.string_of_int (Z.to_int n)
  | VStr s => s
  | VDatetime d => isoformat_sep " " d
  | VList _ => "[...]"
  | VDict _ => "{...}"
  end.

(** [data[k].strip()] *)
Definition stripped (data : dict) (k : string) : res string :=
  res_bind (subscript data k) (fun v =>
    match v with
    | VStr s => Ok (strip s)
    | _ => Raise AttributeError
    end).

(** The copy of an event sent in a response: both times through
    [isoformat()]. *)
Definition response_event (event : dict) : res dict :=
  res_bind (subscript event "start_time") (fun st =>
  res_bind (value_isoformat st) (fun st' =>
    let r := dict_set event "start_time" st' in
    res_bind (subscript r "end_time") (fun en =>
    res_bind (value_isoformat en) (fun en' =>
      Ok (dict_set r "end_time" en'))))).

Definition as_value (o : option datetime) : value :=
  match o with Some d => VDatetime d | None => VNone end.

(** ** Handlers *)

Definition new_event (id title description : string) (st en : value) : dict :=
  [("id", VStr id); ("title", VStr title); ("description", VStr description);
   ("start_time", st); ("end_time", en)].

(** [create_event] up to and including [events.append(new_event)];
    [uuid] is the identifier that [uuid.uuid4()] returns and [data] the
    decoded request body.  A body that is true but not a dict raises
    [TypeError] or [AttributeError] inside [validate_event_data]. *)
Definition create_in_memory (uuid : string) (data : value) : M dict :=
  if negb (truthy data) then raise (BadRequest "Request body must be JSON.")
  else
    match data with
    | VDict data =>
        let '(is_valid, errors, parsed_start_time, parsed_end_time) :=
          validate_event_data data false in
        if negb is_valid then raise (BadRequest (join ", " errors))
        else
          ge <- lift (value_ge (as_value parsed_start_time)
                               (as_value parsed_end_time)) ;;
          if ge : bool
          then raise (BadRequest "Start time must be strictly before end time.")
          else
            title <- lift (stripped data "title") ;;
            description <- lift (stripped data "description") ;;
            let event :=
              new_event uuid title description
                        (as_value parsed_start_time)
                        (as_value parsed_end_time) in
            evs <- get_events ;;
            set_events (evs ++ [event])%list ;;;
            ret event
    | _ => raise AttributeError
    end.

(** The [try] block of [create_event]: the in-memory part, then
    [save_events(events)] and the response. *)
Definition create_event_body (uuid : string) (io : disk) (data : value)
  : M response :=
  event <- create_in_memory uuid data ;;
  evs <- get_events ;;
  save_events io evs ;;;
  r <- lift (response_event event) ;;
  ret (mkResponse 201
         (VDict [("message", VStr "Event created successfully");
                 ("event", VDict r)])).

Definition create_event (uuid : string) (io : disk) (data : value)
  : store -> response * store :=
  fun st =>
    match create_event_body uuid io data st with
    | (Ok r, st') => (r, st')
    | (Raise (BadRequest description), st') => (bad_request description, st')
    | (Raise _, st') => (internal_server_error, st')
    end.

Definition list_events_body : M response :=
  evs <- get_events ;;
  sorted_events <-
    lift (sorted (fun event => subscript event "start_time") evs) ;;
  response_events <- lift (mapM response_event sorted_events) ;;
  ret (mkResponse 200
         (VDict [("events", VList (map VDict response_events))])).

Definition list_events : store -> response * store :=
  fun st =>
    match list_events_body st with
    | (Ok r, st') => (r, st')
    | (Raise _, st') => (internal_server_error, st')
    end.

(** The lookup loop of [update_event] and [delete_event]: the first event
    whose [id] equals [event_id], with its index. *)
Fixpoint find_event (evs : list dict) (event_id : string) (i : nat)
  : res (option (nat * dict)) :=
  match evs with
  | [] => Ok None
  | event :: rest =>
      res_bind (subscript event "id") (fun v =>
        match v with
        | VStr s =>
            if String.eqb s event_id then Ok (Some (i, event))
            else find_event rest event_id (S i)
        | _ => find_event rest event_id (S i)
        end)
  end.

(** Writing into the dict that stands at index [i] of the list. *)
Fixpoint list_set {A} (l : list A) (i : nat) (x : A) : list A :=
  match l, i with
  | [], _ => []
  | _ :: r, O => x :: r
  | y :: r, S i' => y :: list_set r i' x
  end.

(** [l.pop(i)], the list that remains. *)
Fixpoint pop {A} (l : list A) (i : nat) : list A :=
  match l, i with
  | [], _ => []
  | _ :: r, O => r
  | y :: r, S i' => y :: pop r i'
  end.

(** [if k in data: event[k] = data[k].strip()] *)
Definition assign_stripped (data : dict) (k : string) (event : dict)
  : res dict :=
  if dict_mem data k
  then res_bind (stripped data k) (fun s => Ok (dict_set event k (VStr s)))
  else Ok event.

(** [if parsed: event[k] = parsed]; a datetime is always true. *)
Definition assign_parsed (parsed : option datetime) (k : string) (event : dict)
  : dict :=
  match parsed with
  | Some d => dict_set event k (VDatetime d)
  | None => event
  end.

(** [update_event] up to the comparison of the two times.
    [event_to_update] is the dict stored in [events], so every assignment
    to it is a write to the store; the comparison comes after these
    writes. *)
Definition update_in_memory (event_id : string) (data : value) : M dict :=
  if negb (truthy data) then raise (BadRequest "Request body must be JSON.")
  else
    match data with
    | VDict data =>
        let '(is_valid, errors, parsed_req_start_time, parsed_req_end_time) :=
          validate_event_data data true in
        if negb is_valid then raise (BadRequest (join ", " errors))
        else
          evs <- get_events ;;
          found <- lift (find_event evs event_id 0) ;;
          match found with
          | None =>
              raise (NotFound ("Event with ID '" ++ event_id ++ "' not found."))
          | Some (event_index, event_to_update) =>
              e1 <- lift (assign_stripped data "title" event_to_update) ;;
              set_events (list_set evs event_index e1) ;;;
              e2 <- lift (assign_stripped data "description" e1) ;;
              set_events (list_set evs event_index e2) ;;;
              let e3 := assign_parsed parsed_req_start_time "start_time" e2 in
              let e4 := assign_parsed parsed_req_end_time "end_time" e3 in
              set_events (list_set evs event_index e4) ;;;
              st <- lift (subscript e4 "start_time") ;;
              en <- lift (subscript e4 "end_time") ;;
              ge <- lift (value_ge st en) ;;
              if ge : bool
              then raise (BadRequest
                "Updated start time must be strictly before updated end time.")
              else ret e4
          end
    | _ => raise AttributeError
    end.

(** The [try] block of [update_event]. *)
Definition update_event_body (event_id : string) (io : disk) (data : value)
  : M response :=
  event_to_update <- update_in_memory event_id data ;;
  evs <- get_events ;;
  save_events io evs ;;;
  r <- lift (response_event event_to_update) ;;
  ret (mkResponse 200
         (VDict [("message", VStr "Event updated successfully");
                 ("event", VDict r)])).

Definition update_event (event_id : string) (io : disk) (data : value)
  : store -> response * store :=
  fun st =>
    match update_event_body event_id io data st with
    | (Ok r, st') => (r, st')
    | (Raise (BadRequest description), st') => (bad_request description, st')
    | (Raise (NotFound description), st') => (not_found description, st')
    | (Raise _, st') => (internal_server_error, st')
    end.

(** [delete_event] up to and including [events.pop(...)]. *)
Definition delete_in_memory (event_id : string) : M dict :=
  evs <- get_events ;;
  found <- lift (find_event evs event_id 0) ;;
  match found with
  | None => raise (NotFound ("Event with ID '" ++ event_id ++ "' not found."))
  | Some (event_index_to_delete, deleted_event) =>
      set_events (pop evs event_index_to_delete) ;;;
      ret deleted_event
  end.

(** The [try] block of [delete_event]. *)
Definition delete_event_body (event_id : string) (io : disk) : M response :=
  deleted_event <- delete_in_memory event_id ;;
  evs <- get_events ;;
  save_events io evs ;;;
  title <- lift (subscript deleted_event "title") ;;
  ret (mkResponse 200
         (VDict [("message",
                  VStr ("Event '" ++ format_value title ++ "' with ID '"
                        ++ event_id ++ "' deleted successfully"))])).

Definition delete_event (event_id : string) (io : disk)
  : store -> response * store :=
  fun st =>
    match delete_event_body event_id io st with
    | (Ok r, st') => (r, st')
    | (Raise (NotFound description), st') => (not_found description, st')
    | (Raise _, st') => (internal_server_error, st')
    end.

(** ** Vocabulary of the properties *)

(** The components of the tuple [validate_event_data] returns. *)
(** The tuple [validate_event_data] returns. *)
Definition validation : Type :=
  (bool * list string * option datetime * option datetime)%type.

Definition is_valid_of (r : validation) : bool :=
  let '(v, _, _, _) := r in v.

Definition errors_of (r : validation) : list string :=
  let '(_, e, _, _) := r in e.

Definition parsed_of (field : string) (r : validation) : option datetime :=
  let '(_, _, s, e) := r in if String.eqb field "start_time" then s else e.

Definition start_datetime (e : dict) : option datetime :=
  match dict_get e "start_time" with
  | Some (VDatetime d) => Some d
  | _ => None
  end.

Definition end_datetime (e : dict) : option datetime :=
  match dict_get e "end_time" with
  | Some (VDatetime d) => Some d
  | _ => None
  end.

(** The ordering invariant of one event: [start_time < end_time]. *)
Definition event_ordered (e : dict) : bool :=
  match dict_get e "start_time", dict_get e "end_time" with
  | Some s, Some en =>
      match value_lt s en with Ok b => b | Raise _ => false end
  | _, _ => false
  end.

(** The stores that requests can produce from an empty collection. *)
Inductive reachable : store -> Prop :=
| reach_empty : forall f, reachable (mkStore [] f)
| reach_create : forall st uuid io data,
    reachable st -> reachable (snd (create_event uuid io data st))
| reach_list : forall st,
    reachable st -> reachable (snd (list_events st))
| reach_update : forall st event_id io data,
    reachable st -> reachable (snd (update_event event_id io data st))
| reach_delete : forall st event_id io,
    reachable st -> reachable (snd (delete_event event_id io st)).

(** [save_events io evs] raises. *)
Definition save_fails (io : disk) (evs : list dict) : bool :=
  match io with
  | DiskFails _ => true
  | DiskOk =>
      negb (forallb (fun e => json_serializable (VDict e))
                    (map serializable_event evs))
  end.

(** A well-formed event: a dict with distinct keys whose [id], [title] and
    [description] are strings, whose [start_time] and [end_time] are
    datetimes, and whose other entries, if any, are JSON data. *)
Definition is_str (o : option value) : Prop := exists s, o = Some (VStr s).

Definition well_formed_event (e : dict) : Prop :=
  NoDup (map fst e)
  /\ is_str (dict_get e "id")
  /\ is_str (dict_get e "title")
  /\ is_str (dict_get e "description")
  /\ (exists a b,
        dict_get e "start_time" = Some (VDatetime a)
        /\ dict_get e "end_time" = Some (VDatetime b)
        /\ valid_datetime a = true /\ valid_datetime b = true)
  /\ (forall k v, In (k, v) e -> k <> "start_time" -> k <> "end_time" ->
                  json_serializable v = true).

(** A message that speaks of the start time and of the end time. *)
Definition mentions_ordering (m : string) : bool :=
  contains "tart time" m && contains "end time" m.

(** Two events whose start times are ordered, and that have the same
    start time. *)
Definition start_le (e1 e2 : dict) : Prop :=
  match start_datetime e1, start_datetime e2 with
  | Some a, Some b =>
      match datetime_cmp a b with
      | Some Lt | Some Eq => True
      | _ => False
      end
  | _, _ => False
  end.

Definition same_start (e1 e2 : dict) : bool :=
  match start_datetime e1, start_datetime e2 with
  | Some a, Some b =>
      match datetime_cmp a b with Some Eq => true | _ => false end
  | _, _ => false
  end.

(** A collection that [list_events] can render: every event has two valid
    datetimes, and the start times are all naive or all aware. *)
Definition has_times (e : dict) : Prop :=
  exists a b, start_datetime e = Some a /\ end_datetime e = Some b
              /\ valid_datetime a = true.

Definition naive_start (e : dict) : Prop :=
  exists a, start_datetime e = Some a /\ tzinfo a = None.

Definition aware_start (e : dict) : Prop :=
  exists a off, start_datetime e = Some a /\ tzinfo a = Some off.

Definition listable (evs : list dict) : Prop :=
  Forall has_times evs /\ (Forall naive_start evs \/ Forall aware_start evs).

(** An update body with valid values: a title that is a string and not
    blank, a description that is a string, times that are strings
    [fromisoformat] accepts; every field may be missing. *)
Definition valid_title (d : dict) : bool :=
  match dict_get d "title" with
  | None => true
  | Some (VStr s) => negb (String.eqb (strip s) "")
  | Some _ => false
  end.

Definition valid_description (d : dict) : bool :=
  match dict_get d "description" with
  | None | Some (VStr _) => true
  | Some _ => false
  end.

Definition valid_time_text (d : dict) (k : string) : bool :=
  match dict_get d k with
  | None => true
  | Some (VStr s) =>
      match fromisoformat s with Some _ => true | None => false end
  | Some _ => false
  end.

Definition valid_update_body (d : dict) : bool :=
  valid_title d && valid_description d
  && valid_time_text d "start_time" && valid_time_text d "end_time".

(** The merge of a valid update body onto an event, as the specification
    words it: a supplied title or description replaces the old one after
    trimming, a supplied time replaces the old one after parsing, and
    everything else stays. *)
Definition merge_text (data : dict) (k : string) (event : dict) : dict :=
  match dict_get data k with
  | Some (VStr s) => dict_set event k (VStr (strip s))
  | _ => event
  end.

Definition merge_time (data : dict) (k : string) (event : dict) : dict :=
  match dict_get data k with
  | Some (VStr s) =>
      match fromisoformat s with
      | Some t => dict_set event k (VDatetime t)
      | None => event
      end
  | _ => event
  end.

Definition merged_event (data old : dict) : dict :=
  merge_time data "end_time"
    (merge_time data "start_time"
       (merge_text data "description" (merge_text data "title" old))).

(** A record of the file that has both time entries. *)
Definition has_time_keys (item : value) : Prop :=
  exists ev st en,
    item = VDict ev
    /\ dict_get ev "start_time" = Some st /\ dict_get ev "end_time" = Some en.

(** How a loaded record relates to the record of the file: the identifier
    is kept or generated, the other entries are kept, and the two times are
    parsed as far as parsing succeeds, the start time first. *)
Definition loaded_record (item loaded : value) : Prop :=
  exists ev ev' st en,
    item = VDict ev /\ loaded = VDict ev'
    /\ dict_get ev "start_time" = Some st /\ dict_get ev "end_time" = Some en
    /\ (forall k, k <> "id" -> k <> "start_time" -> k <> "end_time" ->
                  dict_get ev' k = dict_get ev k)
    /\ (if dict_mem ev "id" then dict_get ev' "id" = dict_get ev "id"
        else exists uuid, dict_get ev' "id" = Some (VStr uuid))
    /\ match parse_time_value st, parse_time_value en with
       | None, _ =>
           dict_get ev' "start_time" = Some st
           /\ dict_get ev' "end_time" = Some en
       | Some a, None =>
           dict_get ev' "start_time" = Some (VDatetime a)
           /\ dict_get ev' "end_time" = Some en
       | Some a, Some b =>
           dict_get ev' "start_time" = Some (VDatetime a)
           /\ dict_get ev' "end_time" = Some (VDatetime b)
       end.

(** The instant of a sort key, in microseconds. *)
Definition value_key (v : value) : Z :=
  match v with
  | VDatetime d => utc_micros d
  | _ => 0
  end.

(** Two keyed items that [<] orders by their instants; the order of the
    instants; a predicate that holds of items with one and the same
    instant only. *)
Definition ordered_by_key {A} (x y : value * A) : Prop :=
  value_lt (fst x) (fst y) = Ok (value_key (fst x) <? value_key (fst y)).

Definition key_le {A} (x y : value * A) : Prop :=
  value_key (fst x) <= value_key (fst y).

Definition one_key {A} (p : value * A -> bool) (l : list (value * A)) : Prop :=
  forall u v, In u l -> In v l -> p u = true -> p v = true ->
              value_key (fst u) = value_key (fst v).

(** ** Example data *)

Definition standup_body : value :=
  VDict [("title", VStr "Standup"); ("description", VStr "Daily sync");
         ("start_time", VStr "2024-01-01T09:00:00");
         ("end_time", VStr "2024-01-01T10:00:00")].

Definition nine : datetime := mkDatetime 2024 1 1 9 0 0 0 None.
Definition ten : datetime := mkDatetime 2024 1 1 10 0 0 0 None.

Definition standup (id : string) : dict :=
  new_event id "Standup" "Daily sync" (VDatetime nine) (VDatetime ten).

Definition empty_store : store := mkStore [] FAbsent.

(** The store after a successful [POST /events] of [standup_body]. *)
Definition standup_store : store :=
  snd (create_event "id-1" DiskOk standup_body empty_store).

(** The body of the scenario with the two times swapped, without and with
    a description. *)
Definition x_body : value :=
  VDict [("title", VStr "X");
         ("start_time", VStr "2024-01-01T10:00:00");
         ("end_time", VStr "2024-01-01T09:00:00")].

Definition x_body_described : value :=
  VDict [("title", VStr "X"); ("description", VStr "");
         ("start_time", VStr "2024-01-01T10:00:00");
         ("end_time", VStr "2024-01-01T09:00:00")].

(** A record of the file whose start time parses and whose end time does
    not. *)
Definition half_parsable_file : file_state :=
  FJson (VList [VDict [("id", VStr "e1"); ("title", VStr "Review");
                       ("start_time", VStr "2024-01-01T10:00:00");
                       ("end_time", VStr "soon")]]).

(** A second creation, with times that carry a UTC offset, and the store
    after both creations. *)
Definition offset_body : value :=
  VDict [("title", VStr "Call"); ("description", VStr "With offset");
         ("start_time", VStr "2024-01-01T09:00:00+00:00");
         ("end_time", VStr "2024-01-01T10:00:00+00:00")].

Definition mixed_store : store :=
  snd (create_event "id-2" DiskOk offset_body standup_store).

(** A collection in which the first and the last event start at the same
    time, and the second one earlier. *)
Definition eight : datetime := mkDatetime 2024 1 1 8 0 0 0 None.

Definition tie_store : store :=
  mkStore [new_event "a" "First" "" (VDatetime nine) (VDatetime ten);
           new_event "b" "Early" "" (VDatetime eight) (VDatetime nine);
           new_event "c" "Second" "" (VDatetime nine) (VDatetime ten)]
          FAbsent.

(** ** Vocabulary of the further properties *)

(** The identifier of an event, when it is a string. *)
Definition id_of (e : dict) : option string :=
  match dict_get e "id" with
  | Some (VStr s) => Some s
  | _ => None
  end.

(** No event of the collection has the identifier [event_id]; every event
    has an [id] entry. *)
Definition id_unused (event_id : string) (evs : list dict) : Prop :=
  Forall (fun e => dict_mem e "id" = true /\ id_of e <> Some event_id) evs.

(** A creation body with valid values: the four fields are present, the
    title is a string that is not blank, the description is a string, and
    the two times are strings that [fromisoformat] accepts. *)
Definition time_text (d : dict) (k : string) : option datetime :=
  match dict_get d k with
  | Some (VStr s) => fromisoformat s
  | _ => None
  end.

Definition text_of (d : dict) (k : string) : string :=
  match dict_get d k with
  | Some (VStr s) => s
  | _ => ""
  end.

Definition valid_create_body (d : dict) : bool :=
  match dict_get d "title", dict_get d "description" with
  | Some (VStr t), Some (VStr _) =>
      negb (String.eqb (strip t) "")
      && match time_text d "start_time", time_text d "end_time" with
         | Some _, Some _ => true
         | _, _ => false
         end
  | _, _ => false
  end.

(** The checks of [validate_event_data], one by one. *)
Definition all_present (d : dict) : bool :=
  forallb (dict_mem d) required_fields.

Definition time_accepted (d : dict) (k : string) : bool :=
  match dict_get d k with
  | None | Some VNone => true
  | Some (VStr s) =>
      match fromisoformat s with Some _ => true | None => false end
  | Some _ => false
  end.

Definition no_errors (l : list string) : bool :=
  match l with [] => true | _ => false end.

(** The shape of an event that the handlers build and maintain: the five
    entries in the order of [new_event], a string identifier, a trimmed
    title that is not empty, a trimmed description and two valid
    datetimes. *)
Definition typed_event (e : dict) : Prop :=
  map fst e = ["id"; "title"; "description"; "start_time"; "end_time"]
  /\ (exists i, dict_get e "id" = Some (VStr i))
  /\ (exists t, dict_get e "title" = Some (VStr t)
                /\ strip t = t /\ t <> "")
  /\ (exists s, dict_get e "description" = Some (VStr s) /\ strip s = s)
  /\ (exists a, dict_get e "start_time" = Some (VDatetime a)
                /\ valid_datetime a = true)
  /\ (exists b, dict_get e "end_time" = Some (VDatetime b)
                /\ valid_datetime b = true).

(** A record of the file on which the loop of [load_events] raises out of
    its inner [try]: an element that is not an object, an object without
    [start_time], or an object whose [start_time] parses and that has no
    [end_time]. *)
Definition unloadable (item : value) : Prop :=
  match item with
  | VDict ev =>
      match dict_get ev "start_time" with
      | None => True
      | Some st =>
          match parse_time_value st with
          | Some _ => dict_get ev "end_time" = None
          | None => False
          end
      end
  | _ => True
  end.

(** The [id] entry of a loaded record. *)
Definition value_id (v : value) : option value :=
  match v with
  | VDict e => dict_get e "id"
  | _ => None
  end.

(** A record of the file that has both times and no [id]. *)
Definition lacks_id (item : value) : Prop :=
  has_time_keys item
  /\ exists ev, item = VDict ev /\ dict_mem ev "id" = false.

(** The kinds of sort keys that [<] orders among themselves: naive
    datetimes, aware datetimes, strings, integers; 0 stands for the
    objects that [<] does not order. *)
Definition key_kind (v : value) : nat :=
  match v with
  | VDatetime d => match tzinfo d with None => 1 | Some _ => 2 end
  | VStr _ => 3
  | VInt _ | VBool _ => 4
  | _ => 0
  end.

(** * Properties *)

(** ** Rejected updates *)

(** C1: the event stored by [standup_store] runs from 09:00 to 10:00.  An
    update that supplies only the start time 11:00 is answered with 400 and
    the ordering message, yet the stored event now starts at 11:00: the
    assignment to the stored dict precedes the comparison, and nothing
    restores the old value. *)
Theorem rejected_update_is_written :
  events standup_store = [standup "id-1"]
  /\ let '(r, st') :=
       update_event "id-1" DiskOk
         (VDict [("start_time", VStr "2024-01-01T11:00:00")]) standup_store in
     r = bad_request
           "Updated start time must be strictly before updated end time."
     /\ events st'
        = [dict_set (standup "id-1") "start_time"
             (VDatetime (mkDatetime 2024 1 1 11 0 0 0 None))]
     /\ events st' <> events standup_store
     /\ events_file st' = events_file standup_store.
Proof.
  split; [reflexivity|].
  vm_compute. repeat split; congruence.
Qed.

(** C2: a store reached by one accepted creation and one rejected update
    holds an event whose start time is not before its end time, and
    [list_events] returns it. *)
Theorem reachable_store_breaks_ordering :
  let st := snd (update_event "id-1" DiskOk
                   (VDict [("end_time", VStr "2024-01-01T08:00:00")])
                   standup_store) in
  reachable st
  /\ (exists e, In e (events st) /\ event_ordered e = false)
  /\ fst (list_events st)
     = mkResponse 200
         (VDict [("events",
            VList [VDict [("id", VStr "id-1"); ("title", VStr "Standup");
                          ("description", VStr "Daily sync");
                          ("start_time", VStr "2024-01-01T09:00:00");
                          ("end_time", VStr "2024-01-01T08:00:00")]])]).
Proof.
  cbv zeta. split; [|split].
  - apply reach_update. unfold standup_store. apply reach_create.
    apply reach_empty.
  - eexists. split; [left; reflexivity|]. vm_compute. reflexivity.
  - vm_compute. reflexivity.
Qed.

(** ** Creation with a missing field *)

Lemma create_event_rejected_unfold uuid io data msg st :
  create_in_memory uuid data st = (Raise (BadRequest msg), st) ->
  create_event uuid io data st = (bad_request msg, st).
Proof.
  intros H. unfold create_event, create_event_body, bind. rewrite H.
  reflexivity.
Qed.

(** C3, as stated, fails: the message of the response to the body without
    a description does not speak of the two times. *)
Lemma x_body_message_not_about_ordering :
  ~ (let r := fst (create_event "u" DiskOk x_body empty_store) in
     status r = 400
     /\ exists m, message_of r = Some (VStr m) /\ mentions_ordering m = true).
Proof.
  cbv zeta. intros [_ [m [Hm Ho]]].
  vm_compute in Hm. injection Hm as <-. vm_compute in Ho. discriminate.
Qed.

(** C3, amended: whatever the store, the body without a description is
    answered with 400 and the message of the missing field, and the store
    is unchanged; with a description, the answer is 400 with the ordering
    message. *)
Theorem create_x_body_responses :
  forall uuid io st,
    create_event uuid io x_body st
    = (bad_request "Missing required field: 'description'", st)
    /\ create_event uuid io x_body_described st
       = (bad_request "Start time must be strictly before end time.", st)
    /\ mentions_ordering "Start time must be strictly before end time." = true.
Proof.
  intros uuid io st. split; [|split].
  - apply create_event_rejected_unfold. reflexivity.
  - apply create_event_rejected_unfold. reflexivity.
  - reflexivity.
Qed.

(** ** The validator *)

Lemma validate_event_data_eq data is_update :
  validate_event_data data is_update
  = let errs :=
      (((((if is_update then [] else missing_errors data)
          ++ title_errors data) ++ description_errors data)
        ++ fst (validate_time data "start_time"))
       ++ fst (validate_time data "end_time"))%list in
    (match errs with [] => true | _ => false end, errs,
     snd (validate_time data "start_time"),
     snd (validate_time data "end_time")).
Proof.
  unfold validate_event_data.
  destruct (validate_time data "start_time") as [se ps].
  destruct (validate_time data "end_time") as [ee pe]. reflexivity.
Qed.

Lemma validate_time_string data field s :
  dict_get data field = Some (VStr s) ->
  validate_time data field
  = match fromisoformat s with
    | Some d => ([], Some d)
    | None => ([invalid_format_error field], None)
    end.
Proof. intros H. unfold validate_time. rewrite H. reflexivity. Qed.

Lemma validate_time_absent data field :
  dict_get data field = None -> validate_time data field = ([], None).
Proof. intros H. unfold validate_time. rewrite H. reflexivity. Qed.

(** The messages a time block can add are the two messages of its field. *)
Lemma validate_time_errors data field e :
  In e (fst (validate_time data field)) ->
  e = invalid_format_error field \/ e = (field ++ " must be a string.").
Proof.
  unfold validate_time.
  destruct (dict_get data field) as [[| | |s| | |]|]; simpl;
    try (intros [<-|[]]; auto; fail); try (intros []; fail).
  destruct (fromisoformat s); simpl; [intros []|intros [<-|[]]; auto].
Qed.

Lemma missing_errors_shape data e :
  In e (missing_errors data) ->
  In e ["Missing required field: 'title'";
        "Missing required field: 'description'";
        "Missing required field: 'start_time'";
        "Missing required field: 'end_time'"].
Proof.
  unfold missing_errors, required_fields. simpl.
  repeat (match goal with |- context [dict_mem ?d ?k] =>
            destruct (dict_mem d k) end); simpl; tauto.
Qed.

Lemma title_errors_shape data e :
  In e (title_errors data) -> e = "Title must be a non-empty string.".
Proof.
  unfold title_errors.
  destruct (dict_get data "title") as [[| | |s| | |]|]; simpl;
    try tauto; try (intros [<-|[]]; reflexivity).
  destruct (String.eqb (strip s) ""); simpl;
    [intros [<-|[]]; reflexivity|tauto].
Qed.

Lemma description_errors_shape data e :
  In e (description_errors data) -> e = "Description must be a string.".
Proof.
  unfold description_errors.
  destruct (dict_get data "description") as [[| | |s| | |]|]; simpl;
    try tauto; try (intros [<-|[]]; reflexivity).
Qed.

(** A format error for [field] can only come from the block of [field]. *)
Lemma invalid_format_error_origin data is_update field :
  field = "start_time" \/ field = "end_time" ->
  In (invalid_format_error field)
     (errors_of (validate_event_data data is_update)) ->
  In (invalid_format_error field) (fst (validate_time data field)).
Proof.
  intros Hf. rewrite validate_event_data_eq. cbv zeta. unfold errors_of.
  rewrite !in_app_iff. intros [[[[H|H]|H]|H]|H].
  - destruct is_update; [destruct H|].
    apply missing_errors_shape in H.
    destruct Hf as [-> | ->]; vm_compute in H; intuition discriminate.
  - apply title_errors_shape in H.
    destruct Hf as [-> | ->]; vm_compute in H; discriminate.
  - apply description_errors_shape in H.
    destruct Hf as [-> | ->]; vm_compute in H; discriminate.
  - destruct Hf as [-> | ->]; [exact H|].
    apply validate_time_errors in H. vm_compute in H. intuition discriminate.
  - destruct Hf as [-> | ->]; [|exact H].
    apply validate_time_errors in H. vm_compute in H. intuition discriminate.
Qed.

Lemma invalid_format_error_reported data is_update field :
  field = "start_time" \/ field = "end_time" ->
  In (invalid_format_error field) (fst (validate_time data field)) ->
  In (invalid_format_error field)
     (errors_of (validate_event_data data is_update))
  /\ is_valid_of (validate_event_data data is_update) = false.
Proof.
  intros Hf H. rewrite validate_event_data_eq. cbv zeta.
  unfold errors_of, is_valid_of.
  match goal with
  | |- In _ ?l /\ _ => assert (Hin : In (invalid_format_error field) l)
  end.
  { rewrite !in_app_iff. destruct Hf as [-> | ->]; auto. }
  split; [exact Hin|].
  match type of Hin with In _ ?l => destruct l; [destruct Hin|reflexivity] end.
Qed.

Lemma parsed_of_validate data is_update field :
  field = "start_time" \/ field = "end_time" ->
  parsed_of field (validate_event_data data is_update)
  = snd (validate_time data field).
Proof.
  intros Hf. rewrite validate_event_data_eq. cbv zeta. unfold parsed_of.
  destruct Hf as [-> | ->]; reflexivity.
Qed.

(** ** Printing and parsing decimal fields *)

Lemma digit_char_spec d :
  0 <= d < 10 ->
  is_digit (digit_char d) = true /\ digit_val (digit_char d) = d.
Proof.
  intros H.
  assert (Hd : d = 0 \/ d = 1 \/ d = 2 \/ d = 3 \/ d = 4 \/ d = 5
               \/ d = 6 \/ d = 7 \/ d = 8 \/ d = 9) by lia.
  repeat (destruct Hd as [-> | Hd]; [split; reflexivity|]).
  subst d. split; reflexivity.
Qed.

Lemma parse_zero_pad n : forall k rest acc,
  0 <= k < 10 ^ Z.of_nat n ->
  parse_digits n (zero_pad n k ++ rest) acc
  = Some (acc * 10 ^ Z.of_nat n + k, rest).
Proof.
  induction n as [|n IH]; intros k rest acc Hk.
  - simpl in *. f_equal. f_equal. lia.
  - rewrite Nat2Z.inj_succ, Z.pow_succ_r in Hk by lia.
    assert (Hp : 0 < 10 ^ Z.of_nat n) by (apply Z.pow_pos_nonneg; lia).
    cbn [zero_pad parse_digits append].
    assert (Hq : 0 <= k / 10 ^ Z.of_nat n < 10).
    { split; [apply Z.div_pos; lia|]. apply Z.div_lt_upper_bound; lia. }
    destruct (digit_char_spec _ Hq) as [Hd Hv]. rewrite Hd, Hv.
    rewrite IH by (apply Z.mod_pos_bound; lia).
    f_equal. f_equal.
    rewrite Nat2Z.inj_succ, Z.pow_succ_r by lia.
    pose proof (Z.div_mod k (10 ^ Z.of_nat n) ltac:(lia)) as E.
    nia.
Qed.

Lemma parse_zero_pad2 k rest :
  0 <= k <= 99 -> parse_digits 2 (zero_pad 2 k ++ rest) 0 = Some (k, rest).
Proof. intros H. rewrite parse_zero_pad by (simpl; lia). reflexivity. Qed.

Lemma parse_zero_pad4 k rest :
  0 <= k <= 9999 -> parse_digits 4 (zero_pad 4 k ++ rest) 0 = Some (k, rest).
Proof. intros H. rewrite parse_zero_pad by (simpl; lia). reflexivity. Qed.

Lemma parse_zero_pad6 k rest :
  0 <= k <= 999999 ->
  parse_digits 6 (zero_pad 6 k ++ rest) 0 = Some (k, rest).
Proof. intros H. rewrite parse_zero_pad by (simpl; lia). reflexivity. Qed.

Lemma append_nil_r (s : string) : s ++ "" = s.
Proof. induction s; simpl; congruence. Qed.

Lemma append_assoc (a b c : string) : (a ++ b) ++ c = a ++ b ++ c.
Proof. induction a; simpl; congruence. Qed.

Lemma days_in_month_bound y m : 28 <= days_in_month y m <= 31.
Proof.
  unfold days_in_month.
  destruct (m =? 2); [destruct (is_leap y); lia|].
  destruct ((m =? 4) || (m =? 6) || (m =? 9) || (m =? 11)); lia.
Qed.

Lemma valid_datetime_bounds d :
  valid_datetime d = true ->
  1 <= year d <= 9999 /\ 1 <= month d <= 12
  /\ 1 <= day d <= days_in_month (year d) (month d)
  /\ 0 <= hour d <= 23 /\ 0 <= minute d <= 59 /\ 0 <= second d <= 59
  /\ 0 <= microsecond d <= 999999
  /\ valid_offset (tzinfo d) = true.
Proof.
  unfold valid_datetime, valid_date, valid_time.
  rewrite !andb_true_iff, !Z.leb_le. tauto.
Qed.

(** The date part of [isoformat] is read back by the date parser. *)
Lemma parse_isoformat_date_print y m d rest :
  0 <= y <= 9999 -> 0 <= m <= 99 -> 0 <= d <= 99 ->
  parse_isoformat_date
    (zero_pad 4 y ++ "-" ++ zero_pad 2 m ++ "-" ++ zero_pad 2 d ++ rest)
  = Some (y, m, d, rest).
Proof.
  intros Hy Hm Hd. unfold parse_isoformat_date.
  rewrite parse_zero_pad4 by lia. cbn [append expect Ascii.eqb Bool.eqb].
  rewrite parse_zero_pad2 by lia. cbn [append expect Ascii.eqb Bool.eqb].
  rewrite parse_zero_pad2 by lia. reflexivity.
Qed.

(** ** Printing and parsing offsets and times *)

Ltac div_mod_lia := Z.div_mod_to_equations; lia.

Lemma parse_tz_print a :
  0 <= a < us_per_day ->
  let us := a mod 1000000 in
  let secs := a / 1000000 in
  let hh := secs / 3600 in
  let mm := (secs mod 3600) / 60 in
  let ss := secs mod 60 in
  exists th tmi tsec tus,
    parse_tz (zero_pad 2 hh ++ ":" ++ zero_pad 2 mm ++
              (if (ss =? 0) && (us =? 0) then ""
               else ":" ++ zero_pad 2 ss ++
                    (if us =? 0 then "" else "." ++ zero_pad 6 us)))
    = Some (th, tmi, tsec, tus)
    /\ offset_us 1 th tmi tsec tus = a.
Proof.
  unfold us_per_day. intros Ha. cbv zeta.
  set (us := a mod 1000000). set (secs := a / 1000000).
  set (hh := secs / 3600). set (mm := (secs mod 3600) / 60).
  set (ss := secs mod 60).
  assert (Hus : 0 <= us <= 999999) by (subst us; div_mod_lia).
  assert (Hsecs : 0 <= secs < 86400) by (subst secs; div_mod_lia).
  assert (Hhh : 0 <= hh <= 99) by (subst hh; div_mod_lia).
  assert (Hmm : 0 <= mm <= 99) by (subst mm; div_mod_lia).
  assert (Hss : 0 <= ss <= 99) by (subst ss; div_mod_lia).
  assert (Hsum : ((hh * 3600 + mm * 60 + ss) * 1000000) + us = a)
    by (subst hh mm ss us secs; div_mod_lia).
  exists hh, mm, ss, us. split; [|unfold offset_us; lia].
  unfold parse_tz.
  rewrite parse_zero_pad2 by lia. cbn [append].
  rewrite parse_zero_pad2 by lia.
  destruct (ss =? 0) eqn:Es; destruct (us =? 0) eqn:Eu; cbn [andb append].
  - apply Z.eqb_eq in Es, Eu. rewrite Es, Eu. reflexivity.
  - rewrite parse_zero_pad2 by lia. cbn [append].
    rewrite <- (append_nil_r (zero_pad 6 us)).
    rewrite parse_zero_pad6 by lia. reflexivity.
  - rewrite parse_zero_pad2 by lia. apply Z.eqb_eq in Eu. rewrite Eu.
    reflexivity.
  - rewrite parse_zero_pad2 by lia. cbn [append].
    rewrite <- (append_nil_r (zero_pad 6 us)).
    rewrite parse_zero_pad6 by lia. reflexivity.
Qed.

(** What [format_offset] prints: nothing for a naive datetime, otherwise a
    sign followed by an offset that [parse_tz] reads back. *)
Lemma format_offset_print tz :
  valid_offset tz = true ->
  match tz with
  | None => format_offset tz = ""
  | Some off =>
      exists c body th tmi tsec tus,
        format_offset tz = String c body
        /\ ((c = "+"%char /\ offset_us 1 th tmi tsec tus = off)
            \/ (c = "-"%char /\ offset_us (-1) th tmi tsec tus = off))
        /\ parse_tz body = Some (th, tmi, tsec, tus)
  end.
Proof.
  destruct tz as [off|]; [|reflexivity].
  unfold valid_offset. rewrite andb_true_iff, !Z.ltb_lt. intros H.
  assert (Ha : 0 <= Z.abs off < us_per_day) by lia.
  destruct (parse_tz_print _ Ha) as (th & tmi & tsec & tus & Hp & Ho).
  cbv zeta in Hp. unfold format_offset.
  destruct (off <? 0) eqn:Eo.
  - apply Z.ltb_lt in Eo.
    exists "-"%char. eexists. exists th, tmi, tsec, tus.
    split; [reflexivity|]. split; [|exact Hp].
    right. split; [reflexivity|]. unfold offset_us in *. lia.
  - apply Z.ltb_ge in Eo.
    exists "+"%char. eexists. exists th, tmi, tsec, tus.
    split; [reflexivity|]. split; [|exact Hp].
    left. split; [reflexivity|]. unfold offset_us in *. lia.
Qed.

Lemma parse_isoformat_time_print h mi s us tz :
  0 <= h <= 99 -> 0 <= mi <= 99 -> 0 <= s <= 99 -> 0 <= us <= 999999 ->
  valid_offset tz = true ->
  parse_isoformat_time
    (zero_pad 2 h ++ ":" ++ zero_pad 2 mi ++ ":" ++ zero_pad 2 s ++
     (if us =? 0 then "" else "." ++ zero_pad 6 us) ++ format_offset tz)
  = Some (h, mi, s, us, tz).
Proof.
  intros Hh Hmi Hs Hus Htz.
  assert (Hhms : parse_hh_mm_ss_ff
            (zero_pad 2 h ++ ":" ++ zero_pad 2 mi ++ ":" ++ zero_pad 2 s ++
             (if us =? 0 then "" else "." ++ zero_pad 6 us) ++ format_offset tz)
          = Some (h, mi, s, us, format_offset tz)).
  { unfold parse_hh_mm_ss_ff.
    rewrite parse_zero_pad2 by lia. cbn [append].
    rewrite parse_zero_pad2 by lia. cbn [append].
    rewrite parse_zero_pad2 by lia.
    destruct (us =? 0) eqn:Eu.
    - apply Z.eqb_eq in Eu. subst us. cbn [append].
      pose proof (format_offset_print tz Htz) as Hf.
      destruct tz as [off|].
      + destruct Hf as (c & body & th & tmi & tsec & tus & -> & Hc & _).
        destruct Hc as [[-> _]|[-> _]]; reflexivity.
      + rewrite Hf. reflexivity.
    - cbn [append]. unfold parse_fraction.
      rewrite parse_zero_pad6 by lia. reflexivity. }
  unfold parse_isoformat_time. rewrite Hhms.
  pose proof (format_offset_print tz Htz) as Hf.
  destruct tz as [off|].
  - destruct Hf as (c & body & th & tmi & tsec & tus & -> & Hc & Hp).
    rewrite Hp.
    destruct Hc as [[-> Ho]|[-> Ho]]; cbn -[offset_us]; rewrite Ho; reflexivity.
  - rewrite Hf. reflexivity.
Qed.

(** [fromisoformat] inverts [isoformat] on every datetime. *)
Lemma fromisoformat_isoformat d :
  valid_datetime d = true -> fromisoformat (isoformat d) = Some d.
Proof.
  intros Hv. pose proof (valid_datetime_bounds d Hv) as
    (Hy & Hm & Hd & Hh & Hmi & Hs & Hus & Htz).
  pose proof (days_in_month_bound (year d) (month d)) as Hdim.
  unfold fromisoformat, isoformat, isoformat_sep.
  rewrite parse_isoformat_date_print by lia.
  match goal with |- context [ "T" ++ ?t ] => set (tstr := t) end.
  cbn [append]. subst tstr.
  rewrite parse_isoformat_time_print by (auto; lia).
  unfold new_datetime. destruct d; cbn in *. rewrite Hv. reflexivity.
Qed.

(** A date alone is a complete input of [fromisoformat]. *)
Lemma fromisoformat_date_only y m d :
  valid_date y m d = true ->
  fromisoformat (zero_pad 4 y ++ "-" ++ zero_pad 2 m ++ "-" ++ zero_pad 2 d)
  = Some (mkDatetime y m d 0 0 0 0 None).
Proof.
  intros Hv. pose proof Hv as Hb. unfold valid_date in Hb.
  rewrite !andb_true_iff, !Z.leb_le in Hb.
  pose proof (days_in_month_bound y m) as Hdim.
  unfold fromisoformat.
  rewrite <- (append_nil_r (zero_pad 2 d)).
  rewrite parse_isoformat_date_print by lia.
  unfold new_datetime, valid_datetime. cbn. rewrite Hv. reflexivity.
Qed.

(** ** Time fields in the validator *)

(** C4, as stated, fails: the date-only string is parsed (to midnight) and
    validation reports no error. *)
Lemma date_only_string_is_accepted :
  fromisoformat "2024-01-01" = Some (mkDatetime 2024 1 1 0 0 0 0 None)
  /\ validate_event_data [("start_time", VStr "2024-01-01")] true
     = (true, [], Some (mkDatetime 2024 1 1 0 0 0 0 None), None)
  /\ ~ (exists e,
          In e (errors_of (validate_event_data
                             [("start_time", VStr "2024-01-01")] true))).
Proof.
  split; [reflexivity|]. split; [reflexivity|].
  intros [e He]. vm_compute in He. exact He.
Qed.

(** C4, amended: a supplied time string that [fromisoformat] rejects makes
    validation fail with a message that names its field, and leaves the
    parsed value of the field [None]; a string that [fromisoformat] accepts
    gives its datetime and no format error for the field.  [fromisoformat]
    accepts every output of [isoformat], and a date alone as well. *)
Theorem time_field_parse_outcome :
  forall data is_update field s,
    field = "start_time" \/ field = "end_time" ->
    dict_get data field = Some (VStr s) ->
    let r := validate_event_data data is_update in
    (fromisoformat s = None ->
       In (invalid_format_error field) (errors_of r)
       /\ contains field (invalid_format_error field) = true
       /\ is_valid_of r = false
       /\ parsed_of field r = None)
    /\ (forall d, fromisoformat s = Some d ->
          parsed_of field r = Some d
          /\ ~ In (invalid_format_error field) (errors_of r))
    /\ (forall d, valid_datetime d = true ->
          fromisoformat (isoformat d) = Some d)
    /\ (forall y m d, valid_date y m d = true ->
          fromisoformat
            (zero_pad 4 y ++ "-" ++ zero_pad 2 m ++ "-" ++ zero_pad 2 d)
          = Some (mkDatetime y m d 0 0 0 0 None)).
Proof.
  intros data is_update field s Hf Hget r. subst r.
  pose proof (validate_time_string data field s Hget) as Hvt.
  repeat split.
  - apply invalid_format_error_reported; [exact Hf|].
    rewrite Hvt, H. left. reflexivity.
  - destruct Hf as [-> | ->]; reflexivity.
  - apply (invalid_format_error_reported data is_update field Hf).
    rewrite Hvt, H. left. reflexivity.
  - rewrite parsed_of_validate by exact Hf. rewrite Hvt, H. reflexivity.
  - rewrite parsed_of_validate by exact Hf. rewrite Hvt, H. reflexivity.
  - intros Hin. apply invalid_format_error_origin in Hin; [|exact Hf].
    rewrite Hvt, H in Hin. destruct Hin.
  - apply fromisoformat_isoformat.
  - apply fromisoformat_date_only.
Qed.

Lemma time_field_parse_outcome_witness :
  In (invalid_format_error "end_time")
     (errors_of (validate_event_data
                   [("title", VStr "X"); ("end_time", VStr "tomorrow")] true)).
Proof.
  apply (time_field_parse_outcome
           [("title", VStr "X"); ("end_time", VStr "tomorrow")] true
           "end_time" "tomorrow");
    [right; reflexivity | reflexivity | reflexivity].
Defined.

(** C5, as stated, fails: the parsed value returned for a start time that
    fails to parse is the one returned when no start time is supplied. *)
Lemma failed_parse_value_not_distinct :
  ~ (parsed_of "start_time"
       (validate_event_data [("start_time", VStr "garbage")] true)
     <> parsed_of "start_time" (validate_event_data [] true)).
Proof. intros H. apply H. reflexivity. Qed.

(** C5, amended: a supplied time string that fails to parse leaves the
    parsed value of its field [None], the same value as for a field that is
    not supplied; the two cases differ in the error list only, which holds
    the format error of the field in the first case and not in the
    second. *)
Theorem parse_failure_and_absence_share_none :
  forall data data' is_update field s,
    field = "start_time" \/ field = "end_time" ->
    dict_get data field = Some (VStr s) ->
    fromisoformat s = None ->
    dict_get data' field = None ->
    parsed_of field (validate_event_data data is_update) = None
    /\ parsed_of field (validate_event_data data' is_update) = None
    /\ In (invalid_format_error field)
          (errors_of (validate_event_data data is_update))
    /\ is_valid_of (validate_event_data data is_update) = false
    /\ ~ In (invalid_format_error field)
            (errors_of (validate_event_data data' is_update)).
Proof.
  intros data data' is_update field s Hf Hget Hfail Habs.
  pose proof (validate_time_string data field s Hget) as Hvt.
  rewrite Hfail in Hvt.
  pose proof (validate_time_absent data' field Habs) as Hvt'.
  rewrite !parsed_of_validate by exact Hf. rewrite Hvt, Hvt'.
  split; [reflexivity|]. split; [reflexivity|].
  assert (Hin : In (invalid_format_error field)
                   (fst (validate_time data field)))
    by (rewrite Hvt; left; reflexivity).
  destruct (invalid_format_error_reported data is_update field Hf Hin)
    as [H1 H2].
  split; [exact H1|]. split; [exact H2|].
  intros H. apply invalid_format_error_origin in H; [|exact Hf].
  rewrite Hvt' in H. destruct H.
Qed.

Lemma parse_failure_and_absence_share_none_witness :
  parsed_of "start_time"
    (validate_event_data [("start_time", VStr "garbage")] true) = None
  /\ parsed_of "start_time" (validate_event_data [] true) = None.
Proof.
  pose proof (parse_failure_and_absence_share_none
                [("start_time", VStr "garbage")] [] true "start_time"
                "garbage" (or_introl eq_refl) eq_refl eq_refl eq_refl)
    as (H1 & H2 & _).
  split; [exact H1 | exact H2].
Defined.

(** ** Dictionaries *)

Lemma dict_get_set_same (d : dict) k v : dict_get (dict_set d k v) k = Some v.
Proof.
  induction d as [|[k' v'] d IH]; simpl.
  - rewrite String.eqb_refl. reflexivity.
  - destruct (String.eqb k' k) eqn:E; simpl; rewrite E; auto.
Qed.

Lemma dict_get_set_other (d : dict) k k' v :
  k <> k' -> dict_get (dict_set d k v) k' = dict_get d k'.
Proof.
  intros Hne. induction d as [|[k0 v0] d IH]; simpl.
  - destruct (String.eqb k k') eqn:E; [apply String.eqb_eq in E; tauto|].
    reflexivity.
  - destruct (String.eqb k0 k) eqn:E; simpl.
    + apply String.eqb_eq in E. subst k0.
      destruct (String.eqb k k') eqn:E'; [apply String.eqb_eq in E'; tauto|].
      reflexivity.
    + rewrite IH. reflexivity.
Qed.

Lemma dict_set_unchanged (d : dict) k v :
  dict_get d k = Some v -> dict_set d k v = d.
Proof.
  induction d as [|[k0 v0] d IH]; simpl; [discriminate|].
  destruct (String.eqb k0 k) eqn:E.
  - intros [= ->]. reflexivity.
  - intros H. rewrite IH by exact H. reflexivity.
Qed.

Lemma dict_set_twice (d : dict) k v v' :
  dict_set (dict_set d k v) k v' = dict_set d k v'.
Proof.
  induction d as [|[k0 v0] d IH]; simpl.
  - rewrite String.eqb_refl. reflexivity.
  - destruct (String.eqb k0 k) eqn:E; simpl; rewrite E; congruence.
Qed.

Lemma dict_set_comm (d : dict) k v k' v' :
  k <> k' -> dict_mem d k = true ->
  dict_set (dict_set d k v) k' v' = dict_set (dict_set d k' v') k v.
Proof.
  intros Hne. unfold dict_mem.
  induction d as [|[k0 v0] d IH]; simpl; [discriminate|].
  destruct (String.eqb k0 k) eqn:E.
  - intros _. apply String.eqb_eq in E. subst k0.
    destruct (String.eqb k k') eqn:E'; [apply String.eqb_eq in E'; tauto|].
    simpl. rewrite E', String.eqb_refl. reflexivity.
  - intros H. destruct (String.eqb k0 k') eqn:E'; simpl; rewrite E, ?E'.
    + reflexivity.
    + rewrite IH by exact H. reflexivity.
Qed.

Lemma dict_mem_get (d : dict) k v :
  dict_get d k = Some v -> dict_mem d k = true.
Proof. unfold dict_mem. intros ->. reflexivity. Qed.

Lemma dict_set_keys (d : dict) k v :
  dict_mem d k = true -> map fst (dict_set d k v) = map fst d.
Proof.
  unfold dict_mem. induction d as [|[k0 v0] d IH]; simpl; [discriminate|].
  destruct (String.eqb k0 k) eqn:E; simpl; [reflexivity|].
  intros H. rewrite IH by exact H. reflexivity.
Qed.

(** In a dict with distinct keys, an assignment replaces the entry of its
    key and touches no other. *)
Lemma in_dict_set (d : dict) k0 v0 k v :
  NoDup (map fst d) ->
  In (k, v) (dict_set d k0 v0) ->
  (k = k0 /\ v = v0) \/ (In (k, v) d /\ k <> k0).
Proof.
  induction d as [|[k1 v1] d IH]; simpl; intros Hnd.
  - intros [[= <- <-]|[]]. auto.
  - inversion Hnd as [|? ? Hnotin Hnd']; subst.
    destruct (String.eqb k1 k0) eqn:E.
    + apply String.eqb_eq in E. subst k1.
      intros [[= <- <-]|Hin]; [auto|].
      right. split; [auto|]. intros ->. apply Hnotin.
      apply (in_map fst) in Hin. exact Hin.
    + apply String.eqb_neq in E.
      intros [[= <- <-]|Hin]; [right; split; auto|].
      destruct (IH Hnd' Hin) as [?|[? ?]]; auto.
Qed.

(** ** Saving and loading *)

Lemma start_end_neq : "start_time" <> "end_time".
Proof. discriminate. Qed.

Lemma end_start_neq : "end_time" <> "start_time".
Proof. discriminate. Qed.

Lemma serializable_event_times (e : dict) a b :
  dict_get e "start_time" = Some (VDatetime a) ->
  dict_get e "end_time" = Some (VDatetime b) ->
  serializable_event e
  = dict_set (dict_set e "start_time" (VStr (isoformat a)))
             "end_time" (VStr (isoformat b)).
Proof.
  intros Ha Hb. unfold serializable_event, isoformat_field.
  rewrite Ha. rewrite (dict_get_set_other _ _ _ _ start_end_neq), Hb.
  reflexivity.
Qed.

(** Writing the two datetimes back over their [isoformat] strings restores
    the event. *)
Lemma restore_times (e : dict) a b sa sb :
  dict_get e "start_time" = Some (VDatetime a) ->
  dict_get e "end_time" = Some (VDatetime b) ->
  dict_set (dict_set (dict_set (dict_set e "start_time" sa) "end_time" sb)
                     "start_time" (VDatetime a))
           "end_time" (VDatetime b)
  = e.
Proof.
  intros Ha Hb.
  rewrite (dict_set_comm (dict_set e "start_time" sa) "end_time" sb
             "start_time" (VDatetime a) end_start_neq).
  - rewrite dict_set_twice, dict_set_twice.
    rewrite (dict_set_unchanged e "start_time" _ Ha).
    apply dict_set_unchanged. exact Hb.
  - apply (dict_mem_get _ _ (VDatetime b)).
    rewrite (dict_get_set_other _ _ _ _ start_end_neq). exact Hb.
Qed.

Lemma load_event_saved uuid (e : dict) :
  well_formed_event e -> load_event uuid (serializable_event e) = Ok e.
Proof.
  intros (_ & [i Hid] & _ & _ & (a & b & Ha & Hb & Hva & Hvb) & _).
  rewrite (serializable_event_times e a b Ha Hb).
  set (e1 := dict_set e "start_time" (VStr (isoformat a))).
  set (e2 := dict_set e1 "end_time" (VStr (isoformat b))).
  assert (Hid2 : dict_get e2 "id" = Some (VStr i)).
  { subst e2 e1. rewrite !dict_get_set_other by discriminate. exact Hid. }
  assert (Hs2 : dict_get e2 "start_time" = Some (VStr (isoformat a))).
  { subst e2 e1. rewrite dict_get_set_other by discriminate.
    apply dict_get_set_same. }
  unfold load_event. rewrite (dict_mem_get _ _ _ Hid2).
  unfold subscript at 1. rewrite Hs2. cbn [res_bind parse_time_value].
  rewrite (fromisoformat_isoformat a Hva).
  unfold subscript. rewrite (dict_get_set_other _ _ _ _ start_end_neq).
  subst e2. rewrite dict_get_set_same. cbn [res_bind parse_time_value].
  rewrite (fromisoformat_isoformat b Hvb).
  subst e1. rewrite (restore_times e a b _ _ Ha Hb). reflexivity.
Qed.

Lemma serializable_event_mem_id (e : dict) :
  well_formed_event e -> dict_mem (serializable_event e) "id" = true.
Proof.
  intros (_ & [i Hid] & _ & _ & (a & b & Ha & Hb & _) & _).
  rewrite (serializable_event_times e a b Ha Hb).
  apply (dict_mem_get _ _ (VStr i)).
  rewrite !dict_get_set_other by discriminate. exact Hid.
Qed.

Lemma serializable_event_json (e : dict) :
  well_formed_event e ->
  json_serializable (VDict (serializable_event e)) = true.
Proof.
  intros (Hnd & _ & _ & _ & (a & b & Ha & Hb & _) & Hother).
  rewrite (serializable_event_times e a b Ha Hb).
  cbn [json_serializable]. apply forallb_forall. intros [k v] Hin.
  cbn [snd].
  apply in_dict_set in Hin.
  - destruct Hin as [[_ ->]|[Hin Hk]]; [reflexivity|].
    apply in_dict_set in Hin; [|exact Hnd].
    destruct Hin as [[_ ->]|[Hin Hk']]; [reflexivity|].
    apply (Hother k v Hin Hk' Hk).
  - rewrite dict_set_keys; [exact Hnd|].
    apply (dict_mem_get _ _ _ Ha).
Qed.

Lemma load_items_saved uuid4 (C : list dict) :
  Forall well_formed_event C ->
  forall n,
    load_items uuid4 n (map VDict (map serializable_event C))
    = Ok (map VDict C).
Proof.
  induction 1 as [|e C He HC IH]; intros n; [reflexivity|].
  cbn [map load_items]. rewrite (load_event_saved _ e He).
  cbn [res_bind]. rewrite (serializable_event_mem_id e He).
  rewrite IH. reflexivity.
Qed.

Lemma saved_events_serializable (C : list dict) :
  Forall well_formed_event C ->
  forallb (fun e => json_serializable (VDict e)) (map serializable_event C)
  = true.
Proof.
  induction 1 as [|e C He HC IH]; [reflexivity|].
  cbn [map forallb]. rewrite (serializable_event_json e He), IH. reflexivity.
Qed.

Lemma standup_well_formed id : well_formed_event (standup id).
Proof.
  unfold well_formed_event, standup, new_event. repeat split.
  - cbn [map fst].
    repeat (constructor; [cbn [In]; intuition discriminate|]). constructor.
  - exists id. reflexivity.
  - exists "Standup". reflexivity.
  - exists "Daily sync". reflexivity.
  - exists nine, ten. repeat split; reflexivity.
  - intros k v Hin Hs He. cbn [In] in Hin.
    destruct Hin
      as [[= <- <-]|[[= <- <-]|[[= <- <-]|[[= <- <-]|[[= <- <-]|[]]]]]];
      try reflexivity; congruence.
Defined.

(** C8: saving a collection of well-formed events and loading the file
    again gives back the collection: the same events in the same order,
    each with the same id, title, description and the same two
    datetimes. *)
Theorem load_after_save :
  forall (C : list dict) (uuid4 : nat -> string) (st : store),
    Forall well_formed_event C ->
    fst (save_events DiskOk C st) = Ok tt
    /\ events (snd (save_events DiskOk C st)) = events st
    /\ load_events uuid4 (events_file (snd (save_events DiskOk C st)))
       = VList (map VDict C).
Proof.
  intros C uuid4 st HC. unfold save_events.
  rewrite (saved_events_serializable C HC).
  cbn [set_file fst snd events events_file].
  repeat split. unfold load_events.
  rewrite (load_items_saved uuid4 C HC). reflexivity.
Qed.

Lemma load_after_save_witness :
  load_events (fun _ => "fresh")
    (events_file (snd (save_events DiskOk [standup "id-1"] empty_store)))
  = VList [VDict (standup "id-1")].
Proof.
  refine (proj2 (proj2 (load_after_save [standup "id-1"] (fun _ => "fresh")
                          empty_store _))).
  constructor; [apply standup_well_formed|constructor].
Defined.

(** ** Persistence failures *)

Lemma save_events_fails io evs st :
  save_fails io evs = true ->
  exists msg f,
    save_events io evs st
    = (Raise (InternalServerError msg), mkStore (events st) f).
Proof.
  unfold save_fails, save_events. destruct io as [|leftover].
  - intros H. apply negb_true_iff in H. rewrite H.
    do 2 eexists. reflexivity.
  - intros _. do 2 eexists. reflexivity.
Qed.

Ltac step_res :=
  match goal with
  | H : context [match ?x with Ok _ => _ | Raise _ => _ end] |- _ =>
      destruct x eqn:?; cbn in H; try discriminate
  | H : context [if ?b then _ else _] |- _ =>
      destruct b eqn:?; cbn in H; try discriminate
  end.

Lemma create_in_memory_ok uuid data st ev st1 :
  create_in_memory uuid data st = (Ok ev, st1) ->
  st1 = mkStore (events st ++ [ev]) (events_file st).
Proof.
  unfold create_in_memory. destruct (truthy data); cbn; [|discriminate].
  destruct data as [| | | | | |d]; try discriminate.
  destruct (validate_event_data d false) as [[[v errs] ps] pe].
  destruct v; cbn; [|discriminate].
  unfold bind, lift, raise, ret, get_events, set_events.
  intros H. repeat step_res. cbn in H. injection H as <- <-. reflexivity.
Qed.

Lemma update_in_memory_ok event_id data st ev st1 :
  update_in_memory event_id data st = (Ok ev, st1) ->
  exists i old,
    find_event (events st) event_id 0 = Ok (Some (i, old))
    /\ st1 = mkStore (list_set (events st) i ev) (events_file st)
    /\ event_ordered ev = true.
Proof.
  unfold update_in_memory. destruct (truthy data); cbn; [|discriminate].
  destruct data as [| | | | | |d]; try discriminate.
  destruct (validate_event_data d true) as [[[v errs] ps] pe].
  destruct v; cbn; [|discriminate].
  unfold bind, lift, raise, ret, get_events, set_events.
  destruct (find_event (events st) event_id 0) as [[[i old]|]|] eqn:Hf;
    cbn; try discriminate.
  intros H. exists i, old. split; [reflexivity|].
  destruct (assign_stripped d "title" old) as [e1|] eqn:H1; cbn in H;
    [|discriminate].
  destruct (assign_stripped d "description" e1) as [e2|] eqn:H2; cbn in H;
    [|discriminate].
  set (e4 := assign_parsed pe "end_time" (assign_parsed ps "start_time" e2))
    in *.
  unfold subscript in H.
  destruct (dict_get e4 "start_time") as [s|] eqn:Hs; cbn in H; [|discriminate].
  destruct (dict_get e4 "end_time") as [en|] eqn:He; cbn in H; [|discriminate].
  destruct (value_ge s en) as [ge|] eqn:Hge; cbn in H; [|discriminate].
  destruct ge; cbn in H; [discriminate|].
  injection H as <- <-. split; [reflexivity|].
  unfold event_ordered. rewrite Hs, He.
  unfold value_ge, value_lt in *.
  destruct (value_cmp s en) as [c|]; cbn in *; [|discriminate].
  destruct c; cbn in *; congruence.
Qed.

Lemma delete_in_memory_ok event_id st ev st1 :
  delete_in_memory event_id st = (Ok ev, st1) ->
  exists i,
    find_event (events st) event_id 0 = Ok (Some (i, ev))
    /\ st1 = mkStore (pop (events st) i) (events_file st).
Proof.
  unfold delete_in_memory, bind, lift, raise, ret, get_events, set_events.
  destruct (find_event (events st) event_id 0) as [[[i old]|]|] eqn:Hf;
    cbn; try discriminate.
  intros [= <- <-]. exists i. split; reflexivity.
Qed.

(** C9: when a handler has made its change to the in-memory collection
    and the save that follows raises (the write fails, or an event cannot
    be serialized), the response is the generic 500 answer and the
    collection keeps the change: the event appended by a creation, the
    merged event of an update, the removal of a deletion. *)
Theorem persistence_failure_keeps_change :
  forall (io : disk) (st : store),
    (forall uuid data ev st1,
        create_in_memory uuid data st = (Ok ev, st1) ->
        save_fails io (events st1) = true ->
        fst (create_event uuid io data st) = internal_server_error
        /\ events (snd (create_event uuid io data st)) = events st1
        /\ events st1 = (events st ++ [ev])%list)
    /\ (forall event_id data ev st1,
        update_in_memory event_id data st = (Ok ev, st1) ->
        save_fails io (events st1) = true ->
        fst (update_event event_id io data st) = internal_server_error
        /\ events (snd (update_event event_id io data st)) = events st1
        /\ exists i old,
             find_event (events st) event_id 0 = Ok (Some (i, old))
             /\ events st1 = list_set (events st) i ev)
    /\ (forall event_id ev st1,
        delete_in_memory event_id st = (Ok ev, st1) ->
        save_fails io (events st1) = true ->
        fst (delete_event event_id io st) = internal_server_error
        /\ events (snd (delete_event event_id io st)) = events st1
        /\ exists i,
             find_event (events st) event_id 0 = Ok (Some (i, ev))
             /\ events st1 = pop (events st) i).
Proof.
  intros io st. split; [|split].
  - intros uuid data ev st1 Hmem Hfail.
    destruct (save_events_fails io (events st1) st1 Hfail) as (msg & f & Hs).
    unfold create_event, create_event_body, bind, get_events.
    rewrite Hmem, Hs. cbn. split; [reflexivity|]. split; [reflexivity|].
    rewrite (create_in_memory_ok _ _ _ _ _ Hmem). reflexivity.
  - intros event_id data ev st1 Hmem Hfail.
    destruct (save_events_fails io (events st1) st1 Hfail) as (msg & f & Hs).
    unfold update_event, update_event_body, bind, get_events.
    rewrite Hmem, Hs. cbn. split; [reflexivity|]. split; [reflexivity|].
    destruct (update_in_memory_ok _ _ _ _ _ Hmem) as (i & old & Hf & -> & _).
    exists i, old. split; [exact Hf|reflexivity].
  - intros event_id ev st1 Hmem Hfail.
    destruct (save_events_fails io (events st1) st1 Hfail) as (msg & f & Hs).
    unfold delete_event, delete_event_body, bind, get_events.
    rewrite Hmem, Hs. cbn. split; [reflexivity|]. split; [reflexivity|].
    destruct (delete_in_memory_ok _ _ _ _ Hmem) as (i & Hf & ->).
    exists i. split; [exact Hf|reflexivity].
Qed.

Lemma persistence_failure_keeps_change_witness :
  fst (create_event "id-1" (DiskFails FEmpty) standup_body empty_store)
  = internal_server_error
  /\ events (snd (create_event "id-1" (DiskFails FEmpty) standup_body
                    empty_store))
     = [standup "id-1"].
Proof.
  destruct (persistence_failure_keeps_change (DiskFails FEmpty) empty_store)
    as [Hc _].
  destruct (Hc "id-1" standup_body (standup "id-1")
               (mkStore [standup "id-1"] FAbsent) eq_refl eq_refl)
    as (H1 & H2 & _).
  split; [exact H1 | exact H2].
Defined.

(** ** Updates with a valid body *)

Lemma valid_update_body_validate (d : dict) :
  valid_update_body d = true ->
  validate_event_data d true
  = (true, [], snd (validate_time d "start_time"),
     snd (validate_time d "end_time"))
  /\ assign_stripped d "title" = (fun e => Ok (merge_text d "title" e))
  /\ assign_stripped d "description"
     = (fun e => Ok (merge_text d "description" e))
  /\ assign_parsed (snd (validate_time d "start_time")) "start_time"
     = merge_time d "start_time"
  /\ assign_parsed (snd (validate_time d "end_time")) "end_time"
     = merge_time d "end_time".
Proof.
  unfold valid_update_body, valid_title, valid_description, valid_time_text.
  rewrite !andb_true_iff. intros [[[Ht Hd] Hs] He].
  rewrite validate_event_data_eq. cbv zeta.
  unfold title_errors, description_errors, validate_time,
    assign_stripped, assign_parsed, merge_text, merge_time, stripped,
    subscript, dict_mem.
  destruct (dict_get d "title") as [[| | |t| | |]|]; try discriminate;
  destruct (dict_get d "description") as [[| | |ds| | |]|]; try discriminate;
  destruct (dict_get d "start_time") as [[| | |s| | |]|]; try discriminate;
  destruct (dict_get d "end_time") as [[| | |e| | |]|]; try discriminate;
  try (destruct (fromisoformat s); try discriminate);
  try (destruct (fromisoformat e); try discriminate);
  try (apply negb_true_iff in Ht; rewrite Ht);
  cbn; repeat split; reflexivity.
Qed.

Lemma merge_text_other d k k' e :
  k <> k' -> dict_get (merge_text d k e) k' = dict_get e k'.
Proof.
  intros Hne. unfold merge_text.
  destruct (dict_get d k) as [[| | |s| | |]|]; try reflexivity.
  apply dict_get_set_other. exact Hne.
Qed.

Lemma merge_time_other d k k' e :
  k <> k' -> dict_get (merge_time d k e) k' = dict_get e k'.
Proof.
  intros Hne. unfold merge_time.
  destruct (dict_get d k) as [[| | |s| | |]|]; try reflexivity.
  destruct (fromisoformat s); [|reflexivity].
  apply dict_get_set_other. exact Hne.
Qed.

Lemma merge_text_absent d k e : dict_mem d k = false -> merge_text d k e = e.
Proof.
  unfold dict_mem, merge_text. destruct (dict_get d k); [discriminate|].
  reflexivity.
Qed.

Lemma merge_time_absent d k e : dict_mem d k = false -> merge_time d k e = e.
Proof.
  unfold dict_mem, merge_time. destruct (dict_get d k); [discriminate|].
  reflexivity.
Qed.

(** Fields that the body does not supply, and keys that are not one of the
    four fields, keep their value in the merge. *)
Lemma merged_event_unsupplied d old k :
  dict_mem d k = false \/ ~ In k required_fields ->
  dict_get (merged_event d old) k = dict_get old k.
Proof.
  intros H. unfold merged_event.
  assert (Hstep : forall k0, In k0 required_fields ->
            k0 <> k \/ dict_mem d k0 = false).
  { intros k0 Hin. destruct (String.eqb k0 k) eqn:E.
    - apply String.eqb_eq in E. subst k0. destruct H; [right|]; tauto.
    - apply String.eqb_neq in E. left. exact E. }
  assert (Htime : forall k0 e, In k0 required_fields ->
            dict_get (merge_time d k0 e) k = dict_get e k).
  { intros k0 e Hin. destruct (Hstep k0 Hin) as [Hne|Habs].
    - apply merge_time_other. exact Hne.
    - rewrite merge_time_absent by exact Habs. reflexivity. }
  assert (Htext : forall k0 e, In k0 required_fields ->
            dict_get (merge_text d k0 e) k = dict_get e k).
  { intros k0 e Hin. destruct (Hstep k0 Hin) as [Hne|Habs].
    - apply merge_text_other. exact Hne.
    - rewrite merge_text_absent by exact Habs. reflexivity. }
  rewrite !Htime, !Htext by (unfold required_fields; cbn [In]; tauto).
  reflexivity.
Qed.

(** Supplied fields take their new value in the merge. *)
Lemma merged_event_supplied d old :
  valid_update_body d = true ->
  (forall s, dict_get d "title" = Some (VStr s) ->
             dict_get (merged_event d old) "title" = Some (VStr (strip s)))
  /\ (forall s, dict_get d "description" = Some (VStr s) ->
        dict_get (merged_event d old) "description" = Some (VStr (strip s)))
  /\ (forall s, dict_get d "start_time" = Some (VStr s) ->
        exists t, fromisoformat s = Some t
          /\ dict_get (merged_event d old) "start_time" = Some (VDatetime t))
  /\ (forall s, dict_get d "end_time" = Some (VStr s) ->
        exists t, fromisoformat s = Some t
          /\ dict_get (merged_event d old) "end_time" = Some (VDatetime t)).
Proof.
  unfold valid_update_body, valid_time_text.
  rewrite !andb_true_iff. intros [[_ Hs] He]. unfold merged_event.
  repeat split.
  - intros s H. rewrite !merge_time_other, merge_text_other by discriminate.
    unfold merge_text. rewrite H. apply dict_get_set_same.
  - intros s H. rewrite !merge_time_other by discriminate.
    unfold merge_text at 1. rewrite H. apply dict_get_set_same.
  - intros s H. rewrite H in Hs.
    destruct (fromisoformat s) as [t|] eqn:Ht; [|discriminate].
    exists t. split; [reflexivity|].
    rewrite merge_time_other by discriminate.
    unfold merge_time at 1. rewrite H, Ht. apply dict_get_set_same.
  - intros s H. rewrite H in He.
    destruct (fromisoformat s) as [t|] eqn:Ht; [|discriminate].
    exists t. split; [reflexivity|].
    unfold merge_time at 1. rewrite H, Ht. apply dict_get_set_same.
Qed.

Lemma update_in_memory_valid event_id d st i old a b :
  d <> [] ->
  valid_update_body d = true ->
  find_event (events st) event_id 0 = Ok (Some (i, old)) ->
  dict_get (merged_event d old) "start_time" = Some (VDatetime a) ->
  dict_get (merged_event d old) "end_time" = Some (VDatetime b) ->
  datetime_cmp a b = Some Lt ->
  update_in_memory event_id (VDict d) st
  = (Ok (merged_event d old),
     mkStore (list_set (events st) i (merged_event d old)) (events_file st)).
Proof.
  intros Hne Hvalid Hfind Ha Hb Hlt.
  destruct (valid_update_body_validate d Hvalid) as (Hv & Ht & Hd & Hs & He).
  unfold update_in_memory.
  replace (truthy (VDict d)) with true by (destruct d; [tauto|reflexivity]).
  cbn [negb]. rewrite Hv. cbn [negb].
  unfold bind, lift, raise, ret, get_events, set_events.
  rewrite Hfind, Ht, Hd, Hs, He. cbn [events events_file].
  fold (merged_event d old). unfold subscript. rewrite Ha, Hb.
  unfold value_ge, value_cmp. rewrite Hlt. reflexivity.
Qed.

(** C6, as stated, fails: an empty JSON object sent for the existing event
    is not answered with 200. *)
Lemma empty_update_body_is_rejected :
  find_event (events standup_store) "id-1" 0 = Ok (Some (0%nat, standup "id-1"))
  /\ status (fst (update_event "id-1" DiskOk (VDict []) standup_store)) <> 200
  /\ update_event "id-1" DiskOk (VDict []) standup_store
     = (bad_request "Request body must be JSON.", standup_store).
Proof.
  split; [reflexivity|]. split; [|reflexivity]. vm_compute. discriminate.
Qed.

(** C6, amended: an empty body is answered with 400.  A body that is not
    empty and holds valid values for any subset of the four fields, sent
    for an existing id, is answered with 200 when the merged event has its
    start time strictly before its end time and the save succeeds: the
    store then holds the merged event in the place of the old one, the file
    holds the new collection, and the response carries the merged event.
    In the merged event every supplied field has its new value (texts
    trimmed, times parsed) and everything else its prior value. *)
Theorem valid_update_succeeds :
  forall (event_id : string) (st : store),
    (forall io,
        update_event event_id io (VDict []) st
        = (bad_request "Request body must be JSON.", st))
    /\ (forall d i old a b,
        d <> [] ->
        valid_update_body d = true ->
        find_event (events st) event_id 0 = Ok (Some (i, old)) ->
        let merged := merged_event d old in
        let evs := list_set (events st) i merged in
        dict_get merged "start_time" = Some (VDatetime a) ->
        dict_get merged "end_time" = Some (VDatetime b) ->
        datetime_cmp a b = Some Lt ->
        save_fails DiskOk evs = false ->
        update_event event_id DiskOk (VDict d) st
        = (mkResponse 200
             (VDict [("message", VStr "Event updated successfully");
                     ("event",
                      VDict (dict_set
                               (dict_set merged "start_time"
                                         (VStr (isoformat a)))
                               "end_time" (VStr (isoformat b))))]),
           mkStore evs (FJson (VList (map VDict (map serializable_event evs)))))
        /\ (forall k, dict_mem d k = false \/ ~ In k required_fields ->
                      dict_get merged k = dict_get old k)
        /\ (forall s, dict_get d "title" = Some (VStr s) ->
                      dict_get merged "title" = Some (VStr (strip s)))
        /\ (forall s, dict_get d "description" = Some (VStr s) ->
                      dict_get merged "description" = Some (VStr (strip s)))
        /\ (forall s, dict_get d "start_time" = Some (VStr s) ->
              exists t, fromisoformat s = Some t
                        /\ dict_get merged "start_time" = Some (VDatetime t))
        /\ (forall s, dict_get d "end_time" = Some (VStr s) ->
              exists t, fromisoformat s = Some t
                        /\ dict_get merged "end_time" = Some (VDatetime t))).
Proof.
  intros event_id st. split; [reflexivity|].
  intros d i old a b Hne Hvalid Hfind merged evs Ha Hb Hlt Hsave.
  split.
  - unfold update_event, update_event_body, bind.
    rewrite (update_in_memory_valid event_id d st i old a b)
      by assumption.
    fold merged. fold evs. unfold get_events. cbn [events].
    unfold save_fails in Hsave. apply negb_false_iff in Hsave.
    unfold save_events. rewrite Hsave.
    unfold set_file, lift, ret, response_event, subscript.
    cbn [events]. rewrite Ha. cbn [res_bind value_isoformat].
    rewrite (dict_get_set_other _ _ _ _ start_end_neq), Hb. reflexivity.
  - split; [apply merged_event_unsupplied|].
    apply merged_event_supplied. exact Hvalid.
Qed.

Lemma valid_update_succeeds_witness :
  status (fst (update_event "id-1" DiskOk
                 (VDict [("title", VStr " Retro ")]) standup_store)) = 200
  /\ events (snd (update_event "id-1" DiskOk
                    (VDict [("title", VStr " Retro ")]) standup_store))
     = [new_event "id-1" "Retro" "Daily sync" (VDatetime nine) (VDatetime ten)].
Proof.
  destruct (valid_update_succeeds "id-1" standup_store) as [_ H].
  destruct (H [("title", VStr " Retro ")] 0%nat (standup "id-1") nine ten
              ltac:(discriminate) eq_refl eq_refl eq_refl eq_refl eq_refl
              eq_refl) as [Hrun _].
  rewrite Hrun. split; reflexivity.
Defined.

(** ** Loading records with malformed times *)

(** C10, as stated, fails: the end time of the record does not parse, and
    the loaded record does not have its start time as the raw string. *)
Lemma half_parsed_record_is_rewritten :
  load_events (fun _ => "fresh") half_parsable_file
  = VList [VDict [("id", VStr "e1"); ("title", VStr "Review");
                  ("start_time", VDatetime ten);
                  ("end_time", VStr "soon")]]
  /\ fromisoformat "soon" = None
  /\ ~ (exists ev,
          load_events (fun _ => "fresh") half_parsable_file = VList [VDict ev]
          /\ dict_get ev "start_time" = Some (VStr "2024-01-01T10:00:00")
          /\ dict_get ev "end_time" = Some (VStr "soon")).
Proof.
  split; [reflexivity|]. split; [reflexivity|].
  intros (ev & Hload & Hs & _). vm_compute in Hload.
  injection Hload as <-. vm_compute in Hs. discriminate.
Qed.

Lemma load_event_spec uuid (ev : dict) :
  has_time_keys (VDict ev) ->
  exists ev', load_event uuid ev = Ok ev'
              /\ loaded_record (VDict ev) (VDict ev').
Proof.
  intros (ev_ & st & en & [= <-] & Hst & Hen).
  unfold load_event.
  set (ev0 := if dict_mem ev "id" then ev
              else dict_set ev "id" (VStr uuid)).
  assert (Hother : forall k, k <> "id" -> dict_get ev0 k = dict_get ev k).
  { intros k Hk. subst ev0. destruct (dict_mem ev "id"); [reflexivity|].
    apply dict_get_set_other. congruence. }
  assert (Hid : if dict_mem ev "id" then dict_get ev0 "id" = dict_get ev "id"
                else exists u, dict_get ev0 "id" = Some (VStr u)).
  { subst ev0. destruct (dict_mem ev "id"); [reflexivity|].
    exists uuid. apply dict_get_set_same. }
  unfold subscript. rewrite (Hother "start_time") by discriminate.
  rewrite Hst. cbn [res_bind].
  destruct (parse_time_value st) as [a|] eqn:Pa.
  - rewrite (dict_get_set_other _ _ _ _ start_end_neq).
    rewrite (Hother "end_time") by discriminate. rewrite Hen. cbn [res_bind].
    destruct (parse_time_value en) as [b|] eqn:Pb.
    + eexists. split; [reflexivity|].
      exists ev. eexists. exists st, en.
      split; [reflexivity|]. split; [reflexivity|].
      split; [exact Hst|]. split; [exact Hen|]. split; [|split].
      * intros k H1 H2 H3. rewrite !dict_get_set_other by congruence.
        apply Hother. exact H1.
      * destruct (dict_mem ev "id").
        -- rewrite !dict_get_set_other by discriminate. exact Hid.
        -- destruct Hid as [u Hu]. exists u.
           rewrite !dict_get_set_other by discriminate. exact Hu.
      * rewrite Pa, Pb. split.
        -- rewrite (dict_get_set_other _ _ _ _ end_start_neq).
           apply dict_get_set_same.
        -- apply dict_get_set_same.
    + eexists. split; [reflexivity|].
      exists ev. eexists. exists st, en.
      split; [reflexivity|]. split; [reflexivity|].
      split; [exact Hst|]. split; [exact Hen|]. split; [|split].
      * intros k H1 H2 H3. rewrite !dict_get_set_other by congruence.
        apply Hother. exact H1.
      * destruct (dict_mem ev "id").
        -- rewrite !dict_get_set_other by discriminate. exact Hid.
        -- destruct Hid as [u Hu]. exists u.
           rewrite !dict_get_set_other by discriminate. exact Hu.
      * rewrite Pa, Pb. split.
        -- apply dict_get_set_same.
        -- rewrite (dict_get_set_other _ _ _ _ start_end_neq).
           rewrite (Hother "end_time") by discriminate. exact Hen.
  - eexists. split; [reflexivity|].
    exists ev, ev0, st, en.
    split; [reflexivity|]. split; [reflexivity|].
    split; [exact Hst|]. split; [exact Hen|]. split; [|split].
    + intros k H1 _ _. apply Hother. exact H1.
    + exact Hid.
    + rewrite Pa. split.
      * rewrite (Hother "start_time") by discriminate. exact Hst.
      * rewrite (Hother "end_time") by discriminate. exact Hen.
Qed.

Lemma load_items_spec uuid4 (items : list value) :
  Forall has_time_keys items ->
  forall n, exists l,
    load_items uuid4 n items = Ok l /\ Forall2 loaded_record items l.
Proof.
  induction 1 as [|item items Hitem Hitems IH]; intros n.
  - exists []. split; [reflexivity|constructor].
  - pose proof Hitem as (ev & st & en & -> & _).
    destruct (load_event_spec (uuid4 n) ev Hitem) as (ev' & Hload & Hrec).
    cbn [load_items]. rewrite Hload. cbn [res_bind].
    destruct (IH (if dict_mem ev "id" then n else S n)) as (l & Hl & Hall).
    rewrite Hl. exists (VDict ev' :: l).
    split; [reflexivity|]. constructor; assumption.
Qed.

(** C10, amended: when the file holds a JSON array of objects that all
    have a [start_time] and an [end_time] entry, [load_events] returns a
    list with one record for each record of the file, in order.  A record
    whose start time does not parse keeps both times as they are in the
    file; a record whose start time parses and whose end time does not has
    its start time replaced by the datetime and keeps its end time as it is
    in the file; a record whose two times parse has both replaced by the
    datetimes. *)
Theorem load_keeps_unparsable_records :
  forall (uuid4 : nat -> string) (items : list value),
    Forall has_time_keys items ->
    exists l,
      load_events uuid4 (FJson (VList items)) = VList l
      /\ Forall2 loaded_record items l.
Proof.
  intros uuid4 items Hitems.
  destruct (load_items_spec uuid4 items Hitems 0%nat) as (l & Hl & Hall).
  exists l. unfold load_events. rewrite Hl. split; [reflexivity|exact Hall].
Qed.

Lemma load_keeps_unparsable_records_witness :
  exists l,
    load_events (fun _ => "fresh") half_parsable_file = VList l
    /\ Forall2 loaded_record
         [VDict [("id", VStr "e1"); ("title", VStr "Review");
                 ("start_time", VStr "2024-01-01T10:00:00");
                 ("end_time", VStr "soon")]] l.
Proof.
  apply (load_keeps_unparsable_records (fun _ => "fresh")).
  constructor; [|constructor].
  do 3 eexists. split; [reflexivity|]. split; reflexivity.
Defined.

(** ** The calendar and the order of datetimes *)

Lemma days_before_year_succ y :
  days_before_year (y + 1)
  = days_before_year y + 365 + (if is_leap y then 1 else 0).
Proof.
  unfold days_before_year, is_leap. cbv zeta.
  replace (y + 1 - 1) with y by lia.
  destruct (y mod 4 =? 0) eqn:E4; destruct (y mod 100 =? 0) eqn:E100;
    destruct (y mod 400 =? 0) eqn:E400; cbn [andb orb negb];
    rewrite ?Z.eqb_eq, ?Z.eqb_neq in *; div_mod_lia.
Qed.

Lemma days_before_year_mono y y' :
  y <= y' -> days_before_year y <= days_before_year y'.
Proof.
  unfold days_before_year. cbv zeta. intros H. div_mod_lia.
Qed.

Ltac month_cases m Hm :=
  let H := fresh in
  assert (H : m = 1 \/ m = 2 \/ m = 3 \/ m = 4 \/ m = 5 \/ m = 6 \/ m = 7
              \/ m = 8 \/ m = 9 \/ m = 10 \/ m = 11 \/ m = 12) by lia;
  clear Hm;
  repeat (destruct H as [-> | H]); [..|subst m].

(** The days of the year before month [m], and the room the month takes
    in the year. *)
Lemma days_before_month_bounds y m :
  1 <= m <= 12 ->
  0 <= days_before_month y m
  /\ days_before_month y m + days_in_month y m
     <= 365 + (if is_leap y then 1 else 0).
Proof.
  intros Hm. month_cases m Hm;
    cbv [days_before_month days_before_month_aux days_in_month Z.to_nat
         Z.sub Z.add Z.opp Z.pos_sub Pos.to_nat Pos.iter_op Init.Nat.add
         Z.of_nat Pos.of_succ_nat Pos.succ Z.eqb Pos.eqb orb
         Z.succ_double Z.pred_double Z.double Pos.pred_double];
    destruct (is_leap y); lia.
Qed.

Lemma days_before_month_mono y m m' :
  1 <= m <= 12 -> 1 <= m' <= 12 -> m < m' ->
  days_before_month y m + days_in_month y m <= days_before_month y m'.
Proof.
  intros Hm Hm' Hlt. month_cases m Hm; month_cases m' Hm'; try lia;
    cbv [days_before_month days_before_month_aux days_in_month Z.to_nat
         Z.sub Z.add Z.opp Z.pos_sub Pos.to_nat Pos.iter_op Init.Nat.add
         Z.of_nat Pos.of_succ_nat Pos.succ Z.eqb Pos.eqb orb
         Z.succ_double Z.pred_double Z.double Pos.pred_double];
    destruct (is_leap y); lia.
Qed.

Lemma valid_date_bounds y m d :
  valid_date y m d = true ->
  1 <= y <= 9999 /\ 1 <= m <= 12 /\ 1 <= d <= days_in_month y m.
Proof.
  unfold valid_date. rewrite !andb_true_iff, !Z.leb_le. tauto.
Qed.

(** The ordinal of a date grows with the date. *)
Lemma ymd2ord_lt y m d y' m' d' :
  valid_date y m d = true -> valid_date y' m' d' = true ->
  y < y' \/ (y = y' /\ (m < m' \/ (m = m' /\ d < d'))) ->
  ymd2ord y m d < ymd2ord y' m' d'.
Proof.
  intros Hv Hv' Hlt.
  apply valid_date_bounds in Hv, Hv'.
  destruct Hv as (Hy & Hm & Hd), Hv' as (Hy' & Hm' & Hd').
  pose proof (days_before_month_bounds y m Hm) as [B1 B2].
  pose proof (days_before_month_bounds y' m' Hm') as [B1' B2'].
  unfold ymd2ord.
  destruct Hlt as [Hlt | [<- [Hlt | [<- Hlt]]]].
  - pose proof (days_before_year_succ y) as Hs.
    pose proof (days_before_year_mono (y + 1) y' ltac:(lia)) as Hmono.
    lia.
  - pose proof (days_before_month_mono y m m' Hm Hm' Hlt). lia.
  - lia.
Qed.

(** Comparing two datetimes field by field is comparing their
    instants. *)
Lemma cmp_fields_micros a b :
  valid_datetime a = true -> valid_datetime b = true ->
  cmp_fields a b = (base_micros a ?= base_micros b).
Proof.
  intros Ha Hb.
  pose proof (valid_datetime_bounds a Ha)
    as (_ & _ & _ & Hh & Hmi & Hs & Hus & _).
  pose proof (valid_datetime_bounds b Hb)
    as (_ & _ & _ & Hh' & Hmi' & Hs' & Hus' & _).
  assert (Hda : valid_date (year a) (month a) (day a) = true).
  { unfold valid_datetime in Ha. rewrite !andb_true_iff in Ha. tauto. }
  assert (Hdb : valid_date (year b) (month b) (day b) = true).
  { unfold valid_datetime in Hb. rewrite !andb_true_iff in Hb. tauto. }
  pose proof (ymd2ord_lt _ _ _ _ _ _ Hda Hdb) as Hab.
  pose proof (ymd2ord_lt _ _ _ _ _ _ Hdb Hda) as Hba.
  unfold cmp_fields, base_micros.
  destruct (Z.compare_spec (year a) (year b)) as [Ey|Hy|Hy]; cbn [lex];
    [|symmetry; apply Z.compare_lt_iff; lia
     |symmetry; apply Z.compare_gt_iff; lia].
  destruct (Z.compare_spec (month a) (month b)) as [Em|Hm|Hm]; cbn [lex];
    [|symmetry; apply Z.compare_lt_iff; lia
     |symmetry; apply Z.compare_gt_iff; lia].
  destruct (Z.compare_spec (day a) (day b)) as [Ed|Hd|Hd]; cbn [lex];
    [|symmetry; apply Z.compare_lt_iff; lia
     |symmetry; apply Z.compare_gt_iff; lia].
  clear Hab Hba. rewrite Ey, Em, Ed.
  destruct (Z.compare_spec (hour a) (hour b)) as [E1|H1|H1]; cbn [lex];
    [|symmetry; apply Z.compare_lt_iff; lia
     |symmetry; apply Z.compare_gt_iff; lia].
  destruct (Z.compare_spec (minute a) (minute b)) as [E2|H2|H2]; cbn [lex];
    [|symmetry; apply Z.compare_lt_iff; lia
     |symmetry; apply Z.compare_gt_iff; lia].
  destruct (Z.compare_spec (second a) (second b)) as [E3|H3|H3]; cbn [lex];
    [|symmetry; apply Z.compare_lt_iff; lia
     |symmetry; apply Z.compare_gt_iff; lia].
  rewrite E1, E2, E3.
  destruct (Z.compare_spec (microsecond a) (microsecond b)) as [E4|H4|H4];
    symmetry;
    [apply Z.compare_eq_iff|apply Z.compare_lt_iff|apply Z.compare_gt_iff];
    lia.
Qed.

Lemma compare_shift x y c : (x - c ?= y - c) = (x ?= y).
Proof.
  destruct (Z.compare_spec x y);
    [apply Z.compare_eq_iff|apply Z.compare_lt_iff|apply Z.compare_gt_iff];
    lia.
Qed.

(** Two valid datetimes that are both naive or both aware are ordered by
    their instants. *)
Lemma datetime_cmp_micros a b :
  valid_datetime a = true -> valid_datetime b = true ->
  (tzinfo a = None <-> tzinfo b = None) ->
  datetime_cmp a b = Some (utc_micros a ?= utc_micros b).
Proof.
  intros Ha Hb Htz. unfold datetime_cmp, utc_micros.
  destruct (tzinfo a) as [oa|], (tzinfo b) as [ob|].
  - destruct (oa =? ob) eqn:E; [|reflexivity].
    apply Z.eqb_eq in E. subst ob.
    rewrite compare_shift, (cmp_fields_micros a b Ha Hb). reflexivity.
  - destruct Htz as [_ H]. discriminate (H eq_refl).
  - destruct Htz as [H _]. discriminate (H eq_refl).
  - rewrite !Z.sub_0_r, (cmp_fields_micros a b Ha Hb). reflexivity.
Qed.

(** ** The stable sort *)

Lemma filter_none {A} (p : A -> bool) (l : list A) :
  (forall y, In y l -> p y = false) -> filter p l = [].
Proof.
  induction l as [|y l IH]; intros H; [reflexivity|].
  cbn [filter]. rewrite (H y (or_introl eq_refl)).
  apply IH. intros z Hz. apply H. right. exact Hz.
Qed.

Section StableSort.

Context {A : Type}.

Implicit Types x y : value * A.

Lemma insert_sorted_spec (x : value * A) (l : list (value * A)) :
  (forall y, In y l -> ordered_by_key y x) ->
  exists l1 l2,
    l = (l1 ++ l2)%list
    /\ insert_sorted x l = Ok (l1 ++ x :: l2)%list
    /\ (forall y, In y l1 -> value_key (fst y) < value_key (fst x))
    /\ match l2 with
       | [] => True
       | z :: _ => value_key (fst x) <= value_key (fst z)
       end.
Proof.
  induction l as [|y ys IH]; intros Hord.
  - exists [], []. repeat split. intros y [].
  - cbn [insert_sorted]. rewrite (Hord y (or_introl eq_refl)).
    cbn [res_bind]. destruct (value_key (fst y) <? value_key (fst x)) eqn:E.
    + destruct IH as (l1 & l2 & -> & Hins & Hl1 & Hl2).
      { intros z Hz. apply Hord. right. exact Hz. }
      exists (y :: l1), l2. rewrite Hins. cbn [res_bind].
      repeat split; [|exact Hl2].
      intros z [<-|Hz]; [apply Z.ltb_lt; exact E|apply Hl1; exact Hz].
    + exists [], (y :: ys). repeat split; [intros z []|].
      apply Z.ltb_ge. exact E.
Qed.

Lemma insert_keeps_sorted (x : value * A) l1 l2 :
  StronglySorted key_le (l1 ++ l2) ->
  (forall y, In y l1 -> value_key (fst y) < value_key (fst x)) ->
  match l2 with
  | [] => True
  | z :: _ => value_key (fst x) <= value_key (fst z)
  end ->
  StronglySorted key_le (l1 ++ x :: l2).
Proof.
  induction l1 as [|y l1 IH]; cbn [app]; intros Hs H1 H2.
  - constructor; [exact Hs|].
    destruct l2 as [|z l2]; [constructor|].
    inversion Hs as [|? ? Hs' Hz]; subst. constructor; [exact H2|].
    apply Forall_forall. intros w Hw. unfold key_le in *.
    rewrite Forall_forall in Hz. specialize (Hz w Hw). lia.
  - inversion Hs as [|? ? Hs' Hy]; subst. constructor.
    + apply IH; [exact Hs'| |exact H2].
      intros z Hz. apply H1. right. exact Hz.
    + rewrite Forall_forall in *. intros w Hw.
      apply in_app_or in Hw. destruct Hw as [Hw|[<-|Hw]].
      * apply Hy. apply in_or_app. left. exact Hw.
      * unfold key_le. specialize (H1 y (or_introl eq_refl)). lia.
      * apply Hy. apply in_or_app. right. exact Hw.
Qed.

Lemma insert_keeps_order (p : value * A -> bool) (x : value * A) l1 l2 :
  one_key p (x :: l1 ++ l2) ->
  (forall y, In y l1 -> value_key (fst y) < value_key (fst x)) ->
  filter p (l1 ++ x :: l2) = filter p (x :: l1 ++ l2).
Proof.
  intros Hp H1. rewrite filter_app. cbn [filter].
  destruct (p x) eqn:Ex; [|rewrite filter_app; reflexivity].
  assert (Hnone : filter p l1 = []).
  { apply filter_none.
    intros y Hy. destruct (p y) eqn:Ey; [|reflexivity].
    specialize (H1 y Hy).
    assert (value_key (fst y) = value_key (fst x)).
    { apply Hp; [right; apply in_or_app; left; exact Hy
                |left; reflexivity|exact Ey|exact Ex]. }
    lia. }
  rewrite filter_app, Hnone. reflexivity.
Qed.

Lemma sort_keyed_spec (l : list (value * A)) :
  (forall x y, In x l -> In y l -> ordered_by_key x y) ->
  exists l',
    sort_keyed l = Ok l'
    /\ Permutation l' l
    /\ StronglySorted key_le l'
    /\ (forall p, one_key p l -> filter p l' = filter p l).
Proof.
  induction l as [|x r IH]; intros Hord.
  - exists []. repeat split; constructor.
  - destruct IH as (r' & Hr & Hperm & Hsorted & Hstable).
    { intros u v Hu Hv. apply Hord; right; assumption. }
    destruct (insert_sorted_spec x r') as (l1 & l2 & -> & Hins & H1 & H2).
    { intros y Hy. apply Hord; [right|left; reflexivity].
      apply (Permutation_in _ Hperm). exact Hy. }
    exists (l1 ++ x :: l2)%list. cbn [sort_keyed]. rewrite Hr.
    cbn [res_bind]. split; [exact Hins|]. split; [|split].
    + apply Permutation_sym.
      apply Permutation_trans with (x :: l1 ++ l2)%list.
      * constructor. apply Permutation_sym. exact Hperm.
      * apply Permutation_middle.
    + apply insert_keeps_sorted; assumption.
    + intros p Hp. rewrite insert_keeps_order.
      * cbn [filter]. rewrite Hstable; [reflexivity|].
        intros u v Hu Hv. apply Hp; right; assumption.
      * intros u v Hu Hv. apply Hp.
        -- destruct Hu as [<-|Hu]; [left; reflexivity|right].
           apply (Permutation_in _ Hperm). exact Hu.
        -- destruct Hv as [<-|Hv]; [left; reflexivity|right].
           apply (Permutation_in _ Hperm). exact Hv.
      * exact H1.
Qed.

End StableSort.

(** ** Listing *)

(** After two accepted creations, one with naive times and one with an
    offset, the collection cannot be sorted and the list request is
    answered with 500. *)
Lemma mixed_collection_is_not_listed :
  status (fst (create_event "id-1" DiskOk standup_body empty_store)) = 201
  /\ status (fst (create_event "id-2" DiskOk offset_body standup_store)) = 201
  /\ List.length (events mixed_store) = 2%nat
  /\ fst (list_events mixed_store) = internal_server_error
  /\ status (fst (list_events mixed_store)) <> 200.
Proof.
  repeat split; try reflexivity. vm_compute. discriminate.
Qed.

Lemma mapM_total {A B} (f : A -> res B) (l : list A) :
  Forall (fun x => exists y, f x = Ok y) l ->
  exists ys, mapM f l = Ok ys /\ Forall2 (fun x y => f x = Ok y) l ys.
Proof.
  induction 1 as [|x l [y Hy] Hl (ys & Hys & Hall)].
  - exists []. split; [reflexivity|constructor].
  - exists (y :: ys). cbn [mapM]. rewrite Hy, Hys.
    split; [reflexivity|]. constructor; assumption.
Qed.

Lemma filter_map_comm {A B} (p : B -> bool) (f : A -> B) (l : list A) :
  filter p (map f l) = map f (filter (fun x => p (f x)) l).
Proof.
  induction l as [|x l IH]; [reflexivity|].
  cbn [map filter]. destruct (p (f x)); cbn [map]; rewrite IH; reflexivity.
Qed.

Lemma StronglySorted_map {A B} (R : A -> A -> Prop) (R' : B -> B -> Prop)
      (f : A -> B) (l : list A) :
  (forall x y, In x l -> In y l -> R x y -> R' (f x) (f y)) ->
  StronglySorted R l -> StronglySorted R' (map f l).
Proof.
  intros Himp Hs. induction Hs as [|x l Hs IH Hx]; [constructor|].
  cbn [map]. constructor.
  - apply IH. intros u v Hu Hv. apply Himp; right; assumption.
  - rewrite Forall_forall in *. intros y Hy.
    apply in_map_iff in Hy. destruct Hy as (u & <- & Hu).
    apply Himp; [left; reflexivity|right; exact Hu|apply Hx; exact Hu].
Qed.

Lemma start_datetime_get e a :
  start_datetime e = Some a -> dict_get e "start_time" = Some (VDatetime a).
Proof.
  unfold start_datetime.
  destruct (dict_get e "start_time") as [[| | | |d| |]|]; try discriminate.
  intros [= ->]. reflexivity.
Qed.

Lemma end_datetime_get e b :
  end_datetime e = Some b -> dict_get e "end_time" = Some (VDatetime b).
Proof.
  unfold end_datetime.
  destruct (dict_get e "end_time") as [[| | | |d| |]|]; try discriminate.
  intros [= ->]. reflexivity.
Qed.

(** In a collection that can be listed, any two start times are ordered by
    their instants. *)
Lemma listable_cmp evs e1 e2 a1 a2 :
  listable evs -> In e1 evs -> In e2 evs ->
  start_datetime e1 = Some a1 -> start_datetime e2 = Some a2 ->
  datetime_cmp a1 a2 = Some (utc_micros a1 ?= utc_micros a2).
Proof.
  intros [Htimes Haware] H1 H2 Hs1 Hs2.
  rewrite Forall_forall in Htimes.
  destruct (Htimes e1 H1) as (a & _ & Ha & _ & Hva).
  destruct (Htimes e2 H2) as (b & _ & Hb & _ & Hvb).
  rewrite Hs1 in Ha. rewrite Hs2 in Hb.
  injection Ha as <-. injection Hb as <-.
  apply datetime_cmp_micros; [exact Hva|exact Hvb|].
  destruct Haware as [Hn|Hw]; rewrite Forall_forall in *.
  - destruct (Hn e1 H1) as (a & Ha & Hta).
    destruct (Hn e2 H2) as (b & Hb & Htb).
    rewrite Hs1 in Ha. rewrite Hs2 in Hb.
    injection Ha as <-. injection Hb as <-. tauto.
  - destruct (Hw e1 H1) as (a & oa & Ha & Hta).
    destruct (Hw e2 H2) as (b & ob & Hb & Htb).
    rewrite Hs1 in Ha. rewrite Hs2 in Hb.
    injection Ha as <-. injection Hb as <-. rewrite Hta, Htb.
    split; discriminate.
Qed.

Lemma response_event_total e :
  has_times e -> exists r, response_event e = Ok r.
Proof.
  intros (a & b & Ha & Hb & _).
  apply start_datetime_get in Ha. apply end_datetime_get in Hb.
  unfold response_event, subscript. rewrite Ha. cbn [res_bind value_isoformat].
  rewrite (dict_get_set_other _ _ _ _ start_end_neq), Hb.
  cbn [res_bind value_isoformat]. eexists. reflexivity.
Qed.

(** The keys that [sorted] computes for a collection that can be
    listed. *)
Lemma keyed_events evs :
  Forall has_times evs ->
  exists ks,
    mapM (fun e => res_bind (subscript e "start_time") (fun k => Ok (k, e))) evs
    = Ok ks
    /\ map snd ks = evs
    /\ Forall (fun ke => exists a, fst ke = VDatetime a
                                   /\ start_datetime (snd ke) = Some a) ks.
Proof.
  induction 1 as [|e evs He Hevs (ks & Hks & Hsnd & Hall)].
  - exists []. repeat split. constructor.
  - destruct He as (a & b & Ha & _).
    exists ((VDatetime a, e) :: ks). cbn [mapM]. unfold subscript at 1.
    rewrite (start_datetime_get e a Ha). cbn [res_bind]. rewrite Hks.
    cbn [res_bind map snd]. rewrite Hsnd. repeat split.
    constructor; [|exact Hall]. exists a. split; [reflexivity|exact Ha].
Qed.

(** X18: for a collection whose events all carry two valid
    datetimes, with start times that are all naive or all aware,
    [list_events] answers 200 with the events of the collection, each
    rendered by [response_event], in ascending order of start time; events
    with the same start time keep the order they have in the collection;
    the store is unchanged. *)
Theorem list_events_sorted_stable :
  forall st : store,
    listable (events st) ->
    exists sorted_events response_events,
      list_events st
      = (mkResponse 200
           (VDict [("events", VList (map VDict response_events))]), st)
      /\ Forall2 (fun e r => response_event e = Ok r)
                 sorted_events response_events
      /\ Permutation sorted_events (events st)
      /\ StronglySorted start_le sorted_events
      /\ (forall e0, In e0 (events st) ->
            filter (same_start e0) sorted_events
            = filter (same_start e0) (events st)).
Proof.
  intros st HL. pose proof HL as [Htimes _].
  destruct (keyed_events (events st) Htimes) as (ks & Hks & Hsnd & Hkeys).
  rewrite Forall_forall in Hkeys.
  assert (Hin : forall x, In x ks -> In (snd x) (events st)).
  { intros x Hx. rewrite <- Hsnd. apply in_map. exact Hx. }
  assert (Hcmp : forall x y a b, In x ks -> In y ks ->
            fst x = VDatetime a -> start_datetime (snd x) = Some a ->
            fst y = VDatetime b -> start_datetime (snd y) = Some b ->
            datetime_cmp a b
            = Some (value_key (fst x) ?= value_key (fst y))).
  { intros x y a b Hx Hy Fa Sa Fb Sb. rewrite Fa, Fb. cbn [value_key].
    apply (listable_cmp (events st) (snd x) (snd y)); auto. }
  assert (Hord : forall x y, In x ks -> In y ks -> ordered_by_key x y).
  { intros x y Hx Hy.
    destruct (Hkeys x Hx) as (a & Fa & Sa), (Hkeys y Hy) as (b & Fb & Sb).
    pose proof (Hcmp x y a b Hx Hy Fa Sa Fb Sb) as Hc.
    unfold ordered_by_key, value_lt. rewrite Fa, Fb in *.
    cbn [value_cmp]. rewrite Hc. reflexivity. }
  destruct (sort_keyed_spec ks Hord)
    as (ks' & Hsort & Hperm & Hsorted & Hstable).
  assert (Hperm' : Permutation (map snd ks') (events st)).
  { rewrite <- Hsnd. apply Permutation_map. exact Hperm. }
  assert (Htimes' : Forall has_times (map snd ks')).
  { rewrite Forall_forall in *. intros e He. apply Htimes.
    apply (Permutation_in _ Hperm'). exact He. }
  destruct (mapM_total response_event (map snd ks')) as (rs & Hrs & Hall).
  { rewrite Forall_forall in *. intros e He.
    apply response_event_total. apply Htimes'. exact He. }
  exists (map snd ks'), rs.
  split; [|split; [exact Hall|split; [exact Hperm'|split]]].
  - unfold list_events, list_events_body, bind, get_events, lift, ret, sorted.
    rewrite Hks. cbn [res_bind]. rewrite Hsort. cbn [res_bind].
    rewrite Hrs. reflexivity.
  - apply (StronglySorted_map key_le); [|exact Hsorted].
    intros x y Hx Hy Hle.
    apply (Permutation_in _ Hperm) in Hx, Hy.
    destruct (Hkeys x Hx) as (a & Fa & Sa), (Hkeys y Hy) as (b & Fb & Sb).
    unfold start_le. rewrite Sa, Sb.
    rewrite (Hcmp x y a b Hx Hy Fa Sa Fb Sb).
    unfold key_le in Hle.
    destruct (Z.compare_spec (value_key (fst x)) (value_key (fst y)));
      [exact I|exact I|lia].
  - intros e0 He0. rewrite <- Hsnd. rewrite !filter_map_comm.
    f_equal. apply Hstable.
    intros u v Hu Hv Pu Pv.
    rewrite <- Hsnd in He0. apply in_map_iff in He0.
    destruct He0 as (x0 & <- & Hx0).
    destruct (Hkeys x0 Hx0) as (a0 & F0 & S0).
    destruct (Hkeys u Hu) as (a & Fa & Sa), (Hkeys v Hv) as (b & Fb & Sb).
    unfold same_start in Pu, Pv.
    rewrite S0, Sa in Pu. rewrite S0, Sb in Pv.
    rewrite (Hcmp x0 u a0 a Hx0 Hu F0 S0 Fa Sa) in Pu.
    rewrite (Hcmp x0 v a0 b Hx0 Hv F0 S0 Fb Sb) in Pv.
    destruct (Z.compare_spec (value_key (fst x0)) (value_key (fst u)));
      try discriminate.
    destruct (Z.compare_spec (value_key (fst x0)) (value_key (fst v)));
      try discriminate.
    congruence.
Qed.

Lemma list_events_sorted_stable_witness :
  exists sorted_events response_events,
    list_events tie_store
    = (mkResponse 200
         (VDict [("events", VList (map VDict response_events))]),
       tie_store)
    /\ Forall2 (fun e r => response_event e = Ok r)
               sorted_events response_events
    /\ Permutation sorted_events (events tie_store)
    /\ StronglySorted start_le sorted_events
    /\ (forall e0, In e0 (events tie_store) ->
          filter (same_start e0) sorted_events
          = filter (same_start e0) (events tie_store)).
Proof.
  apply (list_events_sorted_stable tie_store).
  split.
  - repeat constructor.
    + exists nine, ten. repeat split; reflexivity.
    + exists eight, nine. repeat split; reflexivity.
    + exists nine, ten. repeat split; reflexivity.
  - left. repeat constructor.
    + exists nine. split; reflexivity.
    + exists eight. split; reflexivity.
    + exists nine. split; reflexivity.
Defined.

(** * Further properties of the handlers *)

(** ** Looking an event up *)

Lemma find_event_unused event_id evs :
  id_unused event_id evs -> forall i, find_event evs event_id i = Ok None.
Proof.
  induction 1 as [|e evs [Hmem Hid] Hevs IH]; intros i; [reflexivity|].
  cbn [find_event]. unfold subscript, dict_mem, id_of in *.
  destruct (dict_get e "id") as [v|]; [|discriminate]. cbn [res_bind].
  destruct v; try apply IH.
  destruct (String.eqb s event_id) eqn:E; [|apply IH].
  apply String.eqb_eq in E. subst s. contradiction Hid. reflexivity.
Qed.

(** The lookup stops at the first event that has the identifier. *)
Lemma find_event_first event_id l1 ev l2 :
  id_unused event_id l1 -> id_of ev = Some event_id ->
  forall i,
    find_event (l1 ++ ev :: l2) event_id i
    = Ok (Some ((i + List.length l1)%nat, ev)).
Proof.
  intros Hl1 Hev. induction Hl1 as [|e l1 [Hmem Hid] Hl1 IH]; intros i.
  - cbn [app find_event List.length]. unfold subscript, id_of in *.
    destruct (dict_get ev "id") as [[| | |s| | |]|]; try discriminate.
    injection Hev as ->. cbn [res_bind]. rewrite String.eqb_refl.
    rewrite Nat.add_0_r. reflexivity.
  - cbn [app find_event List.length]. unfold subscript, dict_mem, id_of in *.
    destruct (dict_get e "id") as [v|]; [|discriminate]. cbn [res_bind].
    assert (Hnext : find_event (l1 ++ ev :: l2) event_id (S i)
                    = Ok (Some ((i + S (List.length l1))%nat, ev))).
    { rewrite IH. do 3 f_equal. lia. }
    destruct v; try exact Hnext.
    destruct (String.eqb s event_id) eqn:E; [|exact Hnext].
    apply String.eqb_eq in E. subst s. contradiction Hid. reflexivity.
Qed.

(** What a successful lookup returns: the event at the index it reports,
    which has the identifier, after events that do not have it. *)
Lemma find_event_found event_id evs : forall i k ev,
  find_event evs event_id i = Ok (Some (k, ev)) ->
  exists l1 l2,
    evs = (l1 ++ ev :: l2)%list /\ k = (i + List.length l1)%nat
    /\ id_unused event_id l1 /\ id_of ev = Some event_id.
Proof.
  induction evs as [|e evs IH]; intros i k ev; [discriminate|].
  cbn [find_event]. unfold subscript.
  destruct (dict_get e "id") as [v|] eqn:Hget; [|discriminate].
  cbn [res_bind].
  assert (Hrec : find_event evs event_id (S i) = Ok (Some (k, ev)) ->
                 id_of e <> Some event_id ->
                 exists l1 l2,
                   e :: evs = (l1 ++ ev :: l2)%list
                   /\ k = (i + List.length l1)%nat
                   /\ id_unused event_id l1 /\ id_of ev = Some event_id).
  { intros H Hne. destruct (IH _ _ _ H) as (l1 & l2 & -> & -> & Hl1 & Hev).
    exists (e :: l1), l2. cbn [app List.length].
    split; [reflexivity|]. split; [lia|]. split; [|exact Hev].
    constructor; [|exact Hl1]. split; [|exact Hne].
    unfold dict_mem. rewrite Hget. reflexivity. }
  destruct v; try (intros H; apply Hrec;
                   [exact H|unfold id_of; rewrite Hget; discriminate]).
  destruct (String.eqb s event_id) eqn:E.
  - apply String.eqb_eq in E. subst s. intros [= <- <-].
    exists [], evs. cbn [app List.length]. split; [reflexivity|].
    split; [lia|]. split; [constructor|].
    unfold id_of. rewrite Hget. reflexivity.
  - apply String.eqb_neq in E. intros H. apply Hrec; [exact H|].
    unfold id_of. rewrite Hget. congruence.
Qed.

(** [get_event_by_id] returns what the lookup loop of the handlers finds. *)
Lemma get_event_by_id_find event_id evs : forall i,
  get_event_by_id evs event_id
  = res_bind (find_event evs event_id i)
             (fun r => Ok (option_map snd r)).
Proof.
  induction evs as [|e evs IH]; intros i; [reflexivity|].
  cbn [get_event_by_id find_event]. unfold subscript.
  destruct (dict_get e "id") as [v|]; [|reflexivity]. cbn [res_bind].
  destruct v; try apply IH.
  destruct (String.eqb s event_id); [reflexivity|apply IH].
Qed.

(** X1: [get_event_by_id] returns the first event of the list that has the
    identifier, [None] when no event has it, and never an event with
    another identifier. *)
Theorem get_event_by_id_spec :
  forall (event_id : string) (evs : list dict),
    (id_unused event_id evs -> get_event_by_id evs event_id = Ok None)
    /\ (forall l1 ev l2,
          evs = (l1 ++ ev :: l2)%list -> id_unused event_id l1 ->
          id_of ev = Some event_id ->
          get_event_by_id evs event_id = Ok (Some ev))
    /\ (forall ev,
          get_event_by_id evs event_id = Ok (Some ev) ->
          In ev evs /\ id_of ev = Some event_id).
Proof.
  intros event_id evs. split; [|split].
  - intros H. rewrite (get_event_by_id_find _ _ 0%nat).
    rewrite (find_event_unused _ _ H). reflexivity.
  - intros l1 ev l2 -> Hl1 Hev. rewrite (get_event_by_id_find _ _ 0%nat).
    rewrite (find_event_first _ _ _ _ Hl1 Hev). reflexivity.
  - intros ev. rewrite (get_event_by_id_find _ _ 0%nat).
    destruct (find_event evs event_id 0) as [[[k e]|]|] eqn:Hf;
      cbn; try discriminate.
    intros [= ->].
    destruct (find_event_found _ _ _ _ _ Hf) as (l1 & l2 & -> & _ & _ & Hev).
    split; [|exact Hev]. apply in_or_app. right. left. reflexivity.
Qed.

Lemma get_event_by_id_spec_witness :
  get_event_by_id (events tie_store) "c"
  = Ok (Some (new_event "c" "Second" "" (VDatetime nine) (VDatetime ten))).
Proof.
  destruct (get_event_by_id_spec "c" (events tie_store)) as (_ & H & _).
  apply (H [new_event "a" "First" "" (VDatetime nine) (VDatetime ten);
            new_event "b" "Early" "" (VDatetime eight) (VDatetime nine)]
           _ []).
  - reflexivity.
  - repeat constructor; discriminate.
  - reflexivity.
Defined.

(** ** Unknown identifiers *)

Lemma delete_unknown_id_aux event_id io st :
  id_unused event_id (events st) ->
  delete_event event_id io st
  = (not_found ("Event with ID '" ++ event_id ++ "' not found."), st).
Proof.
  intros H.
  unfold delete_event, delete_event_body, delete_in_memory, bind, lift,
    get_events, raise.
  rewrite (find_event_unused _ _ H). reflexivity.
Qed.

(** X2: deleting an identifier that no event of the collection has is
    answered with 404 and a message that names the identifier, whatever the
    state of the disk; the collection and the file are unchanged. *)
Theorem delete_unknown_id :
  forall (event_id : string) (io : disk) (st : store),
    id_unused event_id (events st) ->
    delete_event event_id io st
    = (not_found ("Event with ID '" ++ event_id ++ "' not found."), st).
Proof.
  intros event_id io st H. apply delete_unknown_id_aux. exact H.
Qed.

Lemma delete_unknown_id_witness :
  delete_event "id-9" (DiskFails FEmpty) standup_store
  = (not_found "Event with ID 'id-9' not found.", standup_store).
Proof.
  apply (delete_unknown_id "id-9" (DiskFails FEmpty) standup_store).
  repeat constructor. discriminate.
Defined.

(** X3: an update with a body that passes validation, sent for an
    identifier that no event has, is answered with 404 and changes
    nothing. *)
Theorem update_unknown_id :
  forall (event_id : string) (io : disk) (d : dict) (st : store),
    d <> [] ->
    is_valid_of (validate_event_data d true) = true ->
    id_unused event_id (events st) ->
    update_event event_id io (VDict d) st
    = (not_found ("Event with ID '" ++ event_id ++ "' not found."), st).
Proof.
  intros event_id io d st Hne Hvalid Hid.
  unfold update_event, update_event_body, update_in_memory.
  replace (truthy (VDict d)) with true by (destruct d; [tauto|reflexivity]).
  cbn [negb].
  destruct (validate_event_data d true) as [[[v errs] ps] pe].
  cbn [is_valid_of] in Hvalid. subst v. cbn [negb].
  unfold bind, lift, get_events, raise.
  rewrite (find_event_unused _ _ Hid). reflexivity.
Qed.

Lemma update_unknown_id_witness :
  update_event "id-9" DiskOk (VDict [("title", VStr "Y")]) standup_store
  = (not_found "Event with ID 'id-9' not found.", standup_store).
Proof.
  apply (update_unknown_id "id-9" DiskOk [("title", VStr "Y")] standup_store).
  - discriminate.
  - reflexivity.
  - repeat constructor. discriminate.
Defined.

(** ** What the validator accepts *)

Lemma no_errors_app (a b : list string) :
  no_errors (a ++ b) = no_errors a && no_errors b.
Proof. destruct a; reflexivity. Qed.

Lemma no_missing_errors d : no_errors (missing_errors d) = all_present d.
Proof.
  unfold missing_errors, all_present, required_fields.
  cbn [flat_map forallb].
  destruct (dict_mem d "title"), (dict_mem d "description"),
    (dict_mem d "start_time"), (dict_mem d "end_time"); reflexivity.
Qed.

Lemma no_title_errors d : no_errors (title_errors d) = valid_title d.
Proof.
  unfold title_errors, valid_title.
  destruct (dict_get d "title") as [[| | |s| | |]|]; try reflexivity.
  destruct (String.eqb (strip s) ""); reflexivity.
Qed.

Lemma no_description_errors d :
  no_errors (description_errors d) = valid_description d.
Proof.
  unfold description_errors, valid_description.
  destruct (dict_get d "description") as [[| | |s| | |]|]; reflexivity.
Qed.

Lemma no_time_errors d k :
  no_errors (fst (validate_time d k)) = time_accepted d k.
Proof.
  unfold validate_time, time_accepted.
  destruct (dict_get d k) as [[| | |s| | |]|]; try reflexivity.
  destruct (fromisoformat s); reflexivity.
Qed.

Lemma title_errors_eq d :
  title_errors d
  = if valid_title d then [] else ["Title must be a non-empty string."].
Proof.
  unfold title_errors, valid_title.
  destruct (dict_get d "title") as [[| | |s| | |]|]; try reflexivity.
  destruct (String.eqb (strip s) ""); reflexivity.
Qed.

Lemma description_errors_eq d :
  description_errors d
  = if valid_description d then [] else ["Description must be a string."].
Proof.
  unfold description_errors, valid_description.
  destruct (dict_get d "description") as [[| | |s| | |]|]; reflexivity.
Qed.

Lemma time_errors_eq d k :
  fst (validate_time d k)
  = match dict_get d k with
    | None | Some VNone => []
    | Some (VStr s) =>
        match fromisoformat s with
        | Some _ => []
        | None => [invalid_format_error k]
        end
    | Some _ => [k ++ " must be a string."]
    end.
Proof.
  unfold validate_time.
  destruct (dict_get d k) as [[| | |s| | |]|]; try reflexivity.
  destruct (fromisoformat s); reflexivity.
Qed.

(** X4: the validator accepts a body exactly when every check passes: in
    creation mode the four fields are present; a title, when present, is a
    string that is not blank; a description, when present, is a string; a
    time, when present and not null, is a string that [fromisoformat]
    accepts.  In creation mode the error list is one message for each
    missing field, in the order title, description, start_time, end_time,
    followed by the errors the update mode reports; these are, in this
    order, the message of the title, the message of the description, the
    message of the start time and the message of the end time, each only
    when its check fails. *)
Theorem validator_accepts :
  forall (d : dict) (is_update : bool),
    is_valid_of (validate_event_data d is_update)
    = (is_update || all_present d) && valid_title d && valid_description d
      && time_accepted d "start_time" && time_accepted d "end_time"
    /\ errors_of (validate_event_data d false)
       = ((if dict_mem d "title" then []
           else ["Missing required field: 'title'"])
          ++ (if dict_mem d "description" then []
              else ["Missing required field: 'description'"])
          ++ (if dict_mem d "start_time" then []
              else ["Missing required field: 'start_time'"])
          ++ (if dict_mem d "end_time" then []
              else ["Missing required field: 'end_time'"])
          ++ errors_of (validate_event_data d true))%list
    /\ errors_of (validate_event_data d true)
       = ((if valid_title d then []
           else ["Title must be a non-empty string."])
          ++ (if valid_description d then []
              else ["Description must be a string."])
          ++ match dict_get d "start_time" with
             | None | Some VNone => []
             | Some (VStr s) =>
                 match fromisoformat s with
                 | Some _ => []
                 | None =>
                     [("Invalid start_time format. "
                       ++ "Use ISO 8601 (YYYY-MM-DDTHH:MM:SS).")%string]
                 end
             | Some _ => ["start_time must be a string."]
             end
          ++ match dict_get d "end_time" with
             | None | Some VNone => []
             | Some (VStr s) =>
                 match fromisoformat s with
                 | Some _ => []
                 | None =>
                     [("Invalid end_time format. "
                       ++ "Use ISO 8601 (YYYY-MM-DDTHH:MM:SS).")%string]
                 end
             | Some _ => ["end_time must be a string."]
             end)%list.
Proof.
  intros d is_update. split; [|split].
  - rewrite validate_event_data_eq. cbv zeta. unfold is_valid_of.
    change (match ?l with [] => true | _ :: _ => false end)
      with (no_errors l).
    rewrite !no_errors_app, no_title_errors, no_description_errors,
      !no_time_errors.
    destruct is_update; [reflexivity|]. rewrite no_missing_errors.
    reflexivity.
  - rewrite !validate_event_data_eq. cbv zeta. unfold errors_of.
    unfold missing_errors, required_fields. cbn [flat_map].
    rewrite app_nil_r. cbn [app]. rewrite <- !app_assoc.
    cbn [append]. reflexivity.
  - rewrite validate_event_data_eq. cbv zeta. unfold errors_of.
    cbn [app]. rewrite title_errors_eq, description_errors_eq,
      !time_errors_eq.
    rewrite <- !app_assoc. reflexivity.
Qed.

(** ** Requests rejected before any change *)

(** X5: a creation or an update whose body is empty or false is answered
    with 400 and "Request body must be JSON."; one whose body fails
    validation is answered with 400 and all the validation messages joined
    by ", ".  In both cases the collection and the file are unchanged, and
    for an update this holds whether or not the identifier exists. *)
Theorem rejected_body_changes_nothing :
  forall (uuid event_id : string) (io : disk) (st : store),
    (forall data,
        truthy data = false ->
        create_event uuid io data st
        = (bad_request "Request body must be JSON.", st)
        /\ update_event event_id io data st
           = (bad_request "Request body must be JSON.", st))
    /\ (forall d,
        d <> [] ->
        is_valid_of (validate_event_data d false) = false ->
        create_event uuid io (VDict d) st
        = (bad_request (join ", " (errors_of (validate_event_data d false))),
           st))
    /\ (forall d,
        d <> [] ->
        is_valid_of (validate_event_data d true) = false ->
        update_event event_id io (VDict d) st
        = (bad_request (join ", " (errors_of (validate_event_data d true))),
           st)).
Proof.
  intros uuid event_id io st. split; [|split].
  - intros data H. split.
    + unfold create_event, create_event_body, create_in_memory, bind.
      rewrite H. reflexivity.
    + unfold update_event, update_event_body, update_in_memory, bind.
      rewrite H. reflexivity.
  - intros d Hne H.
    unfold create_event, create_event_body, create_in_memory, bind.
    replace (truthy (VDict d)) with true by (destruct d; [tauto|reflexivity]).
    cbn [negb].
    destruct (validate_event_data d false) as [[[v errs] ps] pe].
    cbn [is_valid_of errors_of] in *. subst v. reflexivity.
  - intros d Hne H.
    unfold update_event, update_event_body, update_in_memory, bind.
    replace (truthy (VDict d)) with true by (destruct d; [tauto|reflexivity]).
    cbn [negb].
    destruct (validate_event_data d true) as [[[v errs] ps] pe].
    cbn [is_valid_of errors_of] in *. subst v. reflexivity.
Qed.

Lemma rejected_body_changes_nothing_witness :
  update_event "id-1" DiskOk
    (VDict [("title", VStr "  "); ("end_time", VStr "noon")]) standup_store
  = (bad_request
       ("Title must be a non-empty string., "
        ++ "Invalid end_time format. Use ISO 8601 (YYYY-MM-DDTHH:MM:SS)."),
     standup_store).
Proof.
  destruct (rejected_body_changes_nothing "u" "id-1" DiskOk standup_store)
    as (_ & _ & H).
  apply (H [("title", VStr "  "); ("end_time", VStr "noon")]).
  - discriminate.
  - reflexivity.
Defined.

(** ** Creation *)

Lemma valid_create_body_validate (d : dict) a b :
  valid_create_body d = true ->
  time_text d "start_time" = Some a -> time_text d "end_time" = Some b ->
  d <> []
  /\ validate_event_data d false = (true, [], Some a, Some b)
  /\ stripped d "title" = Ok (strip (text_of d "title"))
  /\ stripped d "description" = Ok (strip (text_of d "description")).
Proof.
  unfold valid_create_body, time_text, text_of, stripped, subscript.
  intros Hv Ha Hb. split; [intros ->; discriminate|].
  rewrite validate_event_data_eq. cbv zeta.
  unfold missing_errors, required_fields, title_errors, description_errors,
    validate_time, dict_mem.
  cbn [flat_map].
  destruct (dict_get d "title") as [[| | |t| | |]|]; try discriminate.
  destruct (dict_get d "description") as [[| | |ds| | |]|]; try discriminate.
  destruct (dict_get d "start_time") as [[| | |s| | |]|]; try discriminate.
  destruct (dict_get d "end_time") as [[| | |e| | |]|]; try discriminate.
  rewrite Ha, Hb. rewrite Ha, Hb in Hv.
  rewrite andb_true_r in Hv. apply negb_true_iff in Hv. rewrite Hv.
  repeat split.
Qed.

(** X6: a creation whose body holds a title that is not blank, a
    description and two times that parse, with the start strictly before
    the end, is answered with 201 when the save succeeds.  The new event
    stands at the end of the collection, with the generated identifier, the
    title and the description trimmed and the two parsed datetimes; the
    file holds the new collection; the response carries the event with its
    times in [isoformat]. *)
Theorem create_event_succeeds :
  forall (uuid : string) (d : dict) (st : store) (a b : datetime),
    valid_create_body d = true ->
    time_text d "start_time" = Some a ->
    time_text d "end_time" = Some b ->
    datetime_cmp a b = Some Lt ->
    let title := strip (text_of d "title") in
    let description := strip (text_of d "description") in
    let evs :=
      (events st
       ++ [new_event uuid title description (VDatetime a) (VDatetime b)])%list
    in
    save_fails DiskOk evs = false ->
    create_event uuid DiskOk (VDict d) st
    = (mkResponse 201
         (VDict [("message", VStr "Event created successfully");
                 ("event",
                  VDict (new_event uuid title description
                           (VStr (isoformat a)) (VStr (isoformat b))))]),
       mkStore evs (FJson (VList (map VDict (map serializable_event evs))))).
Proof.
  intros uuid d st a b Hv Ha Hb Hlt title description evs Hsave.
  destruct (valid_create_body_validate d a b Hv Ha Hb)
    as (Hne & Hval & Ht & Hd).
  unfold create_event, create_event_body, create_in_memory.
  replace (truthy (VDict d)) with true by (destruct d; [tauto|reflexivity]).
  cbn [negb]. rewrite Hval. cbn [negb as_value].
  unfold bind, lift, raise, ret, get_events, set_events.
  unfold value_ge, value_cmp. rewrite Hlt. cbn [res_bind].
  rewrite Ht, Hd. cbn [events events_file].
  fold title. fold description. fold evs.
  unfold save_fails in Hsave. apply negb_false_iff in Hsave.
  unfold save_events. rewrite Hsave. reflexivity.
Qed.

Lemma create_event_succeeds_witness :
  status (fst (create_event "id-1" DiskOk standup_body empty_store)) = 201
  /\ events (snd (create_event "id-1" DiskOk standup_body empty_store))
     = [standup "id-1"].
Proof.
  pose proof (create_event_succeeds "id-1"
                [("title", VStr "Standup"); ("description", VStr "Daily sync");
                 ("start_time", VStr "2024-01-01T09:00:00");
                 ("end_time", VStr "2024-01-01T10:00:00")]
                empty_store nine ten eq_refl eq_refl eq_refl eq_refl eq_refl)
    as H.
  unfold standup_body. rewrite H. split; reflexivity.
Defined.

Lemma value_ge_none_r v : value_ge v VNone = Raise TypeError.
Proof. destruct v; reflexivity. Qed.

(** X7: a creation body that passes validation but whose two times cannot
    be ordered is answered with the generic 500 response and changes
    nothing.  This is the case when a time is [null] (the validator takes
    it for a field that was not supplied) and when one time is naive and
    the other carries an offset. *)
Theorem create_with_unordered_times :
  forall (uuid : string) (io : disk) (d : dict) (st : store),
    d <> [] ->
    is_valid_of (validate_event_data d false) = true ->
    dict_get d "start_time" = Some VNone
    \/ dict_get d "end_time" = Some VNone
    \/ (exists a b, time_text d "start_time" = Some a
                    /\ time_text d "end_time" = Some b
                    /\ datetime_cmp a b = None) ->
    create_event uuid io (VDict d) st = (internal_server_error, st).
Proof.
  intros uuid io d st Hne Hvalid Hcase.
  unfold create_event, create_event_body, create_in_memory.
  replace (truthy (VDict d)) with true by (destruct d; [tauto|reflexivity]).
  cbn [negb]. rewrite validate_event_data_eq in *. cbv zeta in *.
  cbn [is_valid_of] in Hvalid. rewrite Hvalid. cbn [negb].
  assert (Hge : value_ge (as_value (snd (validate_time d "start_time")))
                         (as_value (snd (validate_time d "end_time")))
                = Raise TypeError).
  { unfold validate_time, time_text in *.
    destruct Hcase as [H|[H|(a & b & Ha & Hb & Hc)]].
    - rewrite H. reflexivity.
    - rewrite H. apply value_ge_none_r.
    - destruct (dict_get d "start_time") as [[| | |s| | |]|]; try discriminate.
      destruct (dict_get d "end_time") as [[| | |e| | |]|]; try discriminate.
      rewrite Ha, Hb. cbn [snd as_value]. unfold value_ge, value_cmp.
      rewrite Hc. reflexivity. }
  unfold bind, lift. rewrite Hge. reflexivity.
Qed.

Lemma create_with_unordered_times_witness :
  create_event "u" DiskOk
    (VDict [("title", VStr "X"); ("description", VStr "");
            ("start_time", VNone);
            ("end_time", VStr "2024-01-01T09:00:00")]) standup_store
  = (internal_server_error, standup_store).
Proof.
  apply (create_with_unordered_times "u" DiskOk
           [("title", VStr "X"); ("description", VStr "");
            ("start_time", VNone);
            ("end_time", VStr "2024-01-01T09:00:00")] standup_store).
  - discriminate.
  - reflexivity.
  - left. reflexivity.
Defined.

(** ** Trimming and parsing *)

Lemma rstrip_idempotent s : rstrip (rstrip s) = rstrip s.
Proof.
  induction s as [|c s IH]; [reflexivity|].
  cbn [rstrip]. destruct (rstrip s) as [|c' r] eqn:E.
  - destruct (is_space c) eqn:Ec; [reflexivity|].
    cbn [rstrip]. rewrite Ec. reflexivity.
  - change (rstrip (String c (String c' r)))
      with (match rstrip (String c' r) with
            | "" => if is_space c then "" else String c ""
            | String c0 r0 => String c (String c0 r0)
            end).
    rewrite IH. reflexivity.
Qed.

Lemma lstrip_head s :
  lstrip s = "" \/ exists c r, lstrip s = String c r /\ is_space c = false.
Proof.
  induction s as [|c s IH]; [left; reflexivity|].
  cbn [lstrip]. destruct (is_space c) eqn:Ec; [exact IH|].
  right. exists c, s. split; [reflexivity|exact Ec].
Qed.

Lemma rstrip_head c r :
  is_space c = false -> exists r', rstrip (String c r) = String c r'.
Proof.
  intros Hc. cbn [rstrip]. destruct (rstrip r) as [|c' r'].
  - rewrite Hc. exists "". reflexivity.
  - exists (String c' r'). reflexivity.
Qed.

(** Trimming a trimmed string changes nothing. *)
Lemma strip_idempotent s : strip (strip s) = strip s.
Proof.
  unfold strip. destruct (lstrip_head s) as [->|(c & r & -> & Hc)];
    [reflexivity|].
  destruct (rstrip_head c r Hc) as [r' Hr]. rewrite Hr.
  cbn [lstrip]. rewrite Hc. rewrite <- Hr. apply rstrip_idempotent.
Qed.

(** [fromisoformat] only returns datetimes whose fields are in range. *)
Lemma fromisoformat_valid s d :
  fromisoformat s = Some d -> valid_datetime d = true.
Proof.
  unfold fromisoformat, new_datetime.
  destruct (parse_isoformat_date s) as [[[[y m] dd] [|sep tstr]]|];
    try discriminate.
  - destruct (valid_datetime (mkDatetime y m dd 0 0 0 0 None)) eqn:E;
      [|discriminate].
    intros [= <-]. exact E.
  - destruct (parse_isoformat_time tstr) as [[[[[h mi] sec] us] tz]|];
      [|discriminate].
    destruct (valid_datetime (mkDatetime y m dd h mi sec us tz)) eqn:E;
      [|discriminate].
    intros [= <-]. exact E.
Qed.

(** The boolean that the validator returns, check by check. *)
Lemma is_valid_checks (d : dict) (is_update : bool) :
  is_valid_of (validate_event_data d is_update)
  = (is_update || all_present d) && valid_title d && valid_description d
    && time_accepted d "start_time" && time_accepted d "end_time".
Proof.
  rewrite validate_event_data_eq. cbv zeta. unfold is_valid_of.
  change (match ?l with [] => true | _ :: _ => false end) with (no_errors l).
  rewrite !no_errors_app, no_title_errors, no_description_errors,
    !no_time_errors.
  destruct is_update; [reflexivity|]. rewrite no_missing_errors. reflexivity.
Qed.

(** A parsed time that the validator returns comes from a string of the
    body. *)
Lemma validate_time_parsed d k t :
  snd (validate_time d k) = Some t ->
  exists s, dict_get d k = Some (VStr s) /\ fromisoformat s = Some t.
Proof.
  unfold validate_time.
  destruct (dict_get d k) as [[| | |s| | |]|]; try discriminate.
  destruct (fromisoformat s) as [t'|] eqn:E; [|discriminate].
  intros [= <-]. exists s. split; [reflexivity|exact E].
Qed.

(** ** Writing and removing at an index *)

Lemma list_set_app {A} (l1 : list A) (x y : A) (l2 : list A) :
  list_set (l1 ++ x :: l2) (List.length l1) y = (l1 ++ y :: l2)%list.
Proof.
  induction l1 as [|z l1 IH]; cbn; [reflexivity|]. rewrite IH. reflexivity.
Qed.

Lemma pop_app {A} (l1 : list A) (x : A) (l2 : list A) :
  pop (l1 ++ x :: l2) (List.length l1) = (l1 ++ l2)%list.
Proof.
  induction l1 as [|z l1 IH]; cbn; [reflexivity|]. rewrite IH. reflexivity.
Qed.

(** ** Deletion *)

(** X8: deleting an identifier removes the first event that has it and
    nothing else: the events before and after it keep their order.  When
    the save succeeds the answer is 200 with a message that quotes the
    title and the identifier, and the file holds the remaining collection.
    When no other event has the identifier, deleting it again is answered
    with 404. *)
Theorem delete_event_removes_first :
  forall (event_id title : string) (st : store) (l1 l2 : list dict)
         (ev : dict),
    events st = (l1 ++ ev :: l2)%list ->
    id_unused event_id l1 ->
    id_of ev = Some event_id ->
    dict_get ev "title" = Some (VStr title) ->
    save_fails DiskOk (l1 ++ l2) = false ->
    let st' :=
      mkStore (l1 ++ l2)
        (FJson (VList (map VDict (map serializable_event (l1 ++ l2))))) in
    delete_event event_id DiskOk st
    = (mkResponse 200
         (VDict [("message",
                  VStr ("Event '" ++ title ++ "' with ID '" ++ event_id
                        ++ "' deleted successfully"))]), st')
    /\ (id_unused event_id l2 ->
        forall io,
          delete_event event_id io st'
          = (not_found ("Event with ID '" ++ event_id ++ "' not found."),
             st')).
Proof.
  intros event_id title st l1 l2 ev Hevs Hl1 Hev Htitle Hsave st'.
  split.
  - unfold delete_event, delete_event_body, delete_in_memory, bind, lift,
      get_events, set_events, ret.
    rewrite Hevs, (find_event_first _ _ _ _ Hl1 Hev). cbn [Nat.add].
    rewrite pop_app. cbn [events events_file].
    unfold save_fails in Hsave. apply negb_false_iff in Hsave.
    unfold save_events. rewrite Hsave. unfold set_file, subscript.
    cbn [events]. rewrite Htitle. reflexivity.
  - intros Hl2 io. apply delete_unknown_id_aux. subst st'. cbn [events].
    apply Forall_app. split; assumption.
Qed.

Lemma delete_event_removes_first_witness :
  status (fst (delete_event "b" DiskOk tie_store)) = 200
  /\ events (snd (delete_event "b" DiskOk tie_store))
     = [new_event "a" "First" "" (VDatetime nine) (VDatetime ten);
        new_event "c" "Second" "" (VDatetime nine) (VDatetime ten)].
Proof.
  destruct (delete_event_removes_first "b" "Early" tie_store
              [new_event "a" "First" "" (VDatetime nine) (VDatetime ten)]
              [new_event "c" "Second" "" (VDatetime nine) (VDatetime ten)]
              (new_event "b" "Early" "" (VDatetime eight) (VDatetime nine))
              eq_refl
              ltac:(repeat constructor; discriminate)
              eq_refl eq_refl eq_refl) as [H _].
  rewrite H. split; reflexivity.
Defined.

(** ** What an update writes *)

Section UpdateWrites.

Variable P : dict -> Prop.
Variable d : dict.

Hypothesis P_title : forall e s,
  dict_get d "title" = Some (VStr s) -> String.eqb (strip s) "" = false ->
  P e -> P (dict_set e "title" (VStr (strip s))).

Hypothesis P_description : forall e s,
  dict_get d "description" = Some (VStr s) ->
  P e -> P (dict_set e "description" (VStr (strip s))).

Hypothesis P_time : forall e k s t,
  k = "start_time" \/ k = "end_time" ->
  dict_get d k = Some (VStr s) -> fromisoformat s = Some t ->
  P e -> P (dict_set e k (VDatetime t)).

Lemma assign_stripped_title_keeps e e1 :
  valid_title d = true ->
  assign_stripped d "title" e = Ok e1 -> P e -> P e1.
Proof.
  unfold valid_title, assign_stripped, stripped, subscript, dict_mem.
  destruct (dict_get d "title") as [[| | |s| | |]|] eqn:E;
    cbn; try discriminate.
  - intros Hv [= <-]. apply P_title; [reflexivity|].
    apply negb_true_iff. exact Hv.
  - intros _ [= <-]. trivial.
Qed.

Lemma assign_stripped_description_keeps e e1 :
  assign_stripped d "description" e = Ok e1 -> P e -> P e1.
Proof.
  unfold assign_stripped, stripped, subscript, dict_mem.
  destruct (dict_get d "description") as [[| | |s| | |]|] eqn:E;
    cbn; try discriminate.
  - intros [= <-]. apply P_description. reflexivity.
  - intros [= <-]. trivial.
Qed.

Lemma assign_parsed_keeps e k :
  k = "start_time" \/ k = "end_time" ->
  P e -> P (assign_parsed (snd (validate_time d k)) k e).
Proof.
  intros Hk He. unfold assign_parsed.
  destruct (snd (validate_time d k)) as [t|] eqn:E; [|exact He].
  destruct (validate_time_parsed d k t E) as (s & Hs & Ht).
  apply (P_time e k s t Hk Hs Ht He).
Qed.

(** Whatever its outcome, [update_in_memory] leaves the file alone, and the
    collection either as it was or with the event it found replaced by an
    event that the assignments of the body produce from it. *)
Lemma update_in_memory_writes event_id st r st1 :
  update_in_memory event_id (VDict d) st = (r, st1) ->
  events_file st1 = events_file st
  /\ (events st1 = events st
      \/ exists i old e',
           find_event (events st) event_id 0 = Ok (Some (i, old))
           /\ events st1 = list_set (events st) i e'
           /\ (P old -> P e')
           /\ (forall ev, r = Ok ev -> ev = e')).
Proof.
  unfold update_in_memory.
  destruct (truthy (VDict d)); cbn [negb];
    [|intros [= <- <-]; split; [reflexivity|left; reflexivity]].
  pose proof (is_valid_checks d true) as Hchk.
  pose proof (validate_event_data_eq d true) as Heq. cbv zeta in Heq.
  destruct (validate_event_data d true) as [[[v errs] ps] pe].
  injection Heq as _ _ -> ->. cbn [is_valid_of] in Hchk.
  destruct v; cbn [negb];
    [|intros [= <- <-]; split; [reflexivity|left; reflexivity]].
  symmetry in Hchk. rewrite !andb_true_iff in Hchk.
  destruct Hchk as [[[[_ Ht] _] _] _].
  unfold bind, lift, raise, ret, get_events, set_events.
  destruct (find_event (events st) event_id 0) as [[[i old]|]|] eqn:Hf;
    try (intros [= <- <-]; split; [reflexivity|left; reflexivity]).
  destruct (assign_stripped d "title" old) as [e1|] eqn:H1;
    [|intros [= <- <-]; split; [reflexivity|left; reflexivity]].
  cbn [events events_file].
  destruct (assign_stripped d "description" e1) as [e2|] eqn:H2.
  2:{ intros [= <- <-]. split; [reflexivity|]. right.
      exists i, old, e1. repeat split; try discriminate.
      apply (assign_stripped_title_keeps old e1 Ht H1). }
  cbn [events events_file].
  set (e4 := assign_parsed (snd (validate_time d "end_time")) "end_time"
               (assign_parsed (snd (validate_time d "start_time"))
                              "start_time" e2)).
  assert (He4 : P old -> P e4).
  { intros Hold. subst e4.
    apply assign_parsed_keeps; [right; reflexivity|].
    apply assign_parsed_keeps; [left; reflexivity|].
    apply (assign_stripped_description_keeps e1 e2 H2).
    apply (assign_stripped_title_keeps old e1 Ht H1 Hold). }
  intros Hrun. split.
  - destruct (subscript e4 "start_time"); cbn in Hrun;
      [|injection Hrun as <- <-; reflexivity].
    destruct (subscript e4 "end_time"); cbn in Hrun;
      [|injection Hrun as <- <-; reflexivity].
    destruct (value_ge a a0) as [[|]|]; cbn in Hrun;
      injection Hrun as <- <-; reflexivity.
  - right. exists i, old, e4. split; [reflexivity|].
    destruct (subscript e4 "start_time"); cbn in Hrun;
      [|injection Hrun as <- <-; repeat split; [exact He4|discriminate]].
    destruct (subscript e4 "end_time"); cbn in Hrun;
      [|injection Hrun as <- <-; repeat split; [exact He4|discriminate]].
    destruct (value_ge a a0) as [[|]|]; cbn in Hrun;
      injection Hrun as <- <-; repeat split;
      try exact He4; try discriminate.
    intros ev [= <-]. reflexivity.
Qed.

End UpdateWrites.

Lemma save_events_events io evs st :
  events (snd (save_events io evs st)) = events st.
Proof.
  unfold save_events. destruct io; [|reflexivity].
  destruct (forallb _ _); reflexivity.
Qed.

(** After [update_in_memory], [update_event] only writes the file. *)
Lemma update_event_events event_id io data st :
  events (snd (update_event event_id io data st))
  = events (snd (update_in_memory event_id data st)).
Proof.
  unfold update_event, update_event_body, bind, get_events.
  destruct (update_in_memory event_id data st) as [[ev|e] st1].
  - pose proof (save_events_events io (events st1) st1) as Hs.
    destruct (save_events io (events st1) st1) as [[[]|e] st2];
      cbn [snd] in Hs.
    + unfold lift, ret. destruct (response_event ev) as [r|e];
        [exact Hs|destruct e; exact Hs].
    + destruct e; exact Hs.
  - destruct e; reflexivity.
Qed.

Lemma update_in_memory_not_dict event_id data st :
  (forall d, data <> VDict d) ->
  snd (update_in_memory event_id data st) = st.
Proof.
  intros H. unfold update_in_memory.
  destruct (truthy data); [|reflexivity].
  destruct data; try reflexivity. contradiction (H d). reflexivity.
Qed.

Lemma nth_error_replaced {A} (l1 l2 : list A) (x y : A) j :
  j <> List.length l1 ->
  nth_error (l1 ++ y :: l2) j = nth_error (l1 ++ x :: l2) j.
Proof.
  revert j. induction l1 as [|z l1 IH]; intros [|j] Hj; cbn in *;
    try reflexivity; try lia.
  apply IH. lia.
Qed.

(** X9: whatever its body and its outcome, an update never adds or removes
    an event, never changes the [id] entry of any event, and never changes
    an event whose identifier is not the one in the request. *)
Theorem update_event_keeps_ids :
  forall (event_id : string) (io : disk) (data : value) (st : store),
    let st' := snd (update_event event_id io data st) in
    List.length (events st') = List.length (events st)
    /\ map (fun e => dict_get e "id") (events st')
       = map (fun e => dict_get e "id") (events st)
    /\ (forall j e,
          nth_error (events st) j = Some e -> id_of e <> Some event_id ->
          nth_error (events st') j = Some e).
Proof.
  intros event_id io data st st'. subst st'.
  rewrite update_event_events.
  assert (Hsame : events (snd (update_in_memory event_id data st)) = events st
                  -> List.length
                       (events (snd (update_in_memory event_id data st)))
                     = List.length (events st)
                     /\ map (fun e => dict_get e "id")
                            (events (snd (update_in_memory event_id data st)))
                        = map (fun e => dict_get e "id") (events st)
                     /\ (forall j e,
                           nth_error (events st) j = Some e ->
                           id_of e <> Some event_id ->
                           nth_error
                             (events (snd (update_in_memory event_id data st)))
                             j = Some e)).
  { intros ->. repeat split. intros j e H _. exact H. }
  destruct data as [| | | | | |d];
    try (apply Hsame; rewrite update_in_memory_not_dict;
         [reflexivity|discriminate]).
  destruct (find_event (events st) event_id 0) as [[[i old]|]|] eqn:Hf.
  - destruct (update_in_memory event_id (VDict d) st) as [r st1] eqn:Hrun.
    destruct (update_in_memory_writes
                (fun e => dict_get e "id" = dict_get old "id") d
                ltac:(intros; cbv beta in *;
                      rewrite dict_get_set_other by discriminate;
                      assumption)
                ltac:(intros; cbv beta in *;
                      rewrite dict_get_set_other by discriminate;
                      assumption)
                ltac:(intros e k s t [-> | ->] ? ? ?; cbv beta in *;
                      rewrite dict_get_set_other by discriminate;
                      assumption)
                event_id st r st1 Hrun)
      as [_ [Heq|(i' & old' & e' & Hf' & Hset & Hid & _)]].
    + apply Hsame. exact Heq.
    + rewrite Hf in Hf'. injection Hf' as <- <-.
      specialize (Hid eq_refl). cbn [snd] in *. rewrite Hset.
      destruct (find_event_found _ _ _ _ _ Hf)
        as (l1 & l2 & Hevs & -> & _ & Hold).
      rewrite Hevs. cbn [Nat.add]. rewrite list_set_app.
      split; [|split].
      * rewrite !length_app. reflexivity.
      * rewrite !map_app. cbn [map]. rewrite Hid. reflexivity.
      * intros j e Hj Hne. rewrite <- Hj.
        apply nth_error_replaced. intros ->.
        rewrite nth_error_app2, Nat.sub_diag in Hj by lia.
        cbn in Hj. injection Hj as <-. contradiction.
  - apply Hsame.
    destruct (update_in_memory event_id (VDict d) st) as [r st1] eqn:Hrun.
    destruct (update_in_memory_writes (fun _ => True) d
                ltac:(trivial) ltac:(trivial) ltac:(trivial)
                event_id st r st1 Hrun)
      as [_ [Heq|(i' & old' & e' & Hf' & _)]];
      [exact Heq|rewrite Hf in Hf'; discriminate].
  - apply Hsame.
    destruct (update_in_memory event_id (VDict d) st) as [r st1] eqn:Hrun.
    destruct (update_in_memory_writes (fun _ => True) d
                ltac:(trivial) ltac:(trivial) ltac:(trivial)
                event_id st r st1 Hrun)
      as [_ [Heq|(i' & old' & e' & Hf' & _)]];
      [exact Heq|rewrite Hf in Hf'; discriminate].
Qed.

(** ** Updates rejected for their times *)

(** X10: when a valid update body makes the start time of the merged event
    equal to or later than its end time, the answer is 400 with the
    ordering message and nothing is saved, but the collection holds the
    merged event in the place of the old one: the check comes after the
    assignments and nothing undoes them. *)
Theorem rejected_update_keeps_merge :
  forall (event_id : string) (io : disk) (d : dict) (st : store)
         (i : nat) (old : dict) (a b : datetime) (c : comparison),
    d <> [] ->
    valid_update_body d = true ->
    find_event (events st) event_id 0 = Ok (Some (i, old)) ->
    dict_get (merged_event d old) "start_time" = Some (VDatetime a) ->
    dict_get (merged_event d old) "end_time" = Some (VDatetime b) ->
    datetime_cmp a b = Some c -> c <> Lt ->
    update_event event_id io (VDict d) st
    = (bad_request
         "Updated start time must be strictly before updated end time.",
       mkStore (list_set (events st) i (merged_event d old))
               (events_file st)).
Proof.
  intros event_id io d st i old a b c Hne Hvalid Hfind Ha Hb Hcmp Hc.
  destruct (valid_update_body_validate d Hvalid) as (Hv & Ht & Hd & Hs & He).
  unfold update_event, update_event_body, update_in_memory.
  replace (truthy (VDict d)) with true by (destruct d; [tauto|reflexivity]).
  cbn [negb]. rewrite Hv. cbn [negb].
  unfold bind, lift, raise, ret, get_events, set_events.
  rewrite Hfind, Ht, Hd, Hs, He. cbn [events events_file].
  fold (merged_event d old). unfold subscript. rewrite Ha, Hb.
  unfold value_ge, value_cmp. rewrite Hcmp.
  destruct c; [reflexivity|contradiction|reflexivity].
Qed.

Lemma rejected_update_keeps_merge_witness :
  update_event "id-1" DiskOk
    (VDict [("title", VStr "Late"); ("end_time", VStr "2024-01-01T09:00:00")])
    standup_store
  = (bad_request
       "Updated start time must be strictly before updated end time.",
     mkStore [new_event "id-1" "Late" "Daily sync"
                (VDatetime nine) (VDatetime nine)]
             (events_file standup_store)).
Proof.
  apply (rejected_update_keeps_merge "id-1" DiskOk
           [("title", VStr "Late"); ("end_time", VStr "2024-01-01T09:00:00")]
           standup_store 0%nat (standup "id-1") nine nine Eq);
    try reflexivity; discriminate.
Defined.

(** ** The shape of stored events *)

Lemma typed_event_set (e : dict) k v :
  typed_event e -> In k ["title"; "description"; "start_time"; "end_time"] ->
  (k = "title" -> exists t, v = VStr t /\ strip t = t /\ t <> "") ->
  (k = "description" -> exists s, v = VStr s /\ strip s = s) ->
  (k = "start_time" \/ k = "end_time" ->
   exists a, v = VDatetime a /\ valid_datetime a = true) ->
  typed_event (dict_set e k v).
Proof.
  intros (Hkeys & Hid & Ht & Hd & Hs & He) Hk Hvt Hvd Hvtime.
  assert (Hmem : dict_mem e k = true).
  { cbn [In] in Hk.
    destruct Ht as (? & Ht & _), Hd as (? & Hd & _),
      Hs as (? & Hs & _), He as (? & He & _).
    destruct Hk as [<-|[<-|[<-|[<-|[]]]]];
      eapply dict_mem_get; eassumption. }
  unfold typed_event. rewrite (dict_set_keys e k v Hmem).
  split; [exact Hkeys|].
  cbn [In] in Hk. destruct Hk as [<-|[<-|[<-|[<-|[]]]]].
  - destruct (Hvt eq_refl) as (t & -> & H1 & H2).
    rewrite dict_get_set_same, !dict_get_set_other by discriminate.
    repeat split; try assumption. exists t. auto.
  - destruct (Hvd eq_refl) as (s & -> & H1).
    rewrite dict_get_set_same, !dict_get_set_other by discriminate.
    repeat split; try assumption. exists s. auto.
  - destruct (Hvtime (or_introl eq_refl)) as (a & -> & H1).
    rewrite dict_get_set_same, !dict_get_set_other by discriminate.
    repeat split; try assumption. exists a. auto.
  - destruct (Hvtime (or_intror eq_refl)) as (a & -> & H1).
    rewrite dict_get_set_same, !dict_get_set_other by discriminate.
    repeat split; try assumption. exists a. auto.
Qed.

Lemma typed_new_event id t s a b :
  String.eqb (strip t) "" = false ->
  valid_datetime a = true -> valid_datetime b = true ->
  typed_event (new_event id (strip t) (strip s) (VDatetime a) (VDatetime b)).
Proof.
  intros Ht Ha Hb. unfold typed_event, new_event.
  split; [reflexivity|]. split; [exists id; reflexivity|].
  split; [|split; [|split]].
  - exists (strip t). split; [reflexivity|].
    split; [apply strip_idempotent|]. apply String.eqb_neq. exact Ht.
  - exists (strip s). split; [reflexivity|apply strip_idempotent].
  - exists a. split; [reflexivity|exact Ha].
  - exists b. split; [reflexivity|exact Hb].
Qed.

(** What [create_in_memory] does to the collection: nothing when it
    raises, one typed event more at the end when it returns. *)
Lemma create_in_memory_writes uuid data st r st1 :
  create_in_memory uuid data st = (r, st1) ->
  events_file st1 = events_file st
  /\ match r with
     | Raise _ => events st1 = events st
     | Ok ev => events st1 = (events st ++ [ev])%list /\ typed_event ev
     end.
Proof.
  unfold create_in_memory.
  destruct (truthy data); cbn [negb];
    [|intros [= <- <-]; split; reflexivity].
  destruct data as [| | | | | |d];
    try (intros [= <- <-]; split; reflexivity).
  pose proof (is_valid_checks d false) as Hchk.
  pose proof (validate_event_data_eq d false) as Heq. cbv zeta in Heq.
  destruct (validate_event_data d false) as [[[v errs] ps] pe].
  injection Heq as _ _ Hps Hpe. cbn [is_valid_of] in Hchk.
  destruct v; cbn [negb]; [|intros [= <- <-]; split; reflexivity].
  symmetry in Hchk. rewrite !andb_true_iff in Hchk.
  destruct Hchk as [[[[_ Ht] _] _] _].
  unfold bind, lift, raise, ret, get_events, set_events.
  destruct ps as [a|]; [|intros [= <- <-]; split; reflexivity].
  destruct pe as [b|]; cbn [as_value];
    [|intros [= <- <-]; split; reflexivity].
  destruct (value_ge (VDatetime a) (VDatetime b)) as [[|]|];
    try (intros [= <- <-]; split; reflexivity).
  unfold stripped, subscript. unfold valid_title in Ht.
  destruct (dict_get d "title") as [[| | |t| | |]|];
    try (intros [= <- <-]; split; reflexivity).
  destruct (dict_get d "description") as [[| | |s| | |]|];
    try (intros [= <- <-]; split; reflexivity).
  cbn [res_bind events events_file]. intros [= <- <-].
  split; [reflexivity|]. split; [reflexivity|].
  apply typed_new_event.
  - apply negb_true_iff. exact Ht.
  - symmetry in Hps. destruct (validate_time_parsed _ _ _ Hps) as (x & _ & Hx).
    apply (fromisoformat_valid _ _ Hx).
  - symmetry in Hpe. destruct (validate_time_parsed _ _ _ Hpe) as (x & _ & Hx).
    apply (fromisoformat_valid _ _ Hx).
Qed.

Lemma create_event_events uuid io data st :
  events (snd (create_event uuid io data st))
  = events (snd (create_in_memory uuid data st)).
Proof.
  unfold create_event, create_event_body, bind, get_events.
  destruct (create_in_memory uuid data st) as [[ev|e] st1].
  - pose proof (save_events_events io (events st1) st1) as Hs.
    destruct (save_events io (events st1) st1) as [[[]|e] st2];
      cbn [snd] in Hs.
    + unfold lift, ret. destruct (response_event ev) as [r|e];
        [exact Hs|destruct e; exact Hs].
    + destruct e; exact Hs.
  - destruct e; reflexivity.
Qed.

Lemma delete_event_events event_id io st :
  events (snd (delete_event event_id io st)) = events st
  \/ exists i, events (snd (delete_event event_id io st)) = pop (events st) i.
Proof.
  unfold delete_event, delete_event_body, delete_in_memory, bind, lift,
    get_events, set_events, raise, ret.
  destruct (find_event (events st) event_id 0) as [[[i old]|]|];
    [|left; reflexivity|left; destruct e; reflexivity].
  right. exists i. cbn [events events_file].
  set (st1 := mkStore (pop (events st) i) (events_file st)).
  pose proof (save_events_events io (pop (events st) i) st1) as Hs.
  destruct (save_events io (pop (events st) i) st1) as [[[]|e] st2];
    cbn [snd] in Hs.
  - destruct (subscript old "title") as [t|e];
      [exact Hs|destruct e; exact Hs].
  - destruct e; exact Hs.
Qed.

Lemma list_events_store st : snd (list_events st) = st.
Proof.
  unfold list_events, list_events_body, bind, lift, get_events, ret.
  destruct (sorted _ (events st)) as [l|e]; [|reflexivity].
  destruct (mapM response_event l); reflexivity.
Qed.

Lemma Forall_pop {A} (Q : A -> Prop) (l : list A) i :
  Forall Q l -> Forall Q (pop l i).
Proof.
  intros H. revert i. induction H as [|x l Hx Hl IH]; intros [|i]; cbn;
    try constructor; auto.
Qed.

Lemma Forall_list_set {A} (Q : A -> Prop) (l : list A) i x :
  Forall Q l -> Q x -> Forall Q (list_set l i x).
Proof.
  intros H Hx. revert i. induction H as [|y l Hy Hl IH]; intros [|i]; cbn;
    try constructor; auto.
Qed.

Lemma find_event_in event_id evs i k ev :
  find_event evs event_id i = Ok (Some (k, ev)) -> In ev evs.
Proof.
  intros H. destruct (find_event_found _ _ _ _ _ H) as (l1 & l2 & -> & _).
  apply in_or_app. right. left. reflexivity.
Qed.

(** One request keeps the events typed, whatever its outcome. *)
Lemma update_event_typed event_id io data st :
  Forall typed_event (events st) ->
  Forall typed_event (events (snd (update_event event_id io data st))).
Proof.
  intros H. rewrite update_event_events.
  destruct data as [| | | | | |d];
    try (rewrite update_in_memory_not_dict; [exact H|discriminate]).
  destruct (update_in_memory event_id (VDict d) st) as [r st1] eqn:Hrun.
  destruct (update_in_memory_writes typed_event d) with
    (event_id := event_id) (st := st) (r := r) (st1 := st1)
    as [_ [Heq|(i & old & e' & Hf & Hset & Hkeep & _)]].
  - intros e s Hs Hne He. apply typed_event_set; try exact He.
    + cbn [In]. tauto.
    + intros _. exists (strip s). split; [reflexivity|].
      split; [apply strip_idempotent|apply String.eqb_neq; exact Hne].
    + discriminate.
    + intros [?|?]; discriminate.
  - intros e s Hs He. apply typed_event_set; try exact He.
    + cbn [In]. tauto.
    + discriminate.
    + intros _. exists (strip s). split; [reflexivity|apply strip_idempotent].
    + intros [?|?]; discriminate.
  - intros e k s t Hk Hs Ht He. apply typed_event_set; try exact He.
    + cbn [In]. destruct Hk as [-> | ->]; tauto.
    + destruct Hk as [-> | ->]; discriminate.
    + destruct Hk as [-> | ->]; discriminate.
    + intros _. exists t. split; [reflexivity|].
      apply (fromisoformat_valid _ _ Ht).
  - exact Hrun.
  - cbn [snd]. rewrite Heq. exact H.
  - cbn [snd]. rewrite Hset. apply Forall_list_set; [exact H|].
    apply Hkeep. rewrite Forall_forall in H. apply H.
    apply (find_event_in _ _ _ _ _ Hf).
Qed.

Lemma create_event_typed uuid io data st :
  Forall typed_event (events st) ->
  Forall typed_event (events (snd (create_event uuid io data st))).
Proof.
  intros H. rewrite create_event_events.
  destruct (create_in_memory uuid data st) as [r st1] eqn:Hrun.
  destruct (create_in_memory_writes _ _ _ _ _ Hrun) as [_ Hw].
  cbn [snd]. destruct r as [ev|e].
  - destruct Hw as [-> Hev]. apply Forall_app. split; [exact H|].
    constructor; [exact Hev|constructor].
  - rewrite Hw. exact H.
Qed.

Lemma delete_event_typed event_id io st :
  Forall typed_event (events st) ->
  Forall typed_event (events (snd (delete_event event_id io st))).
Proof.
  intros H. destruct (delete_event_events event_id io st) as [->|[i ->]];
    [exact H|apply Forall_pop; exact H].
Qed.

(** X11: every event of a collection that requests have built from the
    empty one has exactly the five entries of [create_event], in its
    order: a string identifier, a title that is trimmed and not empty, a
    trimmed description and two valid datetimes.  This holds after
    rejected requests and failed saves as well. *)
Theorem reachable_events_typed :
  forall st : store, reachable st -> Forall typed_event (events st).
Proof.
  induction 1 as [f|st uuid io data Hr IH|st Hr IH
                  |st event_id io data Hr IH|st event_id io Hr IH].
  - constructor.
  - apply create_event_typed. exact IH.
  - rewrite list_events_store. exact IH.
  - apply update_event_typed. exact IH.
  - apply delete_event_typed. exact IH.
Qed.

Lemma reachable_events_typed_witness :
  Forall typed_event (events standup_store).
Proof.
  apply reachable_events_typed.
  unfold standup_store. apply reach_create. apply reach_empty.
Defined.

(** ** The file after a successful request *)

Lemma in_dict_get (e : dict) k v :
  NoDup (map fst e) -> In (k, v) e -> dict_get e k = Some v.
Proof.
  induction e as [|[k0 v0] e IH]; cbn [map fst In dict_get]; [tauto|].
  intros Hnd [[= -> ->]|Hin].
  - rewrite String.eqb_refl. reflexivity.
  - inversion Hnd as [|? ? Hnotin Hnd']; subst.
    destruct (String.eqb k0 k) eqn:E; [|apply IH; assumption].
    apply String.eqb_eq in E. subst k0. contradiction Hnotin.
    apply (in_map fst) in Hin. exact Hin.
Qed.

Lemma typed_well_formed (e : dict) : typed_event e -> well_formed_event e.
Proof.
  intros (Hkeys & (i & Hi) & (t & Ht & _) & (s & Hs & _)
          & (a & Ha & Hva) & (b & Hb & Hvb)).
  assert (Hnd : NoDup (map fst e)).
  { rewrite Hkeys.
    repeat (constructor; [cbn [In]; intuition discriminate|]). constructor. }
  unfold well_formed_event, is_str. split; [exact Hnd|].
  split; [eauto|]. split; [eauto|]. split; [eauto|].
  split; [exists a, b; auto|].
  intros k v Hin Hk1 Hk2.
  pose proof (in_dict_get e k v Hnd Hin) as Hget.
  apply (in_map fst) in Hin. rewrite Hkeys in Hin. cbn [fst In] in Hin.
  destruct Hin as [<-|[<-|[<-|[<-|[<-|[]]]]]]; try congruence.
  - rewrite Hi in Hget. injection Hget as <-. reflexivity.
  - rewrite Ht in Hget. injection Hget as <-. reflexivity.
  - rewrite Hs in Hget. injection Hget as <-. reflexivity.
Qed.

Lemma save_events_ok io evs st1 st2 :
  save_events io evs st1 = (Ok tt, st2) ->
  st2 = mkStore (events st1)
          (FJson (VList (map VDict (map serializable_event evs)))).
Proof.
  unfold save_events. destruct io; [|discriminate].
  destruct (forallb _ _); [|discriminate].
  intros [= <-]. reflexivity.
Qed.

Lemma reload_saved uuid4 (evs : list dict) :
  Forall typed_event evs ->
  load_events uuid4 (FJson (VList (map VDict (map serializable_event evs))))
  = VList (map VDict evs).
Proof.
  intros H. unfold load_events. rewrite load_items_saved; [reflexivity|].
  rewrite Forall_forall in *. intros e He. apply typed_well_formed.
  apply H. exact He.
Qed.

(** The file that a request answered with [code] leaves, when [code] is
    the status of success of the handler. *)
Lemma create_event_saved uuid io data st :
  status (fst (create_event uuid io data st)) = 201 ->
  events_file (snd (create_event uuid io data st))
  = FJson (VList (map VDict (map serializable_event
                               (events (snd (create_event uuid io data st)))))).
Proof.
  unfold create_event, create_event_body, bind, get_events.
  destruct (create_in_memory uuid data st) as [[ev|e] st1];
    [|destruct e; cbn; discriminate].
  destruct (save_events io (events st1) st1) as [[[]|e] st2] eqn:Hs;
    [|destruct e; cbn; discriminate].
  apply save_events_ok in Hs. subst st2. unfold lift, ret.
  destruct (response_event ev) as [r|e]; [|destruct e; cbn; discriminate].
  intros _. reflexivity.
Qed.

Lemma update_event_saved event_id io data st :
  status (fst (update_event event_id io data st)) = 200 ->
  events_file (snd (update_event event_id io data st))
  = FJson (VList (map VDict
                    (map serializable_event
                       (events (snd (update_event event_id io data st)))))).
Proof.
  unfold update_event, update_event_body, bind, get_events.
  destruct (update_in_memory event_id data st) as [[ev|e] st1];
    [|destruct e; cbn; discriminate].
  destruct (save_events io (events st1) st1) as [[[]|e] st2] eqn:Hs;
    [|destruct e; cbn; discriminate].
  apply save_events_ok in Hs. subst st2. unfold lift, ret.
  destruct (response_event ev) as [r|e]; [|destruct e; cbn; discriminate].
  intros _. reflexivity.
Qed.

Lemma delete_event_saved event_id io st :
  status (fst (delete_event event_id io st)) = 200 ->
  events_file (snd (delete_event event_id io st))
  = FJson (VList (map VDict
                    (map serializable_event
                       (events (snd (delete_event event_id io st)))))).
Proof.
  unfold delete_event, delete_event_body, bind, get_events.
  destruct (delete_in_memory event_id st) as [[ev|e] st1];
    [|destruct e; cbn; discriminate].
  destruct (save_events io (events st1) st1) as [[[]|e] st2] eqn:Hs;
    [|destruct e; cbn; discriminate].
  apply save_events_ok in Hs. subst st2. unfold lift, ret.
  destruct (subscript ev "title") as [r|e]; [|destruct e; cbn; discriminate].
  intros _. reflexivity.
Qed.

(** X12: on a collection of typed events (every collection that requests
    build from the empty one is such), a creation answered with 201, an
    update answered with 200 and a deletion answered with 200 leave a file
    from which [load_events] rebuilds exactly the collection that is in
    memory after the request. *)
Theorem saved_collection_reloads :
  forall (st : store) (uuid4 : nat -> string),
    Forall typed_event (events st) ->
    (forall uuid io data,
        let st' := snd (create_event uuid io data st) in
        status (fst (create_event uuid io data st)) = 201 ->
        load_events uuid4 (events_file st') = VList (map VDict (events st')))
    /\ (forall event_id io data,
        let st' := snd (update_event event_id io data st) in
        status (fst (update_event event_id io data st)) = 200 ->
        load_events uuid4 (events_file st') = VList (map VDict (events st')))
    /\ (forall event_id io,
        let st' := snd (delete_event event_id io st) in
        status (fst (delete_event event_id io st)) = 200 ->
        load_events uuid4 (events_file st') = VList (map VDict (events st'))).
Proof.
  intros st uuid4 H. split; [|split].
  - intros uuid io data st' Hok. subst st'.
    rewrite (create_event_saved _ _ _ _ Hok).
    apply reload_saved. apply create_event_typed. exact H.
  - intros event_id io data st' Hok. subst st'.
    rewrite (update_event_saved _ _ _ _ Hok).
    apply reload_saved. apply update_event_typed. exact H.
  - intros event_id io st' Hok. subst st'.
    rewrite (delete_event_saved _ _ _ Hok).
    apply reload_saved. apply delete_event_typed. exact H.
Qed.

Lemma saved_collection_reloads_witness :
  load_events (fun _ => "fresh")
    (events_file (snd (update_event "id-1" DiskOk
                         (VDict [("title", VStr " Retro ")]) standup_store)))
  = VList [VDict (new_event "id-1" "Retro" "Daily sync"
                    (VDatetime nine) (VDatetime ten))].
Proof.
  destruct (saved_collection_reloads standup_store (fun _ => "fresh"))
    as (_ & H & _).
  - constructor; [|constructor].
    unfold typed_event. split; [reflexivity|].
    split; [exists "id-1"; reflexivity|].
    split; [exists "Standup"; repeat split; discriminate|].
    split; [exists "Daily sync"; repeat split|].
    split; [exists nine; repeat split|exists ten; repeat split].
  - apply (H "id-1" DiskOk (VDict [("title", VStr " Retro ")])).
    reflexivity.
Defined.

(** ** Loading *)

Lemma load_event_unloadable uuid (ev : dict) :
  unloadable (VDict ev) -> load_event uuid ev = Raise KeyError.
Proof.
  unfold unloadable, load_event, subscript.
  set (ev0 := if dict_mem ev "id" then ev else dict_set ev "id" (VStr uuid)).
  assert (Hother : forall k, k <> "id" -> dict_get ev0 k = dict_get ev k).
  { intros k Hk. subst ev0. destruct (dict_mem ev "id"); [reflexivity|].
    apply dict_get_set_other. congruence. }
  rewrite (Hother "start_time") by discriminate.
  destruct (dict_get ev "start_time") as [st|]; [|reflexivity].
  cbn [res_bind].
  destruct (parse_time_value st) as [a|]; [|contradiction].
  intros Hend. rewrite (dict_get_set_other _ _ _ _ start_end_neq).
  rewrite (Hother "end_time") by discriminate. rewrite Hend. reflexivity.
Qed.

Lemma load_items_unloadable uuid4 (items : list value) :
  Exists unloadable items ->
  forall n, exists e, load_items uuid4 n items = Raise e.
Proof.
  induction 1 as [item items Hbad|item items Hrest IH]; intros n.
  - destruct item as [| | | | | |ev];
      try (exists TypeError; reflexivity).
    exists KeyError. cbn [load_items].
    rewrite (load_event_unloadable _ _ Hbad). reflexivity.
  - destruct item as [| | | | | |ev];
      try (exists TypeError; reflexivity).
    cbn [load_items].
    destruct (load_event (uuid4 n) ev) as [ev'|e];
      [|exists e; reflexivity].
    cbn [res_bind].
    destruct (IH (if dict_mem ev "id" then n else S n)) as [e He].
    rewrite He. exists e. reflexivity.
Qed.

(** X13: one record that the loop cannot handle empties the whole
    collection: when the file holds a JSON array with an element that is
    not an object, an object without [start_time], or an object whose
    [start_time] parses and that has no [end_time], [load_events] returns
    the empty list, whatever the other records are. *)
Theorem load_events_drops_all :
  forall (uuid4 : nat -> string) (items : list value),
    Exists unloadable items ->
    load_events uuid4 (FJson (VList items)) = VList [].
Proof.
  intros uuid4 items H.
  destruct (load_items_unloadable uuid4 items H 0%nat) as [e He].
  unfold load_events. rewrite He. reflexivity.
Qed.

Lemma load_events_drops_all_witness :
  load_events (fun _ => "fresh")
    (FJson (VList [VDict (new_event "id-1" "Standup" "Daily sync"
                            (VStr "2024-01-01T09:00:00")
                            (VStr "2024-01-01T10:00:00"));
                   VDict [("id", VStr "id-2"); ("title", VStr "No times")]]))
  = VList [].
Proof.
  apply (load_events_drops_all (fun _ => "fresh")).
  right. left. exact I.
Defined.

Lemma load_event_id uuid (ev ev' : dict) :
  dict_mem ev "id" = false ->
  load_event uuid ev = Ok ev' ->
  dict_get ev' "id" = Some (VStr uuid).
Proof.
  intros Hmem. unfold load_event. rewrite Hmem.
  set (ev0 := dict_set ev "id" (VStr uuid)).
  assert (Hid : dict_get ev0 "id" = Some (VStr uuid))
    by apply dict_get_set_same.
  destruct (subscript ev0 "start_time") as [st|]; [|discriminate].
  cbn [res_bind].
  destruct (parse_time_value st) as [a|]; [|intros [= <-]; exact Hid].
  destruct (subscript _ "end_time") as [en|]; [|discriminate].
  cbn [res_bind].
  destruct (parse_time_value en) as [b|]; intros [= <-];
    rewrite !dict_get_set_other by discriminate; exact Hid.
Qed.

Lemma load_items_ids uuid4 (items : list value) :
  Forall lacks_id items ->
  forall n, exists l,
    load_items uuid4 n items = Ok l
    /\ map value_id l
       = map (fun k => Some (VStr (uuid4 k))) (seq n (List.length items)).
Proof.
  induction 1 as [|item items [Hkeys (ev & -> & Hmem)] Hitems IH]; intros n.
  - exists []. split; reflexivity.
  - destruct (load_event_spec (uuid4 n) ev Hkeys) as (ev' & Hload & _).
    destruct (IH (S n)) as (l & Hl & Hids).
    exists (VDict ev' :: l). cbn [load_items]. rewrite Hload.
    cbn [res_bind]. rewrite Hmem, Hl. split; [reflexivity|].
    cbn [map value_id List.length seq].
    rewrite (load_event_id _ _ _ Hmem Hload), Hids. reflexivity.
Qed.

(** X14: when every record of the file has its two times and no [id],
    [load_events] keeps them all and gives them the generated identifiers
    in the order of generation, the first record the first identifier; the
    loaded identifiers are distinct when the generated ones are. *)
Theorem load_events_assigns_ids :
  forall (uuid4 : nat -> string) (items : list value),
    Forall lacks_id items ->
    exists l,
      load_events uuid4 (FJson (VList items)) = VList l
      /\ map value_id l
         = map (fun k => Some (VStr (uuid4 k))) (seq 0 (List.length items))
      /\ ((forall i j, uuid4 i = uuid4 j -> i = j) -> NoDup (map value_id l)).
Proof.
  intros uuid4 items H.
  destruct (load_items_ids uuid4 items H 0%nat) as (l & Hl & Hids).
  exists l. unfold load_events. rewrite Hl.
  split; [reflexivity|]. split; [exact Hids|].
  intros Hinj. rewrite Hids. apply Finite.Injective_map_NoDup.
  - intros i j [= Hij]. apply Hinj. exact Hij.
  - apply seq_NoDup.
Qed.

Lemma load_events_assigns_ids_witness :
  exists l,
    load_events (fun n => if Nat.eqb n 0 then "first" else "second")
      (FJson (VList [VDict [("start_time", VStr "2024-01-01T09:00:00");
                            ("end_time", VStr "2024-01-01T10:00:00")];
                     VDict [("start_time", VStr "later");
                            ("end_time", VStr "2024-01-01T10:00:00")]]))
    = VList l
    /\ map value_id l = [Some (VStr "first"); Some (VStr "second")].
Proof.
  destruct (load_events_assigns_ids
              (fun n => if Nat.eqb n 0 then "first" else "second")
              [VDict [("start_time", VStr "2024-01-01T09:00:00");
                      ("end_time", VStr "2024-01-01T10:00:00")];
               VDict [("start_time", VStr "later");
                      ("end_time", VStr "2024-01-01T10:00:00")]])
    as (l & Hl & Hids & _).
  - repeat constructor;
      try (do 3 eexists; split; [reflexivity|split; reflexivity]);
      eexists; split; reflexivity.
  - exists l. split; [exact Hl|exact Hids].
Defined.

(** ** Creation and lookup *)

Lemma create_in_memory_event uuid data st ev st1 :
  create_in_memory uuid data st = (Ok ev, st1) ->
  id_of ev = Some uuid /\ event_ordered ev = true.
Proof.
  unfold create_in_memory.
  destruct (truthy data); cbn [negb]; [|discriminate].
  destruct data as [| | | | | |d]; try discriminate.
  destruct (validate_event_data d false) as [[[v errs] ps] pe].
  destruct v; cbn [negb]; [|discriminate].
  unfold bind, lift, raise, ret, get_events, set_events.
  destruct (value_ge (as_value ps) (as_value pe)) as [[|]|] eqn:Hge;
    try discriminate.
  destruct (stripped d "title") as [t|]; [|discriminate].
  destruct (stripped d "description") as [s|]; [|discriminate].
  cbn [res_bind]. intros [= <- <-]. split; [reflexivity|].
  unfold event_ordered, new_event.
  cbn [dict_get String.eqb Ascii.eqb Bool.eqb].
  unfold value_ge, value_lt in *.
  destruct (value_cmp (as_value ps) (as_value pe)) as [c|];
    cbn [res_bind] in *; [|discriminate].
  destruct c; cbn in *; congruence.
Qed.

Lemma create_event_created uuid io data st :
  status (fst (create_event uuid io data st)) = 201 ->
  exists ev,
    fst (create_in_memory uuid data st) = Ok ev
    /\ events (snd (create_event uuid io data st))
       = (events st ++ [ev])%list.
Proof.
  intros Hok.
  destruct (create_in_memory uuid data st) as [[ev|e] st1] eqn:Hrun.
  - exists ev. split; [reflexivity|].
    rewrite create_event_events, Hrun.
    destruct (create_in_memory_writes _ _ _ _ _ Hrun) as [_ [Hw _]].
    exact Hw.
  - exfalso. unfold create_event, create_event_body, bind in Hok.
    rewrite Hrun in Hok. destruct e; cbn in Hok; discriminate.
Qed.

Lemma get_event_by_id_app evs ev event_id :
  id_of ev <> Some event_id -> dict_mem ev "id" = true ->
  get_event_by_id (evs ++ [ev]) event_id = get_event_by_id evs event_id.
Proof.
  intros Hne Hmem. induction evs as [|e evs IH].
  - cbn [app get_event_by_id]. unfold subscript, dict_mem, id_of in *.
    destruct (dict_get ev "id") as [v|]; [|discriminate]. cbn [res_bind].
    destruct v; try reflexivity.
    destruct (String.eqb s event_id) eqn:E; [|reflexivity].
    apply String.eqb_eq in E. subst s. contradiction Hne. reflexivity.
  - cbn [app get_event_by_id].
    destruct (subscript e "id") as [v|]; [|reflexivity]. cbn [res_bind].
    destruct v; try exact IH.
    destruct (String.eqb s event_id); [reflexivity|exact IH].
Qed.

(** X15: after a creation answered with 201 the collection is the old one
    followed by one new event.  When the generated identifier was not in
    use, looking it up returns the new event, and looking up any other
    identifier gives what it gave before the creation. *)
Theorem created_event_is_found :
  forall (uuid : string) (io : disk) (data : value) (st : store),
    status (fst (create_event uuid io data st)) = 201 ->
    id_unused uuid (events st) ->
    let st' := snd (create_event uuid io data st) in
    exists ev,
      events st' = (events st ++ [ev])%list
      /\ id_of ev = Some uuid
      /\ get_event_by_id (events st') uuid = Ok (Some ev)
      /\ (forall event_id,
            event_id <> uuid ->
            get_event_by_id (events st') event_id
            = get_event_by_id (events st) event_id).
Proof.
  intros uuid io data st Hok Hfresh st'. subst st'.
  destruct (create_event_created _ _ _ _ Hok) as (ev & Hrun & Hevs).
  destruct (create_in_memory uuid data st) as [r st1] eqn:Hmem.
  cbn [fst] in Hrun. subst r.
  destruct (create_in_memory_event _ _ _ _ _ Hmem) as [Hid _].
  exists ev. rewrite Hevs. split; [reflexivity|]. split; [exact Hid|].
  split.
  - rewrite (get_event_by_id_find _ _ 0%nat).
    rewrite (find_event_first uuid (events st) ev [] Hfresh Hid).
    reflexivity.
  - intros event_id Hne. apply get_event_by_id_app.
    + rewrite Hid. congruence.
    + unfold id_of in Hid. unfold dict_mem.
      destruct (dict_get ev "id"); [reflexivity|discriminate].
Qed.

Lemma created_event_is_found_witness :
  get_event_by_id (events standup_store) "id-1" = Ok (Some (standup "id-1")).
Proof.
  destruct (created_event_is_found "id-1" DiskOk standup_body empty_store
              eq_refl ltac:(constructor))
    as (ev & Hevs & _ & Hget & _).
  unfold standup_store. rewrite Hget. f_equal. f_equal.
  cbn in Hevs. injection Hevs as <-. reflexivity.
Defined.

(** ** Listing a collection with a malformed time *)

Lemma insert_sorted_perm {A} (x : value * A) l l' :
  insert_sorted x l = Ok l' -> Permutation l' (x :: l).
Proof.
  revert l'. induction l as [|y ys IH]; intros l'; cbn [insert_sorted].
  - intros [= <-]. apply Permutation_refl.
  - destruct (value_lt (fst y) (fst x)) as [[|]|]; cbn [res_bind];
      try discriminate.
    + destruct (insert_sorted x ys) as [r|]; cbn [res_bind];
        [|discriminate].
      intros [= <-].
      apply Permutation_trans with (y :: x :: ys);
        [constructor; apply IH; reflexivity|apply perm_swap].
    + intros [= <-]. apply Permutation_refl.
Qed.

Lemma sort_keyed_perm {A} (l l' : list (value * A)) :
  sort_keyed l = Ok l' -> Permutation l' l.
Proof.
  revert l'. induction l as [|x r IH]; intros l'; cbn [sort_keyed].
  - intros [= <-]. constructor.
  - destruct (sort_keyed r) as [r'|]; cbn [res_bind]; [|discriminate].
    intros H. apply insert_sorted_perm in H.
    apply Permutation_trans with (x :: r'); [exact H|].
    constructor. apply IH. reflexivity.
Qed.

Lemma keyed_snd (key : dict -> res value) (l : list dict) ks :
  mapM (fun e => res_bind (key e) (fun k => Ok (k, e))) l = Ok ks ->
  map snd ks = l.
Proof.
  revert ks. induction l as [|e l IH]; intros ks; cbn [mapM].
  - intros [= <-]. reflexivity.
  - destruct (key e) as [k|]; cbn [res_bind]; [|discriminate].
    destruct (mapM _ l) as [r|]; cbn [res_bind]; [|discriminate].
    intros [= <-]. cbn [map snd]. rewrite (IH r eq_refl). reflexivity.
Qed.

(** When [sorted] returns, it returns a rearrangement of its input. *)
Lemma sorted_perm (key : dict -> res value) (l l' : list dict) :
  sorted key l = Ok l' -> Permutation l' l.
Proof.
  unfold sorted.
  destruct (mapM _ l) as [ks|] eqn:Hks; cbn [res_bind]; [|discriminate].
  destruct (sort_keyed ks) as [s|] eqn:Hs; cbn [res_bind]; [|discriminate].
  intros [= <-]. rewrite <- (keyed_snd key l ks Hks).
  apply Permutation_map. apply (sort_keyed_perm _ _ Hs).
Qed.

Lemma mapM_raise {A B} (f : A -> res B) (l : list A) x :
  In x l -> (exists e, f x = Raise e) -> exists e, mapM f l = Raise e.
Proof.
  intros Hin [e He]. induction l as [|y l IH]; [destruct Hin|].
  cbn [mapM]. destruct Hin as [->|Hin].
  - rewrite He. exists e. reflexivity.
  - destruct (f y) as [b|e']; [|exists e'; reflexivity]. cbn [res_bind].
    destruct (IH Hin) as [e' ->]. exists e'. reflexivity.
Qed.

Lemma response_event_raises e :
  start_datetime e = None \/ end_datetime e = None ->
  exists x, response_event e = Raise x.
Proof.
  unfold start_datetime, end_datetime, response_event, subscript.
  intros H.
  destruct (dict_get e "start_time") as [v|]; [|eexists; reflexivity].
  cbn [res_bind].
  destruct v; try (eexists; reflexivity).
  cbn [value_isoformat res_bind].
  rewrite (dict_get_set_other _ _ _ _ start_end_neq).
  destruct H as [H|H]; [discriminate|].
  destruct (dict_get e "end_time") as [v|]; [|eexists; reflexivity].
  cbn [res_bind]. destruct v; try (eexists; reflexivity). discriminate.
Qed.

(** X16: when some event of the collection has a start or end time that
    is missing or is not a datetime (a record that [load_events] kept
    with a raw time, for instance), the list request is answered with the
    generic 500 response, for the whole collection; the store is
    unchanged. *)
Theorem list_events_fails_on_malformed_time :
  forall st : store,
    Exists (fun e => start_datetime e = None \/ end_datetime e = None)
           (events st) ->
    list_events st = (internal_server_error, st).
Proof.
  intros st H. apply Exists_exists in H. destruct H as (e & Hin & He).
  unfold list_events, list_events_body, bind, lift, get_events, ret.
  destruct (sorted _ (events st)) as [l|x] eqn:Hs; [|reflexivity].
  apply sorted_perm in Hs.
  destruct (mapM_raise response_event l e) as [x Hx].
  - apply (Permutation_in _ (Permutation_sym Hs)). exact Hin.
  - apply response_event_raises. exact He.
  - rewrite Hx. reflexivity.
Qed.

Lemma list_events_fails_on_malformed_time_witness :
  list_events
    (mkStore [standup "id-1";
              [("id", VStr "e1"); ("title", VStr "Review");
               ("start_time", VDatetime ten); ("end_time", VStr "soon")]]
             FAbsent)
  = (internal_server_error,
     mkStore [standup "id-1";
              [("id", VStr "e1"); ("title", VStr "Review");
               ("start_time", VDatetime ten); ("end_time", VStr "soon")]]
             FAbsent).
Proof.
  apply list_events_fails_on_malformed_time.
  right. left. right. reflexivity.
Defined.

(** ** Requests that keep the ordering of the times *)

Lemma event_ordered_list_set (evs : list dict) i ev :
  Forall (fun e => event_ordered e = true) evs ->
  event_ordered ev = true ->
  Forall (fun e => event_ordered e = true) (list_set evs i ev).
Proof. intros H Hev. apply Forall_list_set; assumption. Qed.

(** X17: on a collection in which every event has its start time before
    its end time, a creation and a deletion keep it so whatever their
    outcome, and so does an update that is answered with 200. *)
Theorem ordering_kept_by_success :
  forall st : store,
    Forall (fun e => event_ordered e = true) (events st) ->
    (forall uuid io data,
        Forall (fun e => event_ordered e = true)
               (events (snd (create_event uuid io data st))))
    /\ (forall event_id io,
        Forall (fun e => event_ordered e = true)
               (events (snd (delete_event event_id io st))))
    /\ (forall event_id io data,
        status (fst (update_event event_id io data st)) = 200 ->
        Forall (fun e => event_ordered e = true)
               (events (snd (update_event event_id io data st)))).
Proof.
  intros st H. split; [|split].
  - intros uuid io data. rewrite create_event_events.
    destruct (create_in_memory uuid data st) as [r st1] eqn:Hrun.
    destruct (create_in_memory_writes _ _ _ _ _ Hrun) as [_ Hw].
    cbn [snd]. destruct r as [ev|e]; [|rewrite Hw; exact H].
    destruct Hw as [-> _]. apply Forall_app. split; [exact H|].
    constructor; [|constructor].
    apply (create_in_memory_event _ _ _ _ _ Hrun).
  - intros event_id io.
    destruct (delete_event_events event_id io st) as [->|[i ->]];
      [exact H|apply Forall_pop; exact H].
  - intros event_id io data Hok. rewrite update_event_events.
    destruct (update_in_memory event_id data st) as [[ev|e] st1] eqn:Hrun.
    + destruct (update_in_memory_ok _ _ _ _ _ Hrun)
        as (i & old & _ & -> & Hev).
      cbn [snd events]. apply event_ordered_list_set; assumption.
    + exfalso. unfold update_event, update_event_body, bind in Hok.
      rewrite Hrun in Hok. destruct e; cbn in Hok; discriminate.
Qed.

Lemma ordering_kept_by_success_witness :
  Forall (fun e => event_ordered e = true)
         (events (snd (create_event "id-2" DiskOk offset_body standup_store))).
Proof.
  destruct (ordering_kept_by_success standup_store) as [H _].
  - constructor; [reflexivity|constructor].
  - apply H.
Defined.

(** ** Listing a collection that mixes naive and aware start times *)

(** [<] only answers for two keys of one kind. *)
Lemma value_lt_kind a b r :
  value_lt a b = Ok r -> key_kind a = key_kind b.
Proof.
  unfold value_lt.
  destruct a, b; cbn [value_cmp res_bind key_kind];
    try discriminate; try reflexivity.
  unfold datetime_cmp.
  destruct (tzinfo d) as [oa|], (tzinfo d0) as [ob|];
    cbn [res_bind]; try discriminate; reflexivity.
Qed.

(** When the sort returns, all the keys it was given are of one kind. *)
Lemma sort_keyed_one_kind {A} (l l' : list (value * A)) :
  sort_keyed l = Ok l' ->
  forall x y, In x l -> In y l -> key_kind (fst x) = key_kind (fst y).
Proof.
  revert l'. induction l as [|x r IH]; intros l'; [intros _ ? ? []|].
  cbn [sort_keyed].
  destruct (sort_keyed r) as [r'|] eqn:Hr; cbn [res_bind]; [|discriminate].
  intros Hins.
  assert (Hx : forall u, In u r -> key_kind (fst u) = key_kind (fst x)).
  { intros u Hu. pose proof (sort_keyed_perm _ _ Hr) as Hperm.
    destruct r' as [|y ys].
    - apply Permutation_nil in Hperm. subst r.
      destruct Hu.
    - cbn [insert_sorted] in Hins.
      destruct (value_lt (fst y) (fst x)) as [b|] eqn:Hlt;
        [|discriminate].
      apply value_lt_kind in Hlt. rewrite <- Hlt.
      apply (IH _ eq_refl); [exact Hu|].
      apply (Permutation_in _ Hperm). left. reflexivity. }
  intros u v [<-|Hu] [<-|Hv].
  - reflexivity.
  - symmetry. apply Hx. exact Hv.
  - apply Hx. exact Hu.
  - rewrite (Hx u Hu), (Hx v Hv). reflexivity.
Qed.

Lemma keyed_in (l : list dict) ks e :
  mapM (fun e => res_bind (subscript e "start_time") (fun k => Ok (k, e))) l
  = Ok ks ->
  In e l ->
  exists k, In (k, e) ks /\ dict_get e "start_time" = Some k.
Proof.
  revert ks. induction l as [|x l IH]; intros ks; [intros _ []|].
  cbn [mapM]. unfold subscript at 1.
  destruct (dict_get x "start_time") as [k|] eqn:Hk; cbn [res_bind];
    [|discriminate].
  destruct (mapM _ l) as [r|]; cbn [res_bind]; [|discriminate].
  intros [= <-] [<-|Hin].
  - exists k. split; [left; reflexivity|exact Hk].
  - destruct (IH r eq_refl Hin) as (k' & Hk' & Hget).
    exists k'. split; [right; exact Hk'|exact Hget].
Qed.

(** C7: the list request does not return the sorted events of every
    collection.  Whenever one event of the collection has a naive start
    time and another an aware one, [sorted] cannot order the two keys and
    the request is answered with the generic 500 response; the store is
    unchanged.  Two accepted creations, one with a naive time and one with
    an offset, build such a collection. *)
Theorem list_events_mixed_start_times_fail :
  forall (st : store) (e1 e2 : dict) (a1 a2 : datetime) (off : Z),
    In e1 (events st) -> In e2 (events st) ->
    start_datetime e1 = Some a1 -> tzinfo a1 = None ->
    start_datetime e2 = Some a2 -> tzinfo a2 = Some off ->
    list_events st = (internal_server_error, st).
Proof.
  intros st e1 e2 a1 a2 off H1 H2 Hs1 Hn Hs2 Ha.
  unfold list_events, list_events_body, bind, lift, get_events, ret.
  destruct (sorted _ (events st)) as [l|x] eqn:Hsorted; [|reflexivity].
  exfalso. unfold sorted in Hsorted.
  destruct (mapM _ (events st)) as [ks|] eqn:Hks; cbn [res_bind] in Hsorted;
    [|discriminate].
  destruct (sort_keyed ks) as [s|] eqn:Hsort; cbn [res_bind] in Hsorted;
    [|discriminate].
  destruct (keyed_in _ _ _ Hks H1) as (k1 & Hin1 & Hk1).
  destruct (keyed_in _ _ _ Hks H2) as (k2 & Hin2 & Hk2).
  rewrite (start_datetime_get _ _ Hs1) in Hk1. injection Hk1 as <-.
  rewrite (start_datetime_get _ _ Hs2) in Hk2. injection Hk2 as <-.
  pose proof (sort_keyed_one_kind _ _ Hsort _ _ Hin1 Hin2) as Hkind.
  cbn [fst key_kind] in Hkind. rewrite Hn, Ha in Hkind. discriminate.
Qed.

Lemma list_events_mixed_start_times_fail_witness :
  reachable mixed_store
  /\ list_events mixed_store = (internal_server_error, mixed_store).
Proof.
  split.
  - unfold mixed_store, standup_store.
    apply reach_create. apply reach_create. apply reach_empty.
  - apply (list_events_mixed_start_times_fail mixed_store
             (standup "id-1")
             (new_event "id-2" "Call" "With offset"
                (VDatetime (mkDatetime 2024 1 1 9 0 0 0 (Some 0)))
                (VDatetime (mkDatetime 2024 1 1 10 0 0 0 (Some 0))))
             nine (mkDatetime 2024 1 1 9 0 0 0 (Some 0)) 0).
    + left. reflexivity.
    + right. left. reflexivity.
    + reflexivity.
    + reflexivity.
    + reflexivity.
    + reflexivity.
Defined.
